(** * AI podcast pipeline: tier gating, generation tasks, workflow and retry

    A shallow embedding of the processing core of the repository:
    - [lib/tier-config.ts], [lib/tier-utils.ts]: plans, features and jobs;
    - [schemas/ai-outputs.ts]: the zod schemas of the generated artifacts;
    - [lib/format.ts]: [formatTimestamp];
    - [convex/schema.ts], [convex/projects.ts]: the project document and
      its mutations;
    - [inngest/steps/transcription/assemblyai.ts] and
      [inngest/steps/ai-generation/*.ts]: the transcription stage and the
      generation tasks;
    - [inngest/steps/persistence/save-to-convex.ts]: the final write;
    - [inngest/functions/podcast-processor.ts]: the workflow
      [podcastProcessor], and the retry function [retryJobFunction];
    - the server action [generateMissingFeatures];
    - [lib/tier-utils.ts]: [checkUploadLimits], with the queries and
      mutations of the [projects] table it and the project actions use
      ([getUserProjectCount], [createProject], [deleteProject]);
    - [app/actions/projects.ts]: [validateUploadAction] and
      [createProjectAction]; [app/actions/retry-job.ts]: [retryJob];
    - [lib/format.ts]: [formatDuration].

    Asynchronous code is embedded in a state-and-exception monad over a
    world made of the project document, the clock and three traces (the
    generation tasks started, the completion calls made, the events sent).
    The external providers are inputs of a run: what the transcription
    provider answers and what the completion provider answers to each named
    call.  [Date.now()] reads the world's clock; the passage of time during
    a run is not modelled. *)

From Stdlib Require Import ZArith NArith QArith String Ascii List Lia DecimalString.
From stdpp Require Import base option list gmap strings.

Local Open Scope string_scope.

(** ** Plans, features and jobs ([lib/tier-config.ts]) *)

Module TierConfig.

Inductive PlanName := free | pro | ultra.

(** The values of [FEATURES]. *)
Inductive FeatureName :=
| SUMMARY | SOCIAL_POSTS | TITLES | HASHTAGS
| YOUTUBE_TIMESTAMPS | KEY_MOMENTS | SPEAKER_DIARIZATION.

(** [JobName]: the values of [FEATURE_TO_JOB_MAP], also [RetryableJob]. *)
Inductive JobName :=
| socialPosts | titles | hashtags | keyMoments | youtubeTimestamps | summary.

#[export] Instance PlanName_eq_dec : EqDecision PlanName.
Proof. solve_decision. Defined.
#[export] Instance FeatureName_eq_dec : EqDecision FeatureName.
Proof. solve_decision. Defined.
#[export] Instance JobName_eq_dec : EqDecision JobName.
Proof. solve_decision. Defined.

Definition JobName_code (j : JobName) : nat :=
  match j with
  | socialPosts => 0 | titles => 1 | hashtags => 2
  | keyMoments => 3 | youtubeTimestamps => 4 | summary => 5
  end.

Definition JobName_decode (n : nat) : JobName :=
  match n with
  | 0 => socialPosts | 1 => titles | 2 => hashtags
  | 3 => keyMoments | 4 => youtubeTimestamps | _ => summary
  end.

#[export] Instance JobName_countable : Countable JobName.
Proof.
  apply (inj_countable' JobName_code JobName_decode).
  intros []; reflexivity.
Defined.

(** The string each job name stands for. *)
Definition JobName_str (j : JobName) : string :=
  match j with
  | socialPosts => "socialPosts" | titles => "titles"
  | hashtags => "hashtags" | keyMoments => "keyMoments"
  | youtubeTimestamps => "youtubeTimestamps" | summary => "summary"
  end.

Definition PLAN_FEATURES (plan : PlanName) : list FeatureName :=
  match plan with
  | free => [SUMMARY]
  | pro => [SUMMARY; SOCIAL_POSTS; TITLES; HASHTAGS]
  | ultra => [SUMMARY; SOCIAL_POSTS; TITLES; HASHTAGS;
              YOUTUBE_TIMESTAMPS; KEY_MOMENTS; SPEAKER_DIARIZATION]
  end.

(** The entries of the object literal, in source order. *)
Definition FEATURE_TO_JOB_entries : list (FeatureName * JobName) :=
  [ (SOCIAL_POSTS, socialPosts); (TITLES, titles); (HASHTAGS, hashtags);
    (KEY_MOMENTS, keyMoments); (YOUTUBE_TIMESTAMPS, youtubeTimestamps);
    (SUMMARY, summary) ].

(** [FEATURE_TO_JOB_MAP[feature]]: [None] is [undefined]. *)
Definition FEATURE_TO_JOB_MAP (feature : FeatureName) : option JobName :=
  snd <$> List.find (fun e => bool_decide (fst e = feature)) FEATURE_TO_JOB_entries.

(** [lib/tier-utils.ts] *)
Definition getPlanFeatures (plan : PlanName) : list FeatureName :=
  PLAN_FEATURES plan.

Definition planHasFeature (plan : PlanName) (feature : FeatureName) : bool :=
  bool_decide (feature ∈ PLAN_FEATURES plan).

(** The generation tasks a plan is entitled to: the jobs of its features. *)
Definition entitledJobs (plan : PlanName) : list JobName :=
  omap FEATURE_TO_JOB_MAP (PLAN_FEATURES plan).

(** The order free < pro < ultra. *)
Definition plan_rank (plan : PlanName) : nat :=
  match plan with free => 0 | pro => 1 | ultra => 2 end.

End TierConfig.
Export TierConfig.

(** ** Thrown values and settled promises *)

Module Js.

(** What a [catch] clause can receive: an [Error] object, which carries
    a message and a stack string, or any other value (kept as the string
    [String(v)] gives). *)
Inductive Thrown :=
| ErrorObj (message stack : string)
| NonError (repr : string).

(** [new Error(msg)].  The stack starts with the error's header line; the
    frames are not modelled. *)
Definition new_Error (msg : string) : Thrown :=
  ErrorObj msg ("Error: " ++ msg).

(** [e instanceof Error ? e.message : dflt] *)
Definition message_or (dflt : string) (e : Thrown) : string :=
  match e with ErrorObj m _ => m | NonError _ => dflt end.

(** [e instanceof Error ? e.message : String(e)] *)
Definition message_or_String (e : Thrown) : string :=
  match e with ErrorObj m _ => m | NonError r => r end.

(** [e instanceof Error ? e.stack : String(e)] *)
Definition stack_or_String (e : Thrown) : string :=
  match e with ErrorObj _ s => s | NonError r => r end.

(** An element of the array [Promise.allSettled] resolves to. *)
Inductive Settled (A : Type) :=
| Fulfilled (value : A)
| Rejected (reason : Thrown).
Arguments Fulfilled {A} value.
Arguments Rejected {A} reason.

(** A JSON value, as [JSON.parse] returns it.  An object is the list of
    its own properties. *)
#[local] Unset Elimination Schemes.
Inductive json :=
| JNull
| JBool (b : bool)
| JNum (q : Q)
| JStr (s : string)
| JArr (items : list json)
| JObj (props : list (string * json)).
#[local] Set Elimination Schemes.

(** [o[key]] on a parsed object. *)
Definition prop (key : string) (props : list (string * json)) : option json :=
  snd <$> List.find (fun kv => bool_decide (fst kv = key)) props.

(** A [string] holds the UTF-8 bytes of a JavaScript string, while
    [s.length] and [s.substring] count UTF-16 code units.  The first byte
    of a character tells how many units it takes: one for a character of
    one, two or three bytes, two (a surrogate pair) for a character of
    four bytes; a continuation byte starts none.  A string is empty
    exactly when it has no byte, and on ASCII text (digits, the samples)
    bytes and code units are the same. *)
Definition code_units (c : ascii) : nat :=
  let b := N_of_ascii c in
  if (b <? 128)%N then 1%nat
  else if (b <? 192)%N then 0%nat
  else if (b <? 240)%N then 1%nat
  else 2%nat.

(** [s.length] *)
Fixpoint js_length (s : string) : nat :=
  match s with
  | EmptyString => 0%nat
  | String c s' => (code_units c + js_length s')%nat
  end.

(** The high surrogate of the character written in the four bytes
    [b0 b1 b2 b3], as a lone surrogate is written in three bytes
    (generalised UTF-8): what is left of the character when a cut falls
    inside its pair. *)
Definition high_surrogate (b0 b1 b2 b3 : ascii) : string :=
  let cp := (N.land (N_of_ascii b0) 7 * 262144 + N.land (N_of_ascii b1) 63 * 4096
             + N.land (N_of_ascii b2) 63 * 64 + N.land (N_of_ascii b3) 63)%N in
  let hi := (55296 + (cp - 65536) / 1024)%N in
  String (ascii_of_N 237)
    (String (ascii_of_N (128 + (hi / 64) mod 64))
       (String (ascii_of_N (128 + hi mod 64)) EmptyString)).

(** [s.substring(0, n)]: the first [n] code units. *)
Fixpoint substring0 (n : nat) (s : string) : string :=
  match s with
  | EmptyString => EmptyString
  | String c s' =>
      match code_units c with
      | 0%nat => String c (substring0 n s')
      | 1%nat =>
          match n with
          | 0%nat => EmptyString
          | S n' => String c (substring0 n' s')
          end
      | _ =>
          match n with
          | 0%nat => EmptyString
          | 1%nat =>
              match s' with
              | String b1 (String b2 (String b3 _)) => high_surrogate c b1 b2 b3
              | _ => EmptyString
              end
          | S (S n') => String c (substring0 n' s')
          end
      end
  end.

End Js.
Export Js.

(** ** Artifact schemas ([schemas/ai-outputs.ts]) *)

Module Schemas.

Record Summary := {
  full : string;
  bullets : list string;
  insights : list string;
  tldr : string;
}.

Record Titles := {
  youtubeShort : list string;
  youtubeLong : list string;
  podcastTitles : list string;
  seoKeywords : list string;
}.

Record SocialPosts := {
  sp_twitter : string;
  sp_linkedin : string;
  sp_instagram : string;
  sp_tiktok : string;
  sp_youtube : string;
  sp_facebook : string;
}.

Record Hashtags := {
  ht_youtube : list string;
  ht_instagram : list string;
  ht_tiktok : list string;
  ht_linkedin : list string;
  ht_twitter : list string;
}.

(** A zod schema is embedded as the decoder its [parse] method runs:
    [None] stands for the [ZodError] it throws. *)

(** [z.string()] *)
Definition z_string (j : json) : option string :=
  match j with JStr s => Some s | _ => None end.

(** [z.string().max(n)]: the check is on [s.length]. *)
Definition z_string_max (n : nat) (j : json) : option string :=
  s ← z_string j;
  if (js_length s <=? n)%nat then Some s else None.

(** [z.array(z.string())] *)
Definition z_array_string (j : json) : option (list string) :=
  match j with JArr items => mapM z_string items | _ => None end.

(** [z.array(z.string()).min(lo).max(hi)] *)
Definition z_array_string_between (lo hi : nat) (j : json) : option (list string) :=
  l ← z_array_string j;
  if ((lo <=? length l) && (length l <=? hi))%nat then Some l else None.

(** [z.array(z.string()).length(n)] *)
Definition z_array_string_length (n : nat) (j : json) : option (list string) :=
  l ← z_array_string j;
  if (length l =? n)%nat then Some l else None.

(** A required key of a [z.object]: the key must be present and its value
    must pass the field's schema.  Keys the schema does not name are
    dropped. *)
Definition z_field {A} (key : string) (schema : json → option A)
    (props : list (string * json)) : option A :=
  prop key props ≫= schema.

Definition summarySchema_parse (j : json) : option Summary :=
  match j with
  | JObj props =>
      f ← z_field "full" z_string props;
      b ← z_field "bullets" (z_array_string_between 5 7) props;
      i ← z_field "insights" (z_array_string_between 3 5) props;
      t ← z_field "tldr" z_string props;
      Some {| full := f; bullets := b; insights := i; tldr := t |}
  | _ => None
  end.

Definition titlesSchema_parse (j : json) : option Titles :=
  match j with
  | JObj props =>
      s ← z_field "youtubeShort" (z_array_string_length 3) props;
      l ← z_field "youtubeLong" (z_array_string_length 3) props;
      p ← z_field "podcastTitles" (z_array_string_length 3) props;
      k ← z_field "seoKeywords" (z_array_string_between 5 10) props;
      Some {| youtubeShort := s; youtubeLong := l;
              podcastTitles := p; seoKeywords := k |}
  | _ => None
  end.

Definition socialPostsSchema_parse (j : json) : option SocialPosts :=
  match j with
  | JObj props =>
      tw ← z_field "twitter" (z_string_max 280) props;
      li ← z_field "linkedin" z_string props;
      ig ← z_field "instagram" z_string props;
      tt ← z_field "tiktok" z_string props;
      yt ← z_field "youtube" z_string props;
      fb ← z_field "facebook" z_string props;
      Some {| sp_twitter := tw; sp_linkedin := li; sp_instagram := ig;
              sp_tiktok := tt; sp_youtube := yt; sp_facebook := fb |}
  | _ => None
  end.

Definition hashtagsSchema_parse (j : json) : option Hashtags :=
  match j with
  | JObj props =>
      yt ← z_field "youtube" (z_array_string_length 5) props;
      ig ← z_field "instagram" (z_array_string_between 6 8) props;
      tt ← z_field "tiktok" (z_array_string_between 5 6) props;
      li ← z_field "linkedin" (z_array_string_length 5) props;
      tw ← z_field "twitter" (z_array_string_length 5) props;
      Some {| ht_youtube := yt; ht_instagram := ig; ht_tiktok := tt;
              ht_linkedin := li; ht_twitter := tw |}
  | _ => None
  end.

End Schemas.
Export Schemas.

(** ** Timestamps ([lib/format.ts]) *)

Module Format.

(** [String(n)] for a non-negative integer. *)
Definition String_of_N (n : N) : string :=
  NilZero.string_of_uint (N.to_uint n).

(** [s.padStart(2, "0")] *)
Definition padStart2 (s : string) : string :=
  match String.length s with
  | 0 => "00"
  | 1 => "0" ++ s
  | _ => s
  end.

(** [formatTimestamp(seconds, { padHours, forceHours })] on a whole,
    non-negative number of seconds. *)
Definition formatTimestamp (seconds : N) (padHours forceHours : bool) : string :=
  let hours := (seconds / 3600)%N in
  let minutes := ((seconds mod 3600) / 60)%N in
  let secs := (seconds mod 60)%N in
  let hoursStr := if padHours then padStart2 (String_of_N hours)
                  else String_of_N hours in
  let minutesStr := padStart2 (String_of_N minutes) in
  let secsStr := padStart2 (String_of_N secs) in
  if (0 <? hours)%N || forceHours
  then hoursStr ++ ":" ++ minutesStr ++ ":" ++ secsStr
  else minutesStr ++ ":" ++ secsStr.

End Format.
Export Format.

(** ** Transcripts ([inngest/types/assemblyai.ts]) *)

Module Transcript.

(** Times the transcription provider reports are whole milliseconds. *)
Record AssemblyAIWord := {
  w_text : string;
  w_start : N;
  w_end : N;
}.

Record AssemblyAISegment := {
  seg_start : N;
  seg_end : N;
  seg_text : string;
  seg_words : option (list AssemblyAIWord);
}.

Record FormattedWord := {
  fw_word : string;
  fw_start : N;
  fw_end : N;
}.

Record FormattedSegment := {
  fs_id : nat;
  fs_start : N;
  fs_end : N;
  fs_text : string;
  fs_words : list FormattedWord;
}.

Record AssemblyAIChapter := {
  ch_start : N;
  ch_end : N;
  ch_gist : string;
  ch_headline : string;
  ch_summary : string;
}.

Record AssemblyAIUtterance := {
  ut_start : N;
  ut_end : N;
  ut_confidence : Q;
  ut_speaker : string;
  ut_text : string;
}.

(** What the generation tasks receive.  [chapters] and [utterances] are
    arrays in the declared type; a transcript read back from the store and
    cast to this type has them only when they were stored, hence the
    options ([None] is [undefined]). *)
Record TranscriptWithExtras := {
  text : string;
  segments : list FormattedSegment;
  chapters : option (list AssemblyAIChapter);
  utterances : option (list AssemblyAIUtterance);
  audio_duration : option N;
}.

(** A speaker entry of the stored transcript, in seconds. *)
Record Speaker := {
  spk_speaker : string;
  spk_start : Q;
  spk_end : Q;
  spk_text : string;
  spk_confidence : Q;
}.

(** The [transcript] field of the project document. *)
Record StoredTranscript := {
  st_text : string;
  st_segments : list FormattedSegment;
  st_speakers : option (list Speaker);
  st_chapters : option (list AssemblyAIChapter);
}.

(** [project.transcript as TranscriptWithExtras] *)
Definition as_TranscriptWithExtras (t : StoredTranscript) : TranscriptWithExtras :=
  {| text := st_text t; segments := st_segments t;
     chapters := st_chapters t; utterances := None;
     audio_duration := None |}.

End Transcript.
Export Transcript.

(** ** The project document and its mutations ([convex/schema.ts],
       [convex/projects.ts]) *)

Module Convex.

Inductive Status := uploaded | processing | completed | failed.
Inductive Phase := pending | running | phase_completed | phase_failed.

#[export] Instance Status_eq_dec : EqDecision Status.
Proof. solve_decision. Defined.
#[export] Instance Phase_eq_dec : EqDecision Phase.
Proof. solve_decision. Defined.

Record JobStatus := {
  transcription : option Phase;
  contentGeneration : option Phase;
}.

Record ErrorDetails := {
  statusCode : option Q;
  stack : option string;
}.

Record ProjectError := {
  message : string;
  step : string;
  timestamp : Z;
  details : option ErrorDetails;
}.

Record KeyMoment := {
  km_time : string;
  km_timestamp : Q;
  km_text : string;
  km_description : string;
}.

Record YouTubeTimestamp := {
  yt_timestamp : string;
  yt_description : string;
}.

(** The fields of a [projects] document the workflow reads or writes.  The
    upload metadata (input URL, file name, size, format) is written once
    at creation and left out. *)
Record Project := {
  userId : string;
  status : Status;
  jobStatus : option JobStatus;
  error : option ProjectError;
  jobErrors : option (gmap JobName string);
  transcript : option StoredTranscript;
  p_keyMoments : option (list KeyMoment);
  p_summary : option Summary;
  p_socialPosts : option SocialPosts;
  p_titles : option Titles;
  p_hashtags : option Hashtags;
  p_youtubeTimestamps : option (list YouTubeTimestamp);
  updatedAt : Z;
  completedAt : option Z;
}.

(** The arguments of [saveGeneratedContent] besides the project id. *)
Record GeneratedContent := {
  gc_keyMoments : option (list KeyMoment);
  gc_summary : option Summary;
  gc_socialPosts : option SocialPosts;
  gc_titles : option Titles;
  gc_hashtags : option Hashtags;
  gc_youtubeTimestamps : option (list YouTubeTimestamp);
}.

(** [Boolean(project[jobName])]: an artifact is an object or an array, so
    it is truthy exactly when the field is set. *)
Definition hasData (p : Project) (job : JobName) : bool :=
  match job with
  | keyMoments => bool_decide (is_Some (p_keyMoments p))
  | summary => bool_decide (is_Some (p_summary p))
  | socialPosts => bool_decide (is_Some (p_socialPosts p))
  | titles => bool_decide (is_Some (p_titles p))
  | hashtags => bool_decide (is_Some (p_hashtags p))
  | youtubeTimestamps => bool_decide (is_Some (p_youtubeTimestamps p))
  end.

(** *** [ctx.db.patch]: the handlers below patch these groups of fields *)

Definition patch_status (s : Status) (now : Z) (completed_at : option Z)
    (p : Project) : Project :=
  {| userId := userId p; status := s; jobStatus := jobStatus p;
     error := error p; jobErrors := jobErrors p; transcript := transcript p;
     p_keyMoments := p_keyMoments p; p_summary := p_summary p;
     p_socialPosts := p_socialPosts p; p_titles := p_titles p;
     p_hashtags := p_hashtags p;
     p_youtubeTimestamps := p_youtubeTimestamps p;
     updatedAt := now;
     completedAt := from_option Some (completedAt p) completed_at |}.

Definition patch_transcript (t : StoredTranscript) (now : Z) (p : Project) : Project :=
  {| userId := userId p; status := status p; jobStatus := jobStatus p;
     error := error p; jobErrors := jobErrors p; transcript := Some t;
     p_keyMoments := p_keyMoments p; p_summary := p_summary p;
     p_socialPosts := p_socialPosts p; p_titles := p_titles p;
     p_hashtags := p_hashtags p;
     p_youtubeTimestamps := p_youtubeTimestamps p;
     updatedAt := now; completedAt := completedAt p |}.

Definition patch_jobStatus (js : JobStatus) (now : Z) (p : Project) : Project :=
  {| userId := userId p; status := status p; jobStatus := Some js;
     error := error p; jobErrors := jobErrors p; transcript := transcript p;
     p_keyMoments := p_keyMoments p; p_summary := p_summary p;
     p_socialPosts := p_socialPosts p; p_titles := p_titles p;
     p_hashtags := p_hashtags p;
     p_youtubeTimestamps := p_youtubeTimestamps p;
     updatedAt := now; completedAt := completedAt p |}.

(** Only the provided fields are written. *)
Definition patch_content (c : GeneratedContent) (now : Z) (p : Project) : Project :=
  {| userId := userId p; status := status p; jobStatus := jobStatus p;
     error := error p; jobErrors := jobErrors p; transcript := transcript p;
     p_keyMoments := from_option Some (p_keyMoments p) (gc_keyMoments c);
     p_summary := from_option Some (p_summary p) (gc_summary c);
     p_socialPosts := from_option Some (p_socialPosts p) (gc_socialPosts c);
     p_titles := from_option Some (p_titles p) (gc_titles c);
     p_hashtags := from_option Some (p_hashtags p) (gc_hashtags c);
     p_youtubeTimestamps :=
       from_option Some (p_youtubeTimestamps p) (gc_youtubeTimestamps c);
     updatedAt := now; completedAt := completedAt p |}.

Definition patch_error (e : ProjectError) (now : Z) (p : Project) : Project :=
  {| userId := userId p; status := failed; jobStatus := jobStatus p;
     error := Some e; jobErrors := jobErrors p; transcript := transcript p;
     p_keyMoments := p_keyMoments p; p_summary := p_summary p;
     p_socialPosts := p_socialPosts p; p_titles := p_titles p;
     p_hashtags := p_hashtags p;
     p_youtubeTimestamps := p_youtubeTimestamps p;
     updatedAt := now; completedAt := completedAt p |}.

Definition patch_jobErrors (errs : gmap JobName string) (now : Z) (p : Project) : Project :=
  {| userId := userId p; status := status p; jobStatus := jobStatus p;
     error := error p; jobErrors := Some errs; transcript := transcript p;
     p_keyMoments := p_keyMoments p; p_summary := p_summary p;
     p_socialPosts := p_socialPosts p; p_titles := p_titles p;
     p_hashtags := p_hashtags p;
     p_youtubeTimestamps := p_youtubeTimestamps p;
     updatedAt := now; completedAt := completedAt p |}.

End Convex.
Export Convex.

(** ** The effect monad *)

Module Eff.

(** The data of a ["podcast/retry-job"] event (the project id is fixed: the
    world holds the one document the run is about). *)
Record RetryEvent := {
  ev_job : JobName;
  ev_userId : string;
  ev_originalPlan : PlanName;
  ev_currentPlan : PlanName;
}.

Record World := {
  db : option Project;           (* the document under [projectId] *)
  clock : Z;                     (* what [Date.now()] returns *)
  tasksStarted : list JobName;   (* trace: generation tasks invoked *)
  completions : list string;     (* trace: [step.ai.wrap] calls made *)
  sent : list RetryEvent;        (* trace: [inngest.send] calls made *)
}.

Inductive Result (A : Type) :=
| Ok (value : A)
| Throw (e : Thrown).
Arguments Ok {A} value.
Arguments Throw {A} e.

(** An [async] computation: it ends by returning or by throwing, and
    leaves a world behind in both cases. *)
Definition M (A : Type) : Type := World → Result A * World.

Definition ret {A} (a : A) : M A := fun w => (Ok a, w).

Definition bind {A B} (m : M A) (k : A → M B) : M B :=
  fun w => match m w with
           | (Ok a, w') => k a w'
           | (Throw e, w') => (Throw e, w')
           end.

Definition throw {A} (e : Thrown) : M A := fun w => (Throw e, w).

(** [try { m } catch (e) { h e }] *)
Definition try_catch {A} (m : M A) (h : Thrown → M A) : M A :=
  fun w => match m w with
           | (Ok a, w') => (Ok a, w')
           | (Throw e, w') => h e w'
           end.

(** One promise of [Promise.allSettled]. *)
Definition settle {A} (m : M A) : M (Settled A) :=
  fun w => match m w with
           | (Ok a, w') => (Ok (Fulfilled a), w')
           | (Throw e, w') => (Ok (Rejected e), w')
           end.

Definition Date_now : M Z := fun w => (Ok (clock w), w).

Definition with_db (d : option Project) (w : World) : World :=
  {| db := d; clock := clock w; tasksStarted := tasksStarted w;
     completions := completions w; sent := sent w |}.

(** [ctx.db.get(projectId)] *)
Definition db_get : M (option Project) := fun w => (Ok (db w), w).

(** [ctx.db.patch(projectId, ...)]: fails on a document that does not
    exist. *)
Definition db_patch (f : Project → Project) : M unit :=
  fun w => match db w with
           | Some p => (Ok tt, with_db (Some (f p)) w)
           | None => (Throw (new_Error "Update on nonexistent document"), w)
           end.

Definition log_task (j : JobName) : M unit :=
  fun w => (Ok tt,
            {| db := db w; clock := clock w;
               tasksStarted := tasksStarted w ++ [j];
               completions := completions w; sent := sent w |}).

Definition log_completion (name : string) : M unit :=
  fun w => (Ok tt,
            {| db := db w; clock := clock w; tasksStarted := tasksStarted w;
               completions := completions w ++ [name]; sent := sent w |}).

(** [inngest.send({ name: "podcast/retry-job", data })] *)
Definition inngest_send (ev : RetryEvent) : M unit :=
  fun w => (Ok tt,
            {| db := db w; clock := clock w; tasksStarted := tasksStarted w;
               completions := completions w; sent := sent w ++ [ev] |}).

(** [step.run(name, f)] runs [f] and gives back what it returns or throws;
    the engine's memoisation of finished steps is not modelled. *)
Definition step_run {A} (name : string) (f : M A) : M A := f.

(** [await Promise.all(l.map(f))] for an [f] that starts its effect when
    called: every effect is started, in order, and the first rejection
    (if any) is the one thrown. *)
Fixpoint Promise_all_map {A} (f : A → M unit) (l : list A) : M unit :=
  match l with
  | [] => ret tt
  | x :: l' =>
      fun w => match f x w with
               | (Ok _, w') => Promise_all_map f l' w'
               | (Throw e, w') => (Throw e, snd (Promise_all_map f l' w'))
               end
  end.

End Eff.
Export Eff.

Declare Scope eff_scope.
Delimit Scope eff_scope with eff.
Notation "x <- m ;; k" := (bind m (fun x => k))
  (at level 100, m at next level, right associativity) : eff_scope.
Notation "m ;;; k" := (bind m (fun _ => k))
  (at level 100, right associativity) : eff_scope.
Local Open Scope eff_scope.

(** ** The mutations and queries of [convex/projects.ts] *)

Module Projects.

(** [updateProjectStatus] *)
Definition updateProjectStatus (s : Status) : M unit :=
  now <- Date_now ;;
  done_at <- (if bool_decide (s = completed)
              then (t <- Date_now ;; ret (Some t))
              else ret None) ;;
  db_patch (patch_status s now done_at).

(** [saveTranscript] *)
Definition saveTranscript (t : StoredTranscript) : M unit :=
  now <- Date_now ;;
  db_patch (patch_transcript t now).

(** [{ ...project.jobStatus, ...(t && { transcription: t }),
       ...(c && { contentGeneration: c }) }] *)
Definition merge_jobStatus (old : option JobStatus) (t c : option Phase) : JobStatus :=
  {| transcription := from_option Some (old ≫= transcription) t;
     contentGeneration := from_option Some (old ≫= contentGeneration) c |}.

(** [updateJobStatus] *)
Definition updateJobStatus (t c : option Phase) : M unit :=
  project <- db_get ;;
  match project with
  | None => throw (new_Error "Project not found")
  | Some p =>
      now <- Date_now ;;
      db_patch (patch_jobStatus (merge_jobStatus (jobStatus p) t c) now)
  end.

(** [saveGeneratedContent] *)
Definition saveGeneratedContent (c : GeneratedContent) : M unit :=
  now <- Date_now ;;
  db_patch (patch_content c now).

(** What a caller passes as [details] to [recordError]. *)
Inductive DetailsArg :=
| DetailsObject (d : ErrorDetails)
| DetailsString (s : string).

(** The argument validator of [recordError]:
    [details: v.optional(v.object({ statusCode, stack }))].  Arguments are
    checked before the handler runs; a value that is not such an object
    is refused and the call rejects. *)
Definition validate_details (d : option DetailsArg) : Result (option ErrorDetails) :=
  match d with
  | None => Ok None
  | Some (DetailsObject o) => Ok (Some o)
  | Some (DetailsString _) =>
      Throw (new_Error "ArgumentValidationError: Value does not match validator. Path: .details")
  end.

(** [recordError] *)
Definition recordError (msg stepName : string) (d : option DetailsArg) : M unit :=
  match validate_details d with
  | Throw e => throw e
  | Ok det =>
      at_ <- Date_now ;;
      now <- Date_now ;;
      db_patch (patch_error {| message := msg; step := stepName;
                               timestamp := at_; details := det |} now)
  end.

(** [saveJobErrors]: the whole [jobErrors] field is replaced. *)
Definition saveJobErrors (errs : gmap JobName string) : M unit :=
  now <- Date_now ;;
  db_patch (patch_jobErrors errs now).

(** [getProject] *)
Definition getProject : M (option Project) := db_get.

End Projects.
Export Projects.

(** ** The external providers of a run *)

Module Providers.

(** How an awaited external call ends. *)
Inductive Call (A : Type) :=
| Rejects (e : Thrown)
| Resolves (a : A).
Arguments Rejects {A} e.
Arguments Resolves {A} a.

(** What [assemblyai.transcripts.transcribe] resolves to, as the stage
    reads it. *)
Record AssemblyResponse := {
  ar_status : string;
  ar_error : option string;
  ar_text : option string;
  ar_segments : option (list AssemblyAISegment);
  ar_chapters : option (list AssemblyAIChapter);
  ar_utterances : option (list AssemblyAIUtterance);
  ar_audio_duration : option N;
}.

(** [response.choices[0]?.message?.content] seen through [JSON.parse]:
    no content ([null], [undefined] or the empty string, all falsy), a
    string [JSON.parse] rejects, or a string that parses to a value. *)
Inductive Content (J : Type) :=
| NoContent
| BadJson
| Json (parsed : J).
Arguments NoContent {J}.
Arguments BadJson {J}.
Arguments Json {J} parsed.

(** An element of [titles] in the answer to the chapter-title request. *)
Record AiTitle := {
  ai_index : Q;
  ai_title : string;
}.

(** The chapter-title request sets a strict JSON-schema response format:
    an object whose [titles] is an array of [{ index, title }]. *)
Record TitlesAnswer := {
  ans_titles : option (list AiTitle);
}.

Record Env := {
  (** the transcription provider's answer for the uploaded audio *)
  assemblyai_transcribe : Call AssemblyResponse;
  (** the completion provider's answer to the call [step.ai.wrap] names *)
  openai_create : string → Call (Content json);
  (** its answer to ["generate-youtube-titles-with-gpt"] *)
  openai_create_titles : Call (Content TitlesAnswer);
  (** [generateKeyMoments] of [key-moments.ts], a file that is not among
      the sources embedded here: taken as the workflow calls it, a
      function of the transcript that resolves or rejects *)
  generateKeyMoments_impl : TranscriptWithExtras → Result (list KeyMoment);
}.

Definition await {A} (c : Call A) : M A :=
  match c with
  | Rejects e => throw e
  | Resolves a => ret a
  end.

(** [step.ai.wrap(name, createCompletion, request)] *)
Definition step_ai_wrap (env : Env) (name : string) : M (Content json) :=
  log_completion name ;;;
  await (openai_create env name).

Definition step_ai_wrap_titles (env : Env) : M (Content TitlesAnswer) :=
  log_completion "generate-youtube-titles-with-gpt" ;;;
  await (openai_create_titles env).

End Providers.
Export Providers.

(** ** The transcription stage ([inngest/steps/transcription/assemblyai.ts]) *)

Module Transcription.

(** [a || dflt] on a possibly missing string. *)
Definition or_string (a : option string) (dflt : string) : string :=
  match a with
  | Some s => if bool_decide (s = "") then dflt else s
  | None => dflt
  end.

Definition formatWord (w : AssemblyAIWord) : FormattedWord :=
  {| fw_word := w_text w; fw_start := w_start w; fw_end := w_end w |}.

Definition formatSegment (idx : nat) (s : AssemblyAISegment) : FormattedSegment :=
  {| fs_id := idx; fs_start := seg_start s; fs_end := seg_end s;
     fs_text := seg_text s;
     fs_words := formatWord <$> default [] (seg_words s) |}.

(** Milliseconds to seconds. *)
Definition toSpeaker (u : AssemblyAIUtterance) : Speaker :=
  {| spk_speaker := ut_speaker u;
     spk_start := (inject_Z (Z.of_N (ut_start u)) / 1000)%Q;
     spk_end := (inject_Z (Z.of_N (ut_end u)) / 1000)%Q;
     spk_text := ut_text u;
     spk_confidence := ut_confidence u |}.

Definition toChapter (c : AssemblyAIChapter) : AssemblyAIChapter :=
  {| ch_start := ch_start c; ch_end := ch_end c; ch_gist := ch_gist c;
     ch_headline := ch_headline c; ch_summary := ch_summary c |}.

Definition transcribeWithAssemblyAI (env : Env) : M TranscriptWithExtras :=
  try_catch
    (response <- await (assemblyai_transcribe env) ;;
     if bool_decide (ar_status response = "error")
     then throw (new_Error (or_string (ar_error response)
                                      "AssemblyAI transcription failed"))
     else
       let assemblySegments := default [] (ar_segments response) in
       let assemblyChapters := default [] (ar_chapters response) in
       let assemblyUtterances := default [] (ar_utterances response) in
       let formattedSegments := imap formatSegment assemblySegments in
       let speakers := toSpeaker <$> assemblyUtterances in
       let chapters_ := toChapter <$> assemblyChapters in
       saveTranscript {| st_text := or_string (ar_text response) "";
                         st_segments := formattedSegments;
                         st_speakers := Some speakers;
                         st_chapters := Some chapters_ |} ;;;
       ret {| text := or_string (ar_text response) "";
              segments := formattedSegments;
              chapters := Some assemblyChapters;
              utterances := Some assemblyUtterances;
              audio_duration := ar_audio_duration response |})
    (fun error =>
       recordError (message_or "Transcription failed" error) "transcription" None ;;;
       throw error).

End Transcription.
Export Transcription.

(** ** The generation tasks ([inngest/steps/ai-generation/*.ts]) *)

Module Generation.

(** The prompt sent to the provider matters here only through what
    building it can do: a template that reads [transcript.chapters.length]
    throws a [TypeError] on a transcript without a [chapters] array; one
    that reads [transcript.chapters?.…] never throws. *)
Definition chapters_length (t : TranscriptWithExtras) : M nat :=
  match chapters t with
  | Some l => ret (length l)
  | None => throw (ErrorObj "Cannot read properties of undefined (reading 'length')"
                            "TypeError: Cannot read properties of undefined (reading 'length')")
  end.

Definition buildSummaryPrompt (t : TranscriptWithExtras) : M unit :=
  chapters_length t ;;; ret tt.

Definition buildTitlesPrompt (t : TranscriptWithExtras) : M unit :=
  chapters_length t ;;; ret tt.

Definition buildSocialPrompt (t : TranscriptWithExtras) : M unit := ret tt.

Definition buildHashtagsPrompt (t : TranscriptWithExtras) : M unit := ret tt.

(** [content ? schema.parse(JSON.parse(content)) : fallback] *)
Definition parse_or {A} (schema_parse : json → option A) (fallback : A)
    (content : Content json) : M A :=
  match content with
  | NoContent => ret fallback
  | BadJson => throw (ErrorObj "Unexpected token in JSON"
                               "SyntaxError: Unexpected token in JSON")
  | Json j =>
      match schema_parse j with
      | Some a => ret a
      | None => throw (ErrorObj "Invalid input" "ZodError: Invalid input")
      end
  end.

(** *** [summary.ts] *)

Definition summary_fallback (t : TranscriptWithExtras) : Summary :=
  {| full := substring0 500 (text t);
     bullets := ["Full transcript available"];
     insights := ["See transcript"];
     tldr := substring0 200 (text t) |}.

Definition summary_on_error : Summary :=
  {| full := "⚠️ Error generating summary with GPT-4. Please check logs or try again.";
     bullets := ["Summary generation failed - see full transcript"];
     insights := ["Error occurred during AI generation"];
     tldr := "Summary generation failed" |}.

Definition generateSummary (env : Env) (t : TranscriptWithExtras) : M Summary :=
  log_task summary ;;;
  try_catch
    (buildSummaryPrompt t ;;;
     content <- step_ai_wrap env "generate-summary-with-gpt" ;;
     parse_or summarySchema_parse (summary_fallback t) content)
    (fun _ => ret summary_on_error).

(** *** [social-posts.ts] *)

Definition socialPosts_fallback : SocialPosts :=
  {| sp_twitter := "New podcast episode!";
     sp_linkedin := "Check out our latest podcast.";
     sp_instagram := "New episode out now! üéôÔ∏è";
     sp_tiktok := "New podcast!";
     sp_youtube := "Watch our latest episode.";
     sp_facebook := "New podcast available!" |}.

Definition social_error_text : string :=
  "‚ö†Ô∏è Error generating social post. Check logs for details.".

Definition socialPosts_on_error : SocialPosts :=
  {| sp_twitter := social_error_text; sp_linkedin := social_error_text;
     sp_instagram := social_error_text; sp_tiktok := social_error_text;
     sp_youtube := social_error_text; sp_facebook := social_error_text |}.

(** The safety check on the parsed posts. *)
Definition enforce_twitter_limit (p : SocialPosts) : SocialPosts :=
  if (280 <? js_length (sp_twitter p))%nat
  then {| sp_twitter := substring0 277 (sp_twitter p) ++ "...";
          sp_linkedin := sp_linkedin p; sp_instagram := sp_instagram p;
          sp_tiktok := sp_tiktok p; sp_youtube := sp_youtube p;
          sp_facebook := sp_facebook p |}
  else p.

Definition generateSocialPosts (env : Env) (t : TranscriptWithExtras) : M SocialPosts :=
  log_task socialPosts ;;;
  try_catch
    (buildSocialPrompt t ;;;
     content <- step_ai_wrap env "generate-social-posts-with-gpt" ;;
     posts <- parse_or socialPostsSchema_parse socialPosts_fallback content ;;
     ret (enforce_twitter_limit posts))
    (fun _ => ret socialPosts_on_error).

(** *** [titles.ts] *)

Definition titles_fallback : Titles :=
  {| youtubeShort := ["Podcast Episode"];
     youtubeLong := ["Podcast Episode - Full Discussion"];
     podcastTitles := ["New Episode"];
     seoKeywords := ["podcast"] |}.

Definition titles_on_error : Titles :=
  {| youtubeShort := ["⚠️ Title generation failed"];
     youtubeLong := ["⚠️ Title generation failed - check logs"];
     podcastTitles := ["⚠️ Title generation failed"];
     seoKeywords := ["error"] |}.

Definition generateTitles (env : Env) (t : TranscriptWithExtras) : M Titles :=
  log_task titles ;;;
  try_catch
    (buildTitlesPrompt t ;;;
     content <- step_ai_wrap env "generate-titles-with-gpt" ;;
     parse_or titlesSchema_parse titles_fallback content)
    (fun _ => ret titles_on_error).

(** *** [hashtags.ts] *)

Definition hashtags_fallback : Hashtags :=
  {| ht_youtube := ["#Podcast"];
     ht_instagram := ["#Podcast"; "#Content"];
     ht_tiktok := ["#Podcast"];
     ht_linkedin := ["#Podcast"];
     ht_twitter := ["#Podcast"] |}.

Definition hashtags_on_error : Hashtags :=
  {| ht_youtube := ["⚠️ Hashtag generation failed"];
     ht_instagram := ["⚠️ Hashtag generation failed"];
     ht_tiktok := ["⚠️ Hashtag generation failed"];
     ht_linkedin := ["⚠️ Hashtag generation failed"];
     ht_twitter := ["⚠️ Hashtag generation failed"] |}.

Definition generateHashtags (env : Env) (t : TranscriptWithExtras) : M Hashtags :=
  log_task hashtags ;;;
  try_catch
    (buildHashtagsPrompt t ;;;
     content <- step_ai_wrap env "generate-hashtags-with-gpt" ;;
     parse_or hashtagsSchema_parse hashtags_fallback content)
    (fun _ => ret hashtags_on_error).

(** *** [key-moments.ts] *)

Definition generateKeyMoments (env : Env) (t : TranscriptWithExtras) : M (list KeyMoment) :=
  log_task keyMoments ;;;
  match generateKeyMoments_impl env t with
  | Ok r => ret r
  | Throw e => throw e
  end.

(** *** [youtube-timestamps.ts] *)

Record ChapterData := {
  cd_index : nat;
  cd_timestamp : N;          (* seconds *)
  cd_headline : string;
  cd_summary : string;
  cd_gist : string;
}.

Definition toChapterData (idx : nat) (chapter : AssemblyAIChapter) : ChapterData :=
  {| cd_index := idx;
     cd_timestamp := (ch_start chapter / 1000)%N;
     cd_headline := ch_headline chapter;
     cd_summary := ch_summary chapter;
     cd_gist := ch_gist chapter |}.

(** [t.index === chapter.index] *)
Definition index_matches (chapter : ChapterData) (t : AiTitle) : bool :=
  Qeq_bool (ai_index t) (inject_Z (Z.of_nat (cd_index chapter))).

(** [JSON.parse(content)] then [parsed.titles || []], inside the
    [try]; a content that does not parse leaves [aiTitles] empty, and no
    content parses the default ['{"titles":[]}']. *)
Definition aiTitles_of (content : Content TitlesAnswer) : list AiTitle :=
  match content with
  | NoContent => []
  | BadJson => []
  | Json parsed => default [] (ans_titles parsed)
  end.

(** [aiTitle?.title || chapter.headline] *)
Definition describe (aiTitles : list AiTitle) (chapter : ChapterData) : string :=
  match List.find (index_matches chapter) aiTitles with
  | Some aiTitle =>
      if bool_decide (ai_title aiTitle = "") then cd_headline chapter
      else ai_title aiTitle
  | None => cd_headline chapter
  end.

(** An element of [aiTimestamps]. *)
Record AiTimestamp := {
  at_timestamp : N;
  at_description : string;
}.

Definition toAiTimestamp (aiTitles : list AiTitle) (chapter : ChapterData)
    : AiTimestamp :=
  {| at_timestamp := cd_timestamp chapter;
     at_description := describe aiTitles chapter |}.

Definition toYouTubeTimestamp (item : AiTimestamp) : YouTubeTimestamp :=
  {| yt_timestamp := formatTimestamp (at_timestamp item) false false;
     yt_description := at_description item |}.

Definition generateYouTubeTimestamps (env : Env) (t : TranscriptWithExtras)
    : M (list YouTubeTimestamp) :=
  log_task youtubeTimestamps ;;;
  let chapters_ := default [] (chapters t) in
  if bool_decide (length chapters_ = 0)
  then throw (new_Error
    "No chapters available from AssemblyAI. Cannot generate YouTube timestamps.")
  else
    let chaptersToUse := take 100 chapters_ in
    let chapterData := imap toChapterData chaptersToUse in
    content <- step_ai_wrap_titles env ;;
    let aiTitles := aiTitles_of content in
    let aiTimestamps := toAiTimestamp aiTitles <$> chapterData in
    ret (toYouTubeTimestamp <$> aiTimestamps).

End Generation.
Export Generation.

(** ** The workflow ([inngest/functions/podcast-processor.ts]) *)

Module Processor.

(** The value a generation promise resolves to. *)
Inductive Artifact :=
| ASummary (v : Summary)
| ASocialPosts (v : SocialPosts)
| ATitles (v : Titles)
| AHashtags (v : Hashtags)
| AKeyMoments (v : list KeyMoment)
| AYouTubeTimestamps (v : list YouTubeTimestamp).

Definition fmapM {A B} (f : A → B) (m : M A) : M B :=
  a <- m ;; ret (f a).

(** The two arrays the workflow fills side by side, [jobNames] and
    [jobs]. *)
Definition jobNames_of (plan : PlanName) : list JobName :=
  [summary]
  ++ (if bool_decide (plan = pro) || bool_decide (plan = ultra)
      then [socialPosts; titles; hashtags] else [])
  ++ (if bool_decide (plan = ultra)
      then [keyMoments; youtubeTimestamps] else []).

Definition jobs_of (env : Env) (t : TranscriptWithExtras) (plan : PlanName)
    : list (M Artifact) :=
  [fmapM ASummary (generateSummary env t)]
  ++ (if bool_decide (plan = pro) || bool_decide (plan = ultra)
      then [fmapM ASocialPosts (generateSocialPosts env t);
            fmapM ATitles (generateTitles env t);
            fmapM AHashtags (generateHashtags env t)] else [])
  ++ (if bool_decide (plan = ultra)
      then [fmapM AKeyMoments (generateKeyMoments env t);
            fmapM AYouTubeTimestamps (generateYouTubeTimestamps env t)]
      else []).

(** [await Promise.allSettled(jobs)]: every job runs to its end, whatever
    the others do; the tasks share no state but the traces. *)
Fixpoint Promise_allSettled {A} (jobs : list (M A)) : M (list (Settled A)) :=
  match jobs with
  | [] => ret []
  | job :: rest =>
      r <- settle job ;;
      rs <- Promise_allSettled rest ;;
      ret (r :: rs)
  end.

(** [results.forEach((result, idx) => …)] updating an accumulator. *)
Fixpoint forEach_from {A Acc} (f : A → nat → Acc → Acc) (idx : nat) (l : list A)
    (acc : Acc) : Acc :=
  match l with
  | [] => acc
  | x :: l' => forEach_from f (S idx) l' (f x idx acc)
  end.

Definition forEach {A Acc} (f : A → nat → Acc → Acc) (l : list A) (acc : Acc) : Acc :=
  forEach_from f 0 l acc.

(** The first loop: fulfilled results, keyed by [jobNames[idx]].  The two
    arrays have the same length, so [jobNames[idx]] is always defined. *)
Definition collect_content (jobNames : list JobName)
    (results : list (Settled Artifact)) : gmap JobName Artifact :=
  forEach (fun result idx (generatedContent : gmap JobName Artifact) =>
             match jobNames !! idx, result with
             | Some jobName, Fulfilled value => <[jobName := value]> generatedContent
             | _, _ => generatedContent
             end) results ∅.

(** The second loop: messages of the rejected results. *)
Definition collect_errors (jobNames : list JobName)
    (results : list (Settled Artifact)) : gmap JobName string :=
  forEach (fun result idx (jobErrors : gmap JobName string) =>
             match jobNames !! idx, result with
             | Some jobName, Rejected reason =>
                 <[jobName := message_or_String reason]> jobErrors
             | _, _ => jobErrors
             end) results ∅.

Definition as_summary (a : option Artifact) : option Summary :=
  match a with Some (ASummary v) => Some v | _ => None end.
Definition as_socialPosts (a : option Artifact) : option SocialPosts :=
  match a with Some (ASocialPosts v) => Some v | _ => None end.
Definition as_titles (a : option Artifact) : option Titles :=
  match a with Some (ATitles v) => Some v | _ => None end.
Definition as_hashtags (a : option Artifact) : option Hashtags :=
  match a with Some (AHashtags v) => Some v | _ => None end.
Definition as_keyMoments (a : option Artifact) : option (list KeyMoment) :=
  match a with Some (AKeyMoments v) => Some v | _ => None end.
Definition as_youtubeTimestamps (a : option Artifact) : option (list YouTubeTimestamp) :=
  match a with Some (AYouTubeTimestamps v) => Some v | _ => None end.

(** [inngest/steps/persistence/save-to-convex.ts] *)
Definition saveResultsToConvex (results : gmap JobName Artifact) : M unit :=
  saveGeneratedContent
    {| gc_keyMoments := as_keyMoments (results !! keyMoments);
       gc_summary := as_summary (results !! summary);
       gc_socialPosts := as_socialPosts (results !! socialPosts);
       gc_titles := as_titles (results !! titles);
       gc_hashtags := as_hashtags (results !! hashtags);
       gc_youtubeTimestamps := as_youtubeTimestamps (results !! youtubeTimestamps) |} ;;;
  updateProjectStatus completed.

(** The handler of ["podcast/uploaded"].  [userPlan] is the event's
    [plan] field. *)
Definition podcastProcessor (env : Env) (userPlan : option PlanName) : M PlanName :=
  let plan := default free userPlan in
  try_catch
    (step_run "update-status-processing" (updateProjectStatus processing) ;;;
     step_run "update-job-status-transcription-running"
       (updateJobStatus (Some running) None) ;;;
     transcript_ <- step_run "transcribe-audio" (transcribeWithAssemblyAI env) ;;
     step_run "update-job-status-transcription-completed"
       (updateJobStatus (Some phase_completed) None) ;;;
     step_run "update-job-status-generation-running"
       (updateJobStatus None (Some running)) ;;;
     let jobs := jobs_of env transcript_ plan in
     let jobNames := jobNames_of plan in
     results <- Promise_allSettled jobs ;;
     let generatedContent := collect_content jobNames results in
     let jobErrors_ := collect_errors jobNames results in
     (if (0 <? size jobErrors_)%nat
      then step_run "save-job-errors" (saveJobErrors jobErrors_)
      else ret tt) ;;;
     step_run "update-job-status-generation-completed"
       (updateJobStatus None (Some phase_completed)) ;;;
     step_run "save-results-to-convex" (saveResultsToConvex generatedContent) ;;;
     ret plan)
    (fun error =>
       try_catch
         (recordError (message_or "Unknown error occurred" error) "workflow"
                      (Some (DetailsString (stack_or_String error))))
         (fun cleanupError => ret tt) ;;;
       throw error).

End Processor.
Export Processor.

(** ** The retry function (second part of [podcast-processor.ts]) *)

Module Retry.

(** [Object.fromEntries(Object.entries(FEATURE_TO_JOB_MAP).map(([k, v]) => [v, k]))]:
    a later entry would overwrite an earlier one with the same job. *)
Definition jobToFeature (job : JobName) : option FeatureName :=
  fst <$> List.find (fun e => bool_decide (snd e = job)) (rev FEATURE_TO_JOB_entries).

Definition jobsRequiringChapters : list JobName := [keyMoments; youtubeTimestamps].

Definition not_available_message (job : JobName) : string :=
  "This feature (" ++ JobName_str job
    ++ ") is not available on your current plan. Please upgrade to access it.".

Definition no_chapters_message (job : JobName) : string :=
  "Cannot generate " ++ JobName_str job
    ++ ": transcript has no chapters. This podcast may be too short or lack distinct topics for chapter detection.".

Definition empty_content : GeneratedContent :=
  {| gc_keyMoments := None; gc_summary := None; gc_socialPosts := None;
     gc_titles := None; gc_hashtags := None; gc_youtubeTimestamps := None |}.

(** The [switch (job)]: regenerate one artifact and save it alone. *)
Definition regenerate (env : Env) (t : TranscriptWithExtras) (job : JobName) : M unit :=
  match job with
  | keyMoments =>
      result <- generateKeyMoments env t ;;
      step_run "save-key-moments"
        (saveGeneratedContent
           {| gc_keyMoments := Some result; gc_summary := None;
              gc_socialPosts := None; gc_titles := None; gc_hashtags := None;
              gc_youtubeTimestamps := None |})
  | summary =>
      result <- generateSummary env t ;;
      step_run "save-summary"
        (saveGeneratedContent
           {| gc_keyMoments := None; gc_summary := Some result;
              gc_socialPosts := None; gc_titles := None; gc_hashtags := None;
              gc_youtubeTimestamps := None |})
  | socialPosts =>
      result <- generateSocialPosts env t ;;
      step_run "save-social-posts"
        (saveGeneratedContent
           {| gc_keyMoments := None; gc_summary := None;
              gc_socialPosts := Some result; gc_titles := None;
              gc_hashtags := None; gc_youtubeTimestamps := None |})
  | titles =>
      result <- generateTitles env t ;;
      step_run "save-titles"
        (saveGeneratedContent
           {| gc_keyMoments := None; gc_summary := None;
              gc_socialPosts := None; gc_titles := Some result;
              gc_hashtags := None; gc_youtubeTimestamps := None |})
  | hashtags =>
      result <- generateHashtags env t ;;
      step_run "save-hashtags"
        (saveGeneratedContent
           {| gc_keyMoments := None; gc_summary := None;
              gc_socialPosts := None; gc_titles := None;
              gc_hashtags := Some result; gc_youtubeTimestamps := None |})
  | youtubeTimestamps =>
      result <- generateYouTubeTimestamps env t ;;
      step_run "save-youtube-timestamps"
        (saveGeneratedContent
           {| gc_keyMoments := None; gc_summary := None;
              gc_socialPosts := None; gc_titles := None; gc_hashtags := None;
              gc_youtubeTimestamps := Some result |})
  end.

(** The handler of ["podcast/retry-job"]. *)
Definition retryJobFunction (env : Env) (job : JobName)
    (originalPlan currentPlan : option PlanName) : M JobName :=
  let currentUserPlan := default free currentPlan in
  let originalUserPlan := default free originalPlan in
  let featureKey := jobToFeature job in
  if match featureKey with
     | Some feature => negb (planHasFeature currentUserPlan feature)
     | None => false
     end
  then throw (new_Error (not_available_message job))
  else
    project <- getProject ;;
    match project, project ≫= transcript with
    | Some project_, Some stored =>
        let transcript_ := as_TranscriptWithExtras stored in
        if bool_decide (String.length (text transcript_) = 0)
        then throw (new_Error
          "Cannot generate content: transcript text is empty. Please re-upload the file.")
        else if bool_decide (job ∈ jobsRequiringChapters)
                && bool_decide (length (default [] (chapters transcript_)) = 0)
        then throw (new_Error (no_chapters_message job))
        else
          try_catch
            (regenerate env transcript_ job ;;;
             step_run "clear-job-error"
               (let currentErrors := default ∅ (jobErrors project_) in
                let updatedErrors := delete job currentErrors in
                saveJobErrors updatedErrors) ;;;
             ret job)
            (fun error =>
               let errorMessage := message_or "Unknown error" error in
               saveJobErrors {[ job := errorMessage ]} ;;;
               throw error)
    | _, _ => throw (new_Error "Project or transcript not found")
    end.

End Retry.
Export Retry.

(** ** The bulk retry action ([app/actions/generate-missing-features.ts]) *)

Module Actions.

(** What [auth()] gives: the user id and Clerk's [has] on plans. *)
Record Auth := {
  auth_userId : option string;
  auth_has : option (PlanName → bool);
}.

(** [has?.({ plan: "ultra" })] first, then [has?.({ plan: "pro" })]. *)
Definition currentPlan_of (a : Auth) : PlanName :=
  match auth_has a with
  | Some has => if has ultra then ultra else if has pro then pro else free
  | None => free
  end.

(** The plan inferred from the artifacts the project already has. *)
Definition inferOriginalPlan (p : Project) : PlanName :=
  if hasData p keyMoments || hasData p youtubeTimestamps then ultra
  else if hasData p socialPosts || hasData p titles || hasData p hashtags then pro
  else free.

(** The [for (const feature of availableFeatures)] loop. *)
Fixpoint missing_loop (p : Project) (features : list FeatureName)
    (missingJobs : list JobName) : list JobName :=
  match features with
  | [] => missingJobs
  | feature :: rest =>
      match FEATURE_TO_JOB_MAP feature with
      | None => missing_loop p rest missingJobs
      | Some jobName =>
          if hasData p jobName
          then missing_loop p rest missingJobs
          else missing_loop p rest (missingJobs ++ [jobName])
      end
  end.

Definition generateMissingFeatures (a : Auth) : M (list JobName) :=
  match auth_userId a with
  | None => throw (new_Error "Unauthorized")
  | Some userId_ =>
      if bool_decide (userId_ = "") then throw (new_Error "Unauthorized")
      else
        let currentPlan := currentPlan_of a in
        project <- getProject ;;
        match project with
        | None => throw (new_Error "Project not found")
        | Some p =>
            if negb (bool_decide (userId p = userId_))
            then throw (new_Error "Unauthorized - not your project")
            else
              let originalPlan := inferOriginalPlan p in
              let availableFeatures := PLAN_FEATURES currentPlan in
              let missingJobs := missing_loop p availableFeatures [] in
              if bool_decide (length missingJobs = 0)
              then throw (new_Error
                "No missing features to generate. All features for your plan are already available.")
              else
                Promise_all_map
                  (fun job => inngest_send
                     {| ev_job := job; ev_userId := userId_;
                        ev_originalPlan := originalPlan;
                        ev_currentPlan := currentPlan |})
                  missingJobs ;;;
                ret missingJobs
        end
  end.

End Actions.
Export Actions.


(** ** Notions used in the statements *)

Module Notions.

(** A computation that leaves the document, the clock and the events
    sent alone: it may only add to the two traces. *)
Definition quiet {A} (m : M A) : Prop :=
  ∀ w, db (m w).2 = db w ∧ clock (m w).2 = clock w ∧ sent (m w).2 = sent w.

(** The transcript the transcription stage returns for an answer of the
    provider that is not an error. *)
Definition transcript_of (r : AssemblyResponse) : TranscriptWithExtras :=
  {| text := or_string (ar_text r) "";
     segments := imap formatSegment (default [] (ar_segments r));
     chapters := Some (default [] (ar_chapters r));
     utterances := Some (default [] (ar_utterances r));
     audio_duration := ar_audio_duration r |}.

(** The bodies of the two loops over the settled results. *)
Definition keep_fulfilled {V} (n : JobName) (r : Settled V) (acc : gmap JobName V) :=
  match r with Fulfilled v => <[n := v]> acc | Rejected _ => acc end.

Definition keep_rejected {V} (n : JobName) (r : Settled V) (acc : gmap JobName string) :=
  match r with Rejected e => <[n := message_or_String e]> acc | Fulfilled _ => acc end.

(** The message recorded for a job in the stored document, if any. *)
Definition jobError_of (w : World) (j : JobName) : option string :=
  match db w with
  | Some p => match jobErrors p with Some errs => errs !! j | None => None end
  | None => None
  end.

(** The status of the stored document. *)
Definition status_of (w : World) : option Status := status <$> db w.

(** A job whose artifact the project does not have. *)
Definition lacks (p : Project) (j : JobName) : Prop := hasData p j = false.

#[export] Instance lacks_dec p j : Decision (lacks p j).
Proof. unfold lacks. apply _. Defined.


(** The completion calls of the four tasks a pro plan launches. *)
Definition completion_calls_pro : list string :=
  ["generate-summary-with-gpt"; "generate-social-posts-with-gpt";
   "generate-titles-with-gpt"; "generate-hashtags-with-gpt"]%string.

(** What each of them resolves to when its call fails. *)
Definition four_placeholders : list (Settled Artifact) :=
  [Fulfilled (ASummary summary_on_error); Fulfilled (ASocialPosts socialPosts_on_error);
   Fulfilled (ATitles titles_on_error); Fulfilled (AHashtags hashtags_on_error)].

End Notions.
Export Notions.

(** ** Sample runs *)


Module Samples.

Definition chapter_intro : AssemblyAIChapter :=
  {| ch_start := 0; ch_end := 65000; ch_gist := "Intro";
     ch_headline := "Welcome to the show"; ch_summary := "The hosts introduce the topic." |}.

Definition chapter_deep : AssemblyAIChapter :=
  {| ch_start := 65000; ch_end := 3665000; ch_gist := "Deep dive";
     ch_headline := "How the pipeline works"; ch_summary := "A walk through the pipeline." |}.

(** A transcription answer with two chapters. *)
Definition response_ok : AssemblyResponse :=
  {| ar_status := "completed"; ar_error := None; ar_text := Some "hello world";
     ar_segments := None; ar_chapters := Some [chapter_intro; chapter_deep];
     ar_utterances := None; ar_audio_duration := Some 3665000%N |}.

Definition response_error : AssemblyResponse :=
  {| ar_status := "error"; ar_error := Some "Audio file could not be decoded";
     ar_text := None; ar_segments := None; ar_chapters := None;
     ar_utterances := None; ar_audio_duration := None |}.

(** A freshly created project ([createProject]). *)
Definition fresh_project : Project :=
  {| userId := "user_1"; status := uploaded;
     jobStatus := Some {| transcription := Some pending;
                          contentGeneration := Some pending |};
     error := None; jobErrors := None; transcript := None;
     p_keyMoments := None; p_summary := None; p_socialPosts := None;
     p_titles := None; p_hashtags := None; p_youtubeTimestamps := None;
     updatedAt := 1000; completedAt := None |}.

Definition world_of (p : Project) : World :=
  {| db := Some p; clock := 2000; tasksStarted := []; completions := []; sent := [] |}.

(** The completion provider is down; transcription works. *)
Definition env_gpt_down : Env :=
  {| assemblyai_transcribe := Resolves response_ok;
     openai_create := fun _ => Rejects (new_Error "503 Service Unavailable");
     openai_create_titles := Rejects (new_Error "503 Service Unavailable");
     generateKeyMoments_impl := fun _ => Throw (new_Error "503 Service Unavailable") |}.

(** The transcription provider reports an error. *)
Definition env_transcription_error : Env :=
  {| assemblyai_transcribe := Resolves response_error;
     openai_create := fun _ => Resolves NoContent;
     openai_create_titles := Resolves NoContent;
     generateKeyMoments_impl := fun _ => Ok [] |}.

(** A summary as the provider would write it. *)
Definition summary_sample : Summary :=
  {| full := "An episode about pipelines.";
     bullets := ["a"; "b"; "c"; "d"; "e"];
     insights := ["x"; "y"; "z"];
     tldr := "Pipelines, explained." |}.

(** A project processed on the free plan, whose transcript has text but no
    chapters. *)
Definition text_only_project : Project :=
  {| userId := "user_1"; status := completed;
     jobStatus := Some {| transcription := Some phase_completed;
                          contentGeneration := Some phase_completed |};
     error := None; jobErrors := None;
     transcript := Some {| st_text := "hello world"; st_segments := [];
                           st_speakers := Some []; st_chapters := Some [] |};
     p_keyMoments := None; p_summary := Some summary_sample;
     p_socialPosts := None; p_titles := None; p_hashtags := None;
     p_youtubeTimestamps := None;
     updatedAt := 1500; completedAt := Some 1500%Z |}.

(** A project processed on the ultra plan where both chapter-based tasks
    failed. *)
Definition two_errors_project : Project :=
  {| userId := "user_1"; status := completed;
     jobStatus := Some {| transcription := Some phase_completed;
                          contentGeneration := Some phase_completed |};
     error := None;
     jobErrors := Some {[ keyMoments := "key moments failed";
                          youtubeTimestamps := "rate limited" ]};
     transcript := Some {| st_text := "hello world"; st_segments := [];
                           st_speakers := Some [];
                           st_chapters := Some [chapter_intro; chapter_deep] |};
     p_keyMoments := None; p_summary := Some summary_sample;
     p_socialPosts := None; p_titles := None; p_hashtags := None;
     p_youtubeTimestamps := None;
     updatedAt := 1500; completedAt := Some 1500%Z |}.

Fixpoint repeat_char (c : ascii) (n : nat) : string :=
  match n with
  | 0 => EmptyString
  | S n' => String c (repeat_char c n')
  end.

(** A Twitter post of 310 characters. *)
Definition twitter_310 : string := repeat_char "a" 310.

Definition social_json_310 : json :=
  JObj [("twitter", JStr twitter_310); ("linkedin", JStr "On LinkedIn");
        ("instagram", JStr "On Instagram"); ("tiktok", JStr "On TikTok");
        ("youtube", JStr "On YouTube"); ("facebook", JStr "On Facebook")].

Definition env_twitter_310 : Env :=
  {| assemblyai_transcribe := Resolves response_ok;
     openai_create := fun _ => Resolves (Json social_json_310);
     openai_create_titles := Resolves NoContent;
     generateKeyMoments_impl := fun _ => Ok [] |}.

(** The chapter-title request times out. *)
Definition env_titles_timeout : Env :=
  {| assemblyai_transcribe := Resolves response_ok;
     openai_create := fun _ => Resolves NoContent;
     openai_create_titles := Rejects (new_Error "Request timed out");
     generateKeyMoments_impl := fun _ => Ok [] |}.

(** The chapter-title request names the first chapter only. *)
Definition env_titles_partial : Env :=
  {| assemblyai_transcribe := Resolves response_ok;
     openai_create := fun _ => Resolves NoContent;
     openai_create_titles :=
       Resolves (Json {| ans_titles := Some [ {| ai_index := 0; ai_title := "Meet the Hosts" |} ] |});
     generateKeyMoments_impl := fun _ => Ok [] |}.

(** A signed-in user on the pro plan. *)
Definition auth_pro : Auth :=
  {| auth_userId := Some "user_1"%string;
     auth_has := Some (fun plan => bool_decide (plan = pro)) |}.

End Samples.
Export Samples.


(** ** Plan limits and upload validation ([lib/tier-config.ts],
       [lib/tier-utils.ts]) *)

Module Limits.

(** [null] is [None]: unlimited. *)
Record PlanLimits := {
  maxProjects : option N;
  maxFileSize : N;            (* bytes *)
  maxDuration : option N;     (* seconds *)
}.

Definition PLAN_LIMITS (plan : PlanName) : PlanLimits :=
  match plan with
  | free => {| maxProjects := Some 3%N;
               maxFileSize := (10 * 1024 * 1024)%N;
               maxDuration := Some 600%N |}
  | pro => {| maxProjects := Some 30%N;
              maxFileSize := (200 * 1024 * 1024)%N;
              maxDuration := Some 7200%N |}
  | ultra => {| maxProjects := None;
                maxFileSize := (3 * 1024 * 1024 * 1024)%N;
                maxDuration := None |}
  end.

(** [getMinimumPlanForFeature] *)
Definition getMinimumPlanForFeature (feature : FeatureName) : PlanName :=
  if bool_decide (feature ∈ PLAN_FEATURES free) then free
  else if bool_decide (feature ∈ PLAN_FEATURES pro) then pro
  else ultra.

(** The fields of a [projects] document that the project queries and
    actions read or write beside those of [Project]. *)
Record ProjectDoc := {
  doc : Project;
  inputUrl : string;
  deletedAt : option Z;
}.

(** [!p.deletedAt]: a missing timestamp and the number 0 are both falsy. *)
Definition not_deleted (p : ProjectDoc) : bool :=
  match deletedAt p with
  | None => true
  | Some t => bool_decide (t = 0%Z)
  end.

(** [getUserProjectCount] of [convex/projects.ts], on the [projects]
    table. *)
Definition getUserProjectCount (table : list ProjectDoc) (userId_ : string)
    (includeDeleted : bool) : nat :=
  let projects := filter (fun p => userId (doc p) = userId_) table in
  if includeDeleted then length projects
  else length (filter (fun p => not_deleted p = true) projects).

Inductive Reason := file_size | duration | project_limit.

#[export] Instance Reason_eq_dec : EqDecision Reason.
Proof. solve_decision. Defined.

Record UploadValidationResult := {
  uv_allowed : bool;
  uv_reason : option Reason;
  uv_message : option string;
  uv_currentCount : option nat;
  uv_limit : option N;
}.

(** [x.toFixed(digits)] for [x = num / den] held exactly: the integer
    nearest to [x * 10^digits], the larger one on a tie, printed with the
    point before its last [digits] digits.  A file size is an integer below
    [2^53], and dividing it by [1024 * 1024] is exact in double
    arithmetic, so [toFixed] sees the exact quotient. *)
Definition toFixed_scaled (num den : N) (digits : nat) : N :=
  ((2 * num * 10 ^ N.of_nat digits + den) / (2 * den))%N.

Fixpoint pad_zeros (n : nat) (s : string) : string :=
  match n with
  | 0%nat => s
  | S n' => if (String.length s <=? n')%nat then pad_zeros n' ("0" ++ s) else s
  end.

Definition toFixed (num den : N) (digits : nat) : string :=
  let m := String_of_N (toFixed_scaled num den digits) in
  match digits with
  | 0%nat => m
  | _ =>
      let m' := pad_zeros (S digits) m in
      let k := String.length m' in
      substring 0 (k - digits) m' ++ "." ++ substring (k - digits) digits m'
  end.

Definition MB : N := (1024 * 1024)%N.

(** The plan Clerk's [has] reports: ultra first, then pro. *)
Definition plan_of_has (has : option (PlanName → bool)) : PlanName :=
  match has with
  | Some h => if h ultra then ultra else if h pro then pro else free
  | None => free
  end.

(** [duration && limits.maxDuration && duration > limits.maxDuration] *)
Definition duration_exceeds (duration_ maxDuration_ : option N) : bool :=
  match duration_, maxDuration_ with
  | Some d, Some maxd => negb (d =? 0)%N && negb (maxd =? 0)%N && (maxd <? d)%N
  | _, _ => false
  end.

Definition upload_allowed : UploadValidationResult :=
  {| uv_allowed := true; uv_reason := None; uv_message := None;
     uv_currentCount := None; uv_limit := None |}.

(** [checkUploadLimits(auth, userId, fileSize, duration)]; the project
    count is read from the [projects] table. *)
Definition checkUploadLimits (has : option (PlanName → bool)) (table : list ProjectDoc)
    (userId_ : string) (fileSize : N) (duration_ : option N) : UploadValidationResult :=
  let plan := plan_of_has has in
  let limits := PLAN_LIMITS plan in
  if (maxFileSize limits <? fileSize)%N
  then {| uv_allowed := false; uv_reason := Some file_size;
          uv_message := Some ("File size (" ++ toFixed fileSize MB 1
                           ++ "MB) exceeds your plan limit of "
                           ++ toFixed (maxFileSize limits) MB 0 ++ "MB");
          uv_currentCount := None; uv_limit := None |}
  else if duration_exceeds duration_ (maxDuration limits)
  then
    let durationMinutes := (default 0 duration_ / 60)%N in
    let limitMinutes := (default 0 (maxDuration limits) / 60)%N in
    {| uv_allowed := false; uv_reason := Some duration;
       uv_message := Some ("Duration (" ++ String_of_N durationMinutes
                        ++ " minutes) exceeds your plan limit of "
                        ++ String_of_N limitMinutes ++ " minutes");
       uv_currentCount := None; uv_limit := None |}
  else
    match maxProjects limits with
    | Some maxp =>
        let includeDeleted := bool_decide (plan = free) in
        let projectCount := getUserProjectCount table userId_ includeDeleted in
        if (maxp <=? N.of_nat projectCount)%N
        then {| uv_allowed := false; uv_reason := Some project_limit;
                uv_message := Some ("You've reached your plan limit of "
                                 ++ String_of_N maxp ++ " "
                                 ++ (if bool_decide (plan = free) then "total" else "active")
                                 ++ " projects");
                uv_currentCount := Some projectCount; uv_limit := Some maxp |}
        else upload_allowed
    | None => upload_allowed
    end.

(** [deleteProject] of [convex/projects.ts]: a soft delete.  The project id
    is the document's position in the table; [now] is [Date.now()].  The
    mutation returns the input URL. *)
Definition patch_updatedAt (now : Z) (p : Project) : Project :=
  {| userId := userId p; status := status p; jobStatus := jobStatus p;
     error := error p; jobErrors := jobErrors p; transcript := transcript p;
     p_keyMoments := p_keyMoments p; p_summary := p_summary p;
     p_socialPosts := p_socialPosts p; p_titles := p_titles p;
     p_hashtags := p_hashtags p;
     p_youtubeTimestamps := p_youtubeTimestamps p;
     updatedAt := now; completedAt := completedAt p |}.

Definition deleteProject (now : Z) (projectId : nat) (userId_ : string)
    (table : list ProjectDoc) : Result string * list ProjectDoc :=
  match table !! projectId with
  | None => (Throw (new_Error "Project not found"), table)
  | Some project =>
      if negb (bool_decide (userId (doc project) = userId_))
      then (Throw (new_Error "Unauthorized: You don't own this project"), table)
      else (Ok (inputUrl project),
            <[projectId := {| doc := patch_updatedAt now (doc project);
                              inputUrl := inputUrl project;
                              deletedAt := Some now |}]> table)
  end.

(** [validateUploadAction] of [app/actions/projects.ts]: the result is
    [{ success, error }]. *)
Definition validateUploadAction (a : Auth) (table : list ProjectDoc)
    (fileSize : N) (duration_ : option N) : bool * option string :=
  match auth_userId a with
  | None => (false, Some "You must be signed in to upload files")
  | Some userId_ =>
      if bool_decide (userId_ = "")
      then (false, Some "You must be signed in to upload files")
      else
        let validation := checkUploadLimits (auth_has a) table userId_ fileSize duration_ in
        if negb (uv_allowed validation) then (false, uv_message validation)
        else (true, None)
  end.

(** [createProject] of [convex/projects.ts]: the new document, with the
    fields of [Project]; its id is its position in the table. *)
Definition new_project (userId_ : string) (now : Z) : Project :=
  {| userId := userId_; status := uploaded;
     jobStatus := Some {| transcription := Some pending;
                          contentGeneration := Some pending |};
     error := None; jobErrors := None; transcript := None;
     p_keyMoments := None; p_summary := None; p_socialPosts := None;
     p_titles := None; p_hashtags := None; p_youtubeTimestamps := None;
     updatedAt := now; completedAt := None |}.

Definition createProject (now : Z) (userId_ inputUrl_ : string)
    (table : list ProjectDoc) : nat * list ProjectDoc :=
  (length table,
   (table ++ [{| doc := new_project userId_ now; inputUrl := inputUrl_;
                 deletedAt := None |}])%list).

(** The data of the ["podcast/uploaded"] event the workflow reads. *)
Record UploadedEvent := {
  up_projectId : nat;
  up_userId : string;
  up_plan : PlanName;
  up_fileUrl : string;
}.

(** [createProjectAction] of [app/actions/projects.ts], on whole numbers
    for the size and the duration.  The checks it makes before it inserts
    anything: they return the caller's id. *)
Definition createProjectAction_checks (a : Auth) (fileUrl fileName : string)
    (fileSize : N) (fileDuration : option N) (table : list ProjectDoc)
    : Result string :=
  match auth_userId a with
  | None => Throw (new_Error "Unauthorized")
  | Some userId_ =>
      if bool_decide (userId_ = "") then Throw (new_Error "Unauthorized")
      else if bool_decide (fileUrl = "") || bool_decide (fileName = "")
      then Throw (new_Error "Missing required fields")
      else
        let validation := checkUploadLimits (auth_has a) table userId_ fileSize fileDuration in
        if negb (uv_allowed validation)
        then Throw (new_Error (or_string (uv_message validation)
                                         "Upload not allowed for your plan"))
        else Ok userId_
  end.

(** The action run without another request in between: the checks, the
    insert, then [await inngest.send(...)], whose outcome is [send].  The
    send comes after the insert, inside the [try] whose [catch] rethrows:
    when it rejects the action fails and the project stays.  The value
    returned stands for [{ success: true, projectId }] and the event
    sent. *)
Definition createProjectAction (a : Auth) (now : Z) (send : Call unit)
    (fileUrl fileName : string) (fileSize : N) (fileDuration : option N)
    (table : list ProjectDoc) : Result UploadedEvent * list ProjectDoc :=
  match createProjectAction_checks a fileUrl fileName fileSize fileDuration table with
  | Throw e => (Throw e, table)
  | Ok userId_ =>
      let plan := plan_of_has (auth_has a) in
      let (projectId, table') := createProject now userId_ fileUrl table in
      match send with
      | Rejects e => (Throw e, table')
      | Resolves _ =>
          (Ok {| up_projectId := projectId; up_userId := userId_; up_plan := plan;
                 up_fileUrl := fileUrl |}, table')
      end
  end.

(** The checks and the insert of [createProjectAction] are two awaited
    calls, and [createProject] does not check anything again, so other
    requests can come between them.  The server is the table together
    with the uploads that have passed their checks and not inserted
    yet. *)
Record PendingUpload := {
  pu_userId : string;
  pu_inputUrl : string;
}.

Record Server := {
  projects : list ProjectDoc;
  pending : list PendingUpload;
}.

(** What can happen while the user [u] is on the free plan: an upload
    (of [u] on the free plan, or of another user on any plan) passes its
    checks; an upload that has passed them inserts its project; somebody
    deletes a project.  With [serial] set, [u] starts an upload only when
    no other upload of [u] is between its checks and its insert. *)
Inductive server_step (u : string) (serial : bool) (s : Server) : Server → Prop :=
| step_checks a fileUrl fileName fileSize fileDuration uid :
    createProjectAction_checks a fileUrl fileName fileSize fileDuration (projects s)
    = Ok uid →
    (uid = u → plan_of_has (auth_has a) = free) →
    (serial = true → uid = u → Forall (fun x => pu_userId x ≠ u) (pending s)) →
    server_step u serial s
      {| projects := projects s;
         pending := (pending s ++ [{| pu_userId := uid; pu_inputUrl := fileUrl |}])%list |}
| step_insert now i x :
    pending s !! i = Some x →
    server_step u serial s
      {| projects := (createProject now (pu_userId x) (pu_inputUrl x) (projects s)).2;
         pending := delete i (pending s) |}
| step_delete now projectId v :
    server_step u serial s
      {| projects := (deleteProject now projectId v (projects s)).2;
         pending := pending s |}.

Inductive server_steps (u : string) (serial : bool) : Server → Server → Prop :=
| steps_refl s : server_steps u serial s s
| steps_step s1 s2 s3 :
    server_step u serial s1 s2 → server_steps u serial s2 s3 → server_steps u serial s1 s3.

(** The documents of [u] in the table, deleted ones included, and the
    uploads of [u] between their checks and their insert. *)
Definition total_of (u : string) (s : Server) : nat :=
  getUserProjectCount (projects s) u true.

Definition pending_of (u : string) (s : Server) : nat :=
  length (filter (fun x => pu_userId x = u) (pending s)).

End Limits.
Export Limits.

(** ** The single retry action ([app/actions/retry-job.ts]) *)

Module RetryAction.

(** [retryJob(projectId, job)]: the plans are worked out as in the bulk
    action; the event is sent for whatever job is asked. *)
Definition retryJob (a : Auth) (job : JobName) : M unit :=
  match auth_userId a with
  | None => throw (new_Error "Unauthorized")
  | Some userId_ =>
      if bool_decide (userId_ = "") then throw (new_Error "Unauthorized")
      else
        let currentPlan := currentPlan_of a in
        project <- getProject ;;
        match project with
        | None => throw (new_Error "Project not found")
        | Some p =>
            let originalPlan := inferOriginalPlan p in
            inngest_send {| ev_job := job; ev_userId := userId_;
                            ev_originalPlan := originalPlan;
                            ev_currentPlan := currentPlan |} ;;;
            ret tt
        end
  end.

End RetryAction.
Export RetryAction.

(** ** Durations ([lib/format.ts]) *)

Module Durations.

(** [formatDuration(seconds)] on a whole number of seconds. *)
Definition formatDuration (seconds : N) : string :=
  let hours := (seconds / 3600)%N in
  let minutes := ((seconds mod 3600) / 60)%N in
  let secs := (seconds mod 60)%N in
  if (0 <? hours)%N
  then String_of_N hours ++ ":" ++ padStart2 (String_of_N minutes)
       ++ ":" ++ padStart2 (String_of_N secs)
  else String_of_N minutes ++ ":" ++ padStart2 (String_of_N secs).

End Durations.
Export Durations.

(** ** Further sample data *)

Module MoreSamples.

(** [summary_sample] as the provider's answer reads once parsed. *)
Definition summary_json_sample : json :=
  JObj [("full", JStr "An episode about pipelines.");
        ("bullets", JArr [JStr "a"; JStr "b"; JStr "c"; JStr "d"; JStr "e"]);
        ("insights", JArr [JStr "x"; JStr "y"; JStr "z"]);
        ("tldr", JStr "Pipelines, explained.")].

(** A project whose stored transcript has no text. *)
Definition empty_text_project : Project :=
  {| userId := "user_1"; status := completed;
     jobStatus := Some {| transcription := Some phase_completed;
                          contentGeneration := Some phase_completed |};
     error := None; jobErrors := None;
     transcript := Some {| st_text := ""; st_segments := [];
                           st_speakers := Some []; st_chapters := Some [] |};
     p_keyMoments := None; p_summary := None;
     p_socialPosts := None; p_titles := None; p_hashtags := None;
     p_youtubeTimestamps := None;
     updatedAt := 1500; completedAt := Some 1500%Z |}.

(** A [projects] table: four projects of one user, the second soft
    deleted. *)
Definition sample_table : list ProjectDoc :=
  [ {| doc := text_only_project; inputUrl := "https://blob/a.mp3"; deletedAt := None |};
    {| doc := fresh_project; inputUrl := "https://blob/b.mp3"; deletedAt := Some 1700%Z |};
    {| doc := two_errors_project; inputUrl := "https://blob/c.mp3"; deletedAt := None |};
    {| doc := empty_text_project; inputUrl := "https://blob/d.mp3"; deletedAt := None |} ].

(** A signed-in user who owns no project of the samples. *)
Definition auth_other : Auth :=
  {| auth_userId := Some "user_2"; auth_has := Some (fun _ => false) |}.

End MoreSamples.
Export MoreSamples.

(** ** Further notions used in the statements *)

Module MoreNotions.

(** The artifact the project holds for a job, if any. *)
Definition artifact_of (p : Project) (j : JobName) : option Artifact :=
  match j with
  | summary => ASummary <$> p_summary p
  | socialPosts => ASocialPosts <$> p_socialPosts p
  | titles => ATitles <$> p_titles p
  | hashtags => AHashtags <$> p_hashtags p
  | keyMoments => AKeyMoments <$> p_keyMoments p
  | youtubeTimestamps => AYouTubeTimestamps <$> p_youtubeTimestamps p
  end.

(** The generation task of a job, as the workflow and the retry function
    call it. *)
Definition task_of (env : Env) (t : TranscriptWithExtras) (j : JobName) : M Artifact :=
  match j with
  | summary => fmapM ASummary (generateSummary env t)
  | socialPosts => fmapM ASocialPosts (generateSocialPosts env t)
  | titles => fmapM ATitles (generateTitles env t)
  | hashtags => fmapM AHashtags (generateHashtags env t)
  | keyMoments => fmapM AKeyMoments (generateKeyMoments env t)
  | youtubeTimestamps => fmapM AYouTubeTimestamps (generateYouTubeTimestamps env t)
  end.

(** The job an artifact belongs to. *)
Definition job_of_artifact (a : Artifact) : JobName :=
  match a with
  | ASummary _ => summary
  | ASocialPosts _ => socialPosts
  | ATitles _ => titles
  | AHashtags _ => hashtags
  | AKeyMoments _ => keyMoments
  | AYouTubeTimestamps _ => youtubeTimestamps
  end.

(** The argument of [saveGeneratedContent] that carries one artifact. *)
Definition content_of (a : Artifact) : GeneratedContent :=
  match a with
  | ASummary v =>
      {| gc_keyMoments := None; gc_summary := Some v; gc_socialPosts := None;
         gc_titles := None; gc_hashtags := None; gc_youtubeTimestamps := None |}
  | ASocialPosts v =>
      {| gc_keyMoments := None; gc_summary := None; gc_socialPosts := Some v;
         gc_titles := None; gc_hashtags := None; gc_youtubeTimestamps := None |}
  | ATitles v =>
      {| gc_keyMoments := None; gc_summary := None; gc_socialPosts := None;
         gc_titles := Some v; gc_hashtags := None; gc_youtubeTimestamps := None |}
  | AHashtags v =>
      {| gc_keyMoments := None; gc_summary := None; gc_socialPosts := None;
         gc_titles := None; gc_hashtags := Some v; gc_youtubeTimestamps := None |}
  | AKeyMoments v =>
      {| gc_keyMoments := Some v; gc_summary := None; gc_socialPosts := None;
         gc_titles := None; gc_hashtags := None; gc_youtubeTimestamps := None |}
  | AYouTubeTimestamps v =>
      {| gc_keyMoments := None; gc_summary := None; gc_socialPosts := None;
         gc_titles := None; gc_hashtags := None; gc_youtubeTimestamps := Some v |}
  end.

(** What a settled task of the fan-out can be, by its job: a value of the
    job's kind, or a rejection, which only the jobs that need chapters
    produce. *)
Definition outcome_of_job (j : JobName) (r : Settled Artifact) : Prop :=
  match r with
  | Fulfilled a => job_of_artifact a = j
  | Rejected _ => j ∈ jobsRequiringChapters
  end.

(** What the transcription stage stores for an answer of the provider
    that is not an error (the argument of its [saveTranscript] call). *)
Definition stored_of (r : AssemblyResponse) : StoredTranscript :=
  {| st_text := or_string (ar_text r) "";
     st_segments := imap formatSegment (default [] (ar_segments r));
     st_speakers := Some (toSpeaker <$> default [] (ar_utterances r));
     st_chapters := Some (toChapter <$> default [] (ar_chapters r)) |}.

(** A computation that starts no generation task. *)
Definition starts_nothing {A} (m : M A) : Prop :=
  ∀ w, tasksStarted (m w).2 = tasksStarted w.

(** A computation that leaves the world as it was but for the traces of
    tasks and completion calls, and starts exactly the task [j]. *)
Definition starts_only {A} (j : JobName) (m : M A) : Prop :=
  ∀ w, tasksStarted (m w).2 = (tasksStarted w ++ [j])%list.

(** The jobs that need no chapters. *)
Definition text_jobs : list JobName := [summary; socialPosts; titles; hashtags].

(** No artifact yet. *)
Definition no_artifacts (p : Project) : Prop :=
  ∀ j, hasData p j = false.

End MoreNotions.
Export MoreNotions.


(** * Proofs *)

Local Close Scope string_scope.

(** ** Running the monad *)

Lemma bind_ok {A B} (m : M A) (k : A → M B) w a w' :
  m w = (Ok a, w') → bind m k w = k a w'.
Proof. intros H. unfold bind. by rewrite H. Qed.

Lemma bind_throw {A B} (m : M A) (k : A → M B) w e w' :
  m w = (Throw e, w') → bind m k w = (Throw e, w').
Proof. intros H. unfold bind. by rewrite H. Qed.

Lemma try_catch_ok {A} (m : M A) h w a w' :
  m w = (Ok a, w') → try_catch m h w = (Ok a, w').
Proof. intros H. unfold try_catch. by rewrite H. Qed.

Lemma try_catch_throw {A} (m : M A) h w e w' :
  m w = (Throw e, w') → try_catch m h w = h e w'.
Proof. intros H. unfold try_catch. by rewrite H. Qed.

Lemma fmapM_ok {A B} (f : A → B) m w a w' :
  m w = (Ok a, w') → fmapM f m w = (Ok (f a), w').
Proof. intros H. unfold fmapM. by rewrite (bind_ok _ _ _ _ _ H). Qed.

Lemma settle_ok {A} (m : M A) w a w' :
  m w = (Ok a, w') → settle m w = (Ok (Fulfilled a), w').
Proof. intros H. unfold settle. by rewrite H. Qed.

Ltac run_bind H := rewrite (bind_ok _ _ _ _ _ H); cbv beta.

(** ** Quiet computations: the generation tasks never touch the document *)

Lemma quiet_ret {A} (a : A) : quiet (ret a).
Proof. by intros w. Qed.
Lemma quiet_throw {A} e : quiet (@throw A e).
Proof. by intros w. Qed.
Lemma quiet_log_task j : quiet (log_task j).
Proof. by intros w. Qed.
Lemma quiet_log_completion n : quiet (log_completion n).
Proof. by intros w. Qed.
Lemma quiet_await {A} (c : Call A) : quiet (await c).
Proof. destruct c; by intros w. Qed.

Lemma quiet_bind {A B} (m : M A) (k : A → M B) :
  quiet m → (∀ a, quiet (k a)) → quiet (bind m k).
Proof.
  intros Hm Hk w. unfold bind. specialize (Hm w).
  destruct (m w) as [[a|e] w1]; simpl in *.
  - destruct (Hk a w1) as (-> & -> & ->). done.
  - done.
Qed.

Lemma quiet_try_catch {A} (m : M A) h :
  quiet m → (∀ e, quiet (h e)) → quiet (try_catch m h).
Proof.
  intros Hm Hh w. unfold try_catch. specialize (Hm w).
  destruct (m w) as [[a|e] w1]; simpl in *.
  - done.
  - destruct (Hh e w1) as (-> & -> & ->). done.
Qed.

Lemma quiet_settle {A} (m : M A) : quiet m → quiet (settle m).
Proof.
  intros Hm w. unfold settle. specialize (Hm w).
  by destruct (m w) as [[a|e] w1].
Qed.

Lemma quiet_parse_or {A} (sp : json → option A) fb c : quiet (parse_or sp fb c).
Proof. destruct c as [| |j]; simpl; try by intros w. destruct (sp j); by intros w. Qed.

Ltac quiet_step :=
  first [ apply quiet_ret | apply quiet_throw | apply quiet_log_task
        | apply quiet_log_completion | apply quiet_await | apply quiet_parse_or
        | apply quiet_settle
        | apply quiet_bind; [|intros ?] | apply quiet_try_catch; [|intros ?] ].

Lemma quiet_chapters_length t : quiet (chapters_length t).
Proof. unfold chapters_length. destruct (chapters t); quiet_step. Qed.

Lemma quiet_generateSummary env t : quiet (generateSummary env t).
Proof.
  unfold generateSummary, buildSummaryPrompt, step_ai_wrap.
  repeat quiet_step. apply quiet_chapters_length.
Qed.

Lemma quiet_generateSocialPosts env t : quiet (generateSocialPosts env t).
Proof.
  unfold generateSocialPosts, buildSocialPrompt, step_ai_wrap. repeat quiet_step.
Qed.

Lemma quiet_generateTitles env t : quiet (generateTitles env t).
Proof.
  unfold generateTitles, buildTitlesPrompt, step_ai_wrap.
  repeat quiet_step. apply quiet_chapters_length.
Qed.

Lemma quiet_generateHashtags env t : quiet (generateHashtags env t).
Proof.
  unfold generateHashtags, buildHashtagsPrompt, step_ai_wrap. repeat quiet_step.
Qed.

Lemma quiet_generateKeyMoments env t : quiet (generateKeyMoments env t).
Proof.
  unfold generateKeyMoments. quiet_step; [quiet_step|].
  destruct (generateKeyMoments_impl env t); quiet_step.
Qed.

Lemma quiet_generateYouTubeTimestamps env t : quiet (generateYouTubeTimestamps env t).
Proof.
  unfold generateYouTubeTimestamps, step_ai_wrap_titles.
  quiet_step; [quiet_step|]. case_bool_decide; repeat quiet_step.
Qed.

Lemma quiet_fmapM {A B} (f : A → B) m : quiet m → quiet (fmapM f m).
Proof. intros. unfold fmapM. repeat quiet_step. done. Qed.

Lemma quiet_jobs_of env t plan : Forall quiet (jobs_of env t plan).
Proof.
  unfold jobs_of. destruct plan; simpl;
    repeat constructor; apply quiet_fmapM;
    auto using quiet_generateSummary, quiet_generateSocialPosts, quiet_generateTitles,
      quiet_generateHashtags, quiet_generateKeyMoments, quiet_generateYouTubeTimestamps.
Qed.

Lemma length_jobs_of env t plan : length (jobs_of env t plan) = length (jobNames_of plan).
Proof. by destruct plan. Qed.

Lemma NoDup_jobNames_of plan : NoDup (jobNames_of plan).
Proof. destruct plan; compute_done. Qed.

Lemma NoDup_entitledJobs plan : NoDup (entitledJobs plan).
Proof. destruct plan; compute_done. Qed.

(** All the jobs settle, one result per job, and the document is as it was. *)
Lemma Promise_allSettled_run {A} (jobs : list (M A)) :
  Forall quiet jobs →
  ∀ w, ∃ results w',
    Promise_allSettled jobs w = (Ok results, w')
    ∧ length results = length jobs
    ∧ db w' = db w ∧ clock w' = clock w ∧ sent w' = sent w.
Proof.
  induction 1 as [|job rest Hjob _ IH]; intros w; simpl.
  - by exists [], w.
  - unfold bind at 1. pose proof (quiet_settle _ Hjob w) as Hq.
    unfold settle in *. destruct (job w) as [[a|e] w1]; simpl in *;
      destruct Hq as (Hd & Hc & Hs);
      destruct (IH w1) as (rs & w2 & Hrun & Hlen & Hd2 & Hc2 & Hs2);
      unfold bind; rewrite Hrun; simpl;
      eexists _, w2; (split; [reflexivity|]); simpl;
      repeat split; congruence.
Qed.

Lemma Promise_allSettled_cons_run {A} (job : M A) rest w r w1 rs w2 :
  settle job w = (Ok r, w1) →
  Promise_allSettled rest w1 = (Ok rs, w2) →
  Promise_allSettled (job :: rest) w = (Ok (r :: rs), w2).
Proof.
  intros H1 H2. simpl. rewrite (bind_ok _ _ _ _ _ H1); cbv beta.
  by rewrite (bind_ok _ _ _ _ _ H2).
Qed.

(** ** The mutations on an existing document *)

Lemma run_updateProjectStatus s w p :
  db w = Some p →
  updateProjectStatus s w
  = (Ok tt, with_db (Some (patch_status s (clock w)
                             (if bool_decide (s = completed) then Some (clock w) else None) p)) w).
Proof.
  intros H. destruct w; simpl in *; subst.
  unfold updateProjectStatus, bind, Date_now, db_patch; simpl.
  by case_bool_decide.
Qed.

Lemma run_updateJobStatus t c w p :
  db w = Some p →
  updateJobStatus t c w
  = (Ok tt, with_db (Some (patch_jobStatus (merge_jobStatus (jobStatus p) t c) (clock w) p)) w).
Proof. intros H. destruct w; simpl in *; subst. reflexivity. Qed.

Lemma run_saveTranscript t w p :
  db w = Some p →
  saveTranscript t w = (Ok tt, with_db (Some (patch_transcript t (clock w) p)) w).
Proof. intros H. destruct w; simpl in *; subst. reflexivity. Qed.

Lemma run_saveGeneratedContent c w p :
  db w = Some p →
  saveGeneratedContent c w = (Ok tt, with_db (Some (patch_content c (clock w) p)) w).
Proof. intros H. destruct w; simpl in *; subst. reflexivity. Qed.

Lemma run_saveJobErrors errs w p :
  db w = Some p →
  saveJobErrors errs w = (Ok tt, with_db (Some (patch_jobErrors errs (clock w) p)) w).
Proof. intros H. destruct w; simpl in *; subst. reflexivity. Qed.

Lemma run_recordError_plain msg stepName w p :
  db w = Some p →
  recordError msg stepName None w
  = (Ok tt, with_db (Some (patch_error {| message := msg; step := stepName;
                                          timestamp := clock w; details := None |}
                                       (clock w) p)) w).
Proof. intros H. destruct w; simpl in *; subst. reflexivity. Qed.

(** A string passed as [details] never reaches the handler. *)
Lemma run_recordError_string msg stepName s w :
  ∃ e, recordError msg stepName (Some (DetailsString s)) w = (Throw e, w).
Proof. eexists. reflexivity. Qed.

Lemma run_saveResultsToConvex results w p :
  db w = Some p →
  ∃ p', saveResultsToConvex results w = (Ok tt, with_db (Some p') w)
        ∧ status p' = completed ∧ completedAt p' = Some (clock w)
        ∧ jobStatus p' = jobStatus p ∧ jobErrors p' = jobErrors p
        ∧ error p' = error p ∧ transcript p' = transcript p
        ∧ p_summary p' = from_option Some (p_summary p) (as_summary (results !! summary))
        ∧ p_socialPosts p' = from_option Some (p_socialPosts p) (as_socialPosts (results !! socialPosts))
        ∧ p_titles p' = from_option Some (p_titles p) (as_titles (results !! titles))
        ∧ p_hashtags p' = from_option Some (p_hashtags p) (as_hashtags (results !! hashtags))
        ∧ p_keyMoments p' = from_option Some (p_keyMoments p) (as_keyMoments (results !! keyMoments))
        ∧ p_youtubeTimestamps p'
          = from_option Some (p_youtubeTimestamps p) (as_youtubeTimestamps (results !! youtubeTimestamps)).
Proof.
  intros H. unfold saveResultsToConvex.
  erewrite bind_ok by (by apply run_saveGeneratedContent).
  erewrite run_updateProjectStatus by reflexivity.
  destruct w; simpl in *. eexists; split; [reflexivity|]. simpl. repeat split; reflexivity.
Qed.

(** ** The transcription stage *)

Lemma run_transcribe_ok env w p r :
  db w = Some p →
  assemblyai_transcribe env = Resolves r →
  ar_status r ≠ "error"%string →
  ∃ st, transcribeWithAssemblyAI env w
        = (Ok (transcript_of r), with_db (Some (patch_transcript st (clock w) p)) w).
Proof.
  intros Hdb Hcall Hst. unfold transcribeWithAssemblyAI.
  eexists. apply try_catch_ok.
  rewrite Hcall. unfold await. erewrite bind_ok by reflexivity.
  rewrite bool_decide_false by done.
  erewrite bind_ok by (by apply run_saveTranscript).
  reflexivity.
Qed.

Lemma run_transcribe_fail env w p :
  db w = Some p →
  (∃ e, assemblyai_transcribe env = Rejects e)
  ∨ (∃ r, assemblyai_transcribe env = Resolves r ∧ ar_status r = "error"%string) →
  ∃ e, transcribeWithAssemblyAI env w
       = (Throw e,
          with_db (Some (patch_error
                           {| message := message_or "Transcription failed" e;
                              step := "transcription"; timestamp := clock w;
                              details := None |} (clock w) p)) w).
Proof.
  intros Hdb [[e He]|(r & Hr & Hst)]; unfold transcribeWithAssemblyAI.
  - exists e. erewrite try_catch_throw; [|rewrite He; reflexivity].
    erewrite bind_ok by (by apply run_recordError_plain). reflexivity.
  - eexists. erewrite try_catch_throw;
      [|rewrite Hr; unfold await; erewrite bind_ok by reflexivity;
        rewrite bool_decide_true by done; reflexivity].
    erewrite bind_ok by (by apply run_recordError_plain). reflexivity.
Qed.

(** ** Tier configuration *)

(** C9.  The entitlement mapping is monotone along free < pro < ultra: the
    features of free are among those of pro, which are among those of
    ultra; the same holds of the jobs these features stand for, and of the
    job names the workflow launches for each plan. *)
Theorem entitled_tasks_monotone :
  (PLAN_FEATURES free ⊆ PLAN_FEATURES pro ∧ PLAN_FEATURES pro ⊆ PLAN_FEATURES ultra)
  ∧ (entitledJobs free ⊆ entitledJobs pro ∧ entitledJobs pro ⊆ entitledJobs ultra)
  ∧ (jobNames_of free ⊆ jobNames_of pro ∧ jobNames_of pro ⊆ jobNames_of ultra).
Proof.
  repeat split; compute_done.
Qed.

(** The guard of the retry function refuses exactly the jobs outside the
    plan's entitlement. *)
Lemma entitled_iff_planHasFeature plan job :
  job ∈ entitledJobs plan
  ↔ match jobToFeature job with
    | Some feature => negb (planHasFeature plan feature)
    | None => false
    end = false.
Proof.
  destruct plan, job; vm_compute; split; intros H; try done;
    try (by repeat (apply elem_of_cons in H as [H|H]; [discriminate H|]);
            apply elem_of_nil in H);
    repeat (first [by apply list_elem_of_here | apply list_elem_of_further]).
Qed.

(** ** The fan-out: collecting the settled results *)

Section Collect.
Context {V : Type}.
Variable names : list JobName.

Lemma forEach_from_zip {W} (g : JobName → Settled V → gmap JobName W → gmap JobName W)
    (results : list (Settled V)) :
  ∀ idx acc,
    forEach_from (fun result i acc =>
                    match names !! i with
                    | Some n => g n result acc
                    | None => acc
                    end) idx results acc
    = foldl (fun acc nr => g nr.1 nr.2 acc) acc (zip (drop idx names) results).
Proof.
  induction results as [|r rs IH]; intros idx acc; simpl.
  - by destruct (drop idx names).
  - rewrite IH. destruct (names !! idx) as [n|] eqn:E.
    + rewrite (drop_S _ _ _ E). done.
    + apply lookup_ge_None in E.
      rewrite !drop_ge by lia. done.
Qed.
End Collect.

Lemma collect_content_zip names results :
  collect_content names results
  = foldl (fun acc nr => keep_fulfilled nr.1 nr.2 acc) ∅ (zip names results).
Proof.
  unfold collect_content, forEach.
  rewrite <- (forEach_from_zip names keep_fulfilled results 0 ∅).
  reflexivity.
Qed.

Lemma collect_errors_zip names results :
  collect_errors names results
  = foldl (fun acc nr => keep_rejected nr.1 nr.2 acc) ∅ (zip names results).
Proof.
  unfold collect_errors, forEach.
  rewrite <- (forEach_from_zip names keep_rejected results 0 ∅).
  reflexivity.
Qed.




Lemma zip_covers {A B} (l : list A) (k : list B) x :
  length k = length l → x ∈ l → ∃ y, (x, y) ∈ zip l k.
Proof.
  revert k. induction l as [|a l IH]; intros [|b k] Hlen Hx; simpl in *; try lia.
  - by apply elem_of_nil in Hx.
  - apply elem_of_cons in Hx as [->|Hx].
    + exists b. left.
    + destruct (IH k) as [y Hy]; [lia | done |]. exists y. by right.
Qed.


(** ** The workflow after a successful transcription *)

(** The run of the workflow in terms of the settled results of its
    fan-out. *)
Lemma podcastProcessor_after_transcription env userPlan w p r :
  db w = Some p →
  assemblyai_transcribe env = Resolves r →
  ar_status r ≠ "error"%string →
  let plan := default free userPlan in
  ∃ results wa wb w' p',
    Promise_allSettled (jobs_of env (transcript_of r) plan) wa = (Ok results, wb)
    ∧ length results = length (jobNames_of plan)
    ∧ let generated := collect_content (jobNames_of plan) results in
      let errs := collect_errors (jobNames_of plan) results in
      podcastProcessor env userPlan w = (Ok plan, w')
      ∧ db w' = Some p'
      ∧ status p' = completed
      ∧ completedAt p' = Some (clock w)
      ∧ jobStatus p' = Some {| transcription := Some phase_completed;
                               contentGeneration := Some phase_completed |}
      ∧ error p' = error p
      ∧ jobErrors p' = (if (0 <? size errs)%nat then Some errs else jobErrors p)
      ∧ p_summary p' = from_option Some (p_summary p) (as_summary (generated !! summary))
      ∧ p_socialPosts p' = from_option Some (p_socialPosts p) (as_socialPosts (generated !! socialPosts))
      ∧ p_titles p' = from_option Some (p_titles p) (as_titles (generated !! titles))
      ∧ p_hashtags p' = from_option Some (p_hashtags p) (as_hashtags (generated !! hashtags))
      ∧ p_keyMoments p' = from_option Some (p_keyMoments p) (as_keyMoments (generated !! keyMoments))
      ∧ p_youtubeTimestamps p'
        = from_option Some (p_youtubeTimestamps p)
            (as_youtubeTimestamps (generated !! youtubeTimestamps)).
Proof.
  intros Hdb Hcall Hst plan.
  pose proof (run_updateProjectStatus processing w p Hdb) as H1.
  set (p1 := patch_status _ _ _ p) in H1. set (w1 := with_db (Some p1) w) in H1.
  pose proof (run_updateJobStatus (Some running) None w1 p1 eq_refl) as H2.
  set (p2 := patch_jobStatus _ _ p1) in H2. set (w2 := with_db (Some p2) w1) in H2.
  destruct (run_transcribe_ok env w2 p2 r eq_refl Hcall Hst) as [st H3].
  set (p3 := patch_transcript _ _ p2) in H3. set (w3 := with_db (Some p3) w2) in H3.
  pose proof (run_updateJobStatus (Some phase_completed) None w3 p3 eq_refl) as H4.
  set (p4 := patch_jobStatus _ _ p3) in H4. set (w4 := with_db (Some p4) w3) in H4.
  pose proof (run_updateJobStatus None (Some running) w4 p4 eq_refl) as H5.
  set (p5 := patch_jobStatus _ _ p4) in H5. set (w5 := with_db (Some p5) w4) in H5.
  destruct (Promise_allSettled_run (jobs_of env (transcript_of r) plan)
              (quiet_jobs_of _ _ _) w5) as (results & w6 & H6 & Hlen & Hd6 & Hc6 & _).
  rewrite length_jobs_of in Hlen.
  set (errs := collect_errors (jobNames_of plan) results).
  set (generated := collect_content (jobNames_of plan) results).
  assert (H7 : ∃ p7, (if (0 <? size errs)%nat then step_run "save-job-errors" (saveJobErrors errs)
                      else ret tt) w6 = (Ok tt, with_db (Some p7) w6)
                     ∧ p7 = (if (0 <? size errs)%nat then patch_jobErrors errs (clock w) p5 else p5)).
  { destruct (0 <? size errs)%nat.
    - eexists; split; [apply run_saveJobErrors; by rewrite Hd6|]. by rewrite Hc6.
    - exists p5; split; [|done]. unfold ret. f_equal.
      destruct w6; simpl in *. by subst. }
  destruct H7 as (p7 & H7 & Hp7).
  set (w7 := with_db (Some p7) w6) in H7.
  pose proof (run_updateJobStatus None (Some phase_completed) w7 p7 eq_refl) as H8.
  set (p8 := patch_jobStatus _ _ p7) in H8. set (w8 := with_db (Some p8) w7) in H8.
  destruct (run_saveResultsToConvex generated w8 p8 eq_refl)
    as (p9 & H9 & Hst9 & Hca9 & Hjs9 & Hje9 & Her9 & Htr9 & Hs & Hsp & Hti & Hha & Hkm & Hyt).
  exists results, w5, w6, (with_db (Some p9) w8), p9.
  split; [exact H6|]. split; [exact Hlen|].
  cbv zeta. split.
  { unfold podcastProcessor. apply try_catch_ok. unfold step_run.
    run_bind H1. run_bind H2. run_bind H3. run_bind H4. run_bind H5.
    fold plan. run_bind H6. fold errs generated.
    run_bind H7. run_bind H8. run_bind H9. reflexivity. }
  subst errs generated.
  split; [reflexivity|]. split; [exact Hst9|].
  split. { rewrite Hca9. simpl. by rewrite Hc6. }
  rewrite Hjs9, Her9, Hje9, Hs, Hsp, Hti, Hha, Hkm, Hyt. subst p8 p7.
  destruct (0 <? size (collect_errors (jobNames_of plan) results))%nat;
    repeat split; reflexivity.
Qed.

(** C2.  Whenever the transcription provider answers without error, and
    whatever the completion provider and the key-moments task do (so for
    any number of rejected generation tasks, from none to all that can
    reject), the workflow returns normally and leaves the project with
    [status = completed], [completedAt] stamped and no project-level error
    added; the rejected ones among the settled [results] only show in
    [jobErrors]. *)
Theorem transcription_success_reaches_completed env userPlan w p r :
  db w = Some p →
  assemblyai_transcribe env = Resolves r →
  ar_status r ≠ "error"%string →
  let plan := default free userPlan in
  ∃ results wa wb w' p',
    Promise_allSettled (jobs_of env (transcript_of r) plan) wa = (Ok results, wb)
    ∧ length results = length (jobNames_of plan)
    ∧ podcastProcessor env userPlan w = (Ok plan, w')
    ∧ db w' = Some p'
    ∧ status p' = completed
    ∧ completedAt p' = Some (clock w)
    ∧ error p' = error p
    ∧ jobErrors p'
      = (if (0 <? size (collect_errors (jobNames_of plan) results))%nat
         then Some (collect_errors (jobNames_of plan) results)
         else jobErrors p).
Proof.
  intros Hdb Hcall Hst plan.
  destruct (podcastProcessor_after_transcription env userPlan w p r Hdb Hcall Hst)
    as (results & wa & wb & w' & p' & Hfan & Hlen & Hrun & Hd & Hs & Hc & _ & He & Hj & _).
  exists results, wa, wb, w', p'. repeat split; assumption.
Qed.

(** An ultra run with the completion provider down still completes. *)
Lemma transcription_success_witness :
  ∃ w' p',
    podcastProcessor env_gpt_down (Some ultra) (world_of fresh_project) = (Ok ultra, w')
    ∧ db w' = Some p' ∧ status p' = completed ∧ completedAt p' = Some 2000%Z.
Proof.
  destruct (transcription_success_reaches_completed env_gpt_down (Some ultra)
              (world_of fresh_project) fresh_project response_ok)
    as (results & wa & wb & w' & p' & _ & _ & Hrun & Hdb & Hst & Hc & _).
  - reflexivity.
  - reflexivity.
  - vm_compute. discriminate.
  - exists w', p'. repeat split; assumption.
Defined.

(** ** Transcription failure *)

(** C4.  When the transcription provider rejects or reports an error, the
    workflow throws, the project ends with [status = failed] and an [error]
    whose [step] is ["transcription"], no generation task has been started
    and no completion call has been made; the content-generation phase is
    as it was.  The error is the one the stage records: the workflow's own
    [recordError] call passes a string as [details], which the mutation's
    argument validator refuses, and the cleanup handler swallows that
    refusal. *)
Theorem transcription_failure_is_terminal env userPlan w p :
  db w = Some p →
  (∃ e, assemblyai_transcribe env = Rejects e)
  ∨ (∃ r, assemblyai_transcribe env = Resolves r ∧ ar_status r = "error"%string) →
  ∃ e w' p' err,
    podcastProcessor env userPlan w = (Throw e, w')
    ∧ db w' = Some p'
    ∧ status p' = failed
    ∧ error p' = Some err ∧ step err = "transcription"%string
    ∧ message err = message_or "Transcription failed" e
    ∧ tasksStarted w' = tasksStarted w
    ∧ completions w' = completions w
    ∧ (jobStatus p' ≫= contentGeneration) = (jobStatus p ≫= contentGeneration).
Proof.
  intros Hdb Hfail.
  pose proof (run_updateProjectStatus processing w p Hdb) as H1.
  set (p1 := patch_status _ _ _ p) in H1. set (w1 := with_db (Some p1) w) in H1.
  pose proof (run_updateJobStatus (Some running) None w1 p1 eq_refl) as H2.
  set (p2 := patch_jobStatus _ _ p1) in H2. set (w2 := with_db (Some p2) w1) in H2.
  destruct (run_transcribe_fail env w2 p2 eq_refl Hfail) as [e H3].
  set (err := {| message := _ |}) in H3.
  set (p3 := patch_error _ _ p2) in H3. set (w3 := with_db (Some p3) w2) in H3.
  exists e, w3, p3, err.
  split.
  { unfold podcastProcessor, step_run.
    erewrite try_catch_throw;
      [|run_bind H1; run_bind H2; rewrite (bind_throw _ _ _ _ _ H3); reflexivity].
    reflexivity. }
  destruct w; simpl in *. subst. repeat split; reflexivity.
Qed.

(** A run whose transcription reports an error. *)
Lemma transcription_failure_witness :
  ∃ e w' p' err,
    podcastProcessor env_transcription_error (Some pro) (world_of fresh_project) = (Throw e, w')
    ∧ db w' = Some p' ∧ status p' = failed
    ∧ error p' = Some err ∧ step err = "transcription"%string
    ∧ tasksStarted w' = [] ∧ completions w' = [].
Proof.
  destruct (transcription_failure_is_terminal env_transcription_error (Some pro)
              (world_of fresh_project) fresh_project)
    as (e & w' & p' & err & Hrun & Hdb & Hst & Herr & Hstep & _ & Ht & Hc & _).
  - reflexivity.
  - right. exists response_error. split; reflexivity.
  - exists e, w', p', err. repeat split; assumption.
Defined.

(** ** Provider failures inside the schema-checked tasks *)

Lemma generateSummary_on_failure env t e :
  openai_create env "generate-summary-with-gpt" = Rejects e →
  ∀ w, ∃ w', generateSummary env t w = (Ok summary_on_error, w').
Proof.
  intros He w. unfold generateSummary, buildSummaryPrompt, chapters_length, step_ai_wrap.
  destruct w, (chapters t); unfold bind, try_catch; simpl; rewrite ?He; simpl; eauto.
Qed.

Lemma generateSocialPosts_on_failure env t e :
  openai_create env "generate-social-posts-with-gpt" = Rejects e →
  ∀ w, ∃ w', generateSocialPosts env t w = (Ok socialPosts_on_error, w').
Proof.
  intros He w. unfold generateSocialPosts, buildSocialPrompt, step_ai_wrap.
  destruct w; unfold bind, try_catch; simpl; rewrite ?He; simpl; eauto.
Qed.

Lemma generateTitles_on_failure env t e :
  openai_create env "generate-titles-with-gpt" = Rejects e →
  ∀ w, ∃ w', generateTitles env t w = (Ok titles_on_error, w').
Proof.
  intros He w. unfold generateTitles, buildTitlesPrompt, chapters_length, step_ai_wrap.
  destruct w, (chapters t); unfold bind, try_catch; simpl; rewrite ?He; simpl; eauto.
Qed.

Lemma generateHashtags_on_failure env t e :
  openai_create env "generate-hashtags-with-gpt" = Rejects e →
  ∀ w, ∃ w', generateHashtags env t w = (Ok hashtags_on_error, w').
Proof.
  intros He w. unfold generateHashtags, buildHashtagsPrompt, step_ai_wrap.
  destruct w; unfold bind, try_catch; simpl; rewrite ?He; simpl; eauto.
Qed.

Lemma pro_fan_out_all_fail env t :
  (∀ name, name ∈ completion_calls_pro → ∃ e, openai_create env name = Rejects e) →
  ∀ w, ∃ w', Promise_allSettled (jobs_of env t pro) w = (Ok four_placeholders, w').
Proof.
  intros Hfail w.
  destruct (Hfail "generate-summary-with-gpt"%string) as [e1 H1]; [compute_done|].
  destruct (Hfail "generate-social-posts-with-gpt"%string) as [e2 H2]; [compute_done|].
  destruct (Hfail "generate-titles-with-gpt"%string) as [e3 H3]; [compute_done|].
  destruct (Hfail "generate-hashtags-with-gpt"%string) as [e4 H4]; [compute_done|].
  destruct (generateSummary_on_failure env t e1 H1 w) as [w1 R1].
  destruct (generateSocialPosts_on_failure env t e2 H2 w1) as [w2 R2].
  destruct (generateTitles_on_failure env t e3 H3 w2) as [w3 R3].
  destruct (generateHashtags_on_failure env t e4 H4 w3) as [w4 R4].
  exists w4.
  change (jobs_of env t pro)
    with [fmapM ASummary (generateSummary env t);
          fmapM ASocialPosts (generateSocialPosts env t);
          fmapM ATitles (generateTitles env t);
          fmapM AHashtags (generateHashtags env t)].
  eapply Promise_allSettled_cons_run;
    [exact (settle_ok _ _ _ _ (fmapM_ok ASummary _ _ _ _ R1))|].
  eapply Promise_allSettled_cons_run;
    [exact (settle_ok _ _ _ _ (fmapM_ok ASocialPosts _ _ _ _ R2))|].
  eapply Promise_allSettled_cons_run;
    [exact (settle_ok _ _ _ _ (fmapM_ok ATitles _ _ _ _ R3))|].
  eapply Promise_allSettled_cons_run;
    [exact (settle_ok _ _ _ _ (fmapM_ok AHashtags _ _ _ _ R4))|].
  reflexivity.
Qed.

(** C1 as stated does not hold of the code: on a fresh project processed on
    the pro plan with the completion provider down, the run does not end
    with the four names in [jobErrors] and no artifact; a summary is
    stored. *)
Lemma pro_all_failed_counterexample :
  ¬ (∃ p',
       db (podcastProcessor env_gpt_down (Some pro) (world_of fresh_project)).2 = Some p'
       ∧ status p' = completed
       ∧ (jobStatus p' ≫= contentGeneration) = Some phase_completed
       ∧ (∀ j, j ∈ [summary; socialPosts; titles; hashtags] →
               ∃ errs, jobErrors p' = Some errs ∧ is_Some (errs !! j))
       ∧ p_summary p' = None ∧ p_socialPosts p' = None
       ∧ p_titles p' = None ∧ p_hashtags p' = None).
Proof.
  intros (p' & Hdb & _ & _ & _ & Hsum & _).
  vm_compute in Hdb. injection Hdb as <-. discriminate Hsum.
Qed.

(** C1, amended.  On the pro plan, when transcription succeeds and the
    four completion calls all reject, the workflow ends with
    [status = completed] and [contentGeneration = completed]; each task
    has caught its failure and resolved to its placeholder artifact, so
    [jobErrors] is left as it was and the four placeholders are stored. *)
Theorem pro_provider_failures_yield_placeholders env w p r :
  db w = Some p →
  assemblyai_transcribe env = Resolves r →
  ar_status r ≠ "error"%string →
  (∀ name, name ∈ completion_calls_pro → ∃ e, openai_create env name = Rejects e) →
  ∃ w' p',
    podcastProcessor env (Some pro) w = (Ok pro, w')
    ∧ db w' = Some p'
    ∧ status p' = completed
    ∧ (jobStatus p' ≫= contentGeneration) = Some phase_completed
    ∧ jobErrors p' = jobErrors p
    ∧ p_summary p' = Some summary_on_error
    ∧ p_socialPosts p' = Some socialPosts_on_error
    ∧ p_titles p' = Some titles_on_error
    ∧ p_hashtags p' = Some hashtags_on_error.
Proof.
  intros Hdb Hcall Hst Hfail.
  destruct (podcastProcessor_after_transcription env (Some pro) w p r Hdb Hcall Hst)
    as (results & wa & wb & w' & p' & Hfan & Hlen & Hrun & Hd & Hs & Hc & Hjs & He & Hj
        & Hsum & Hsp & Hti & Hha & _).
  destruct (pro_fan_out_all_fail env (transcript_of r) Hfail wa) as [wb' Hfan'].
  change (default free (Some pro)) with pro in *.
  rewrite Hfan' in Hfan. injection Hfan as <- _.
  exists w', p'.
  split; [exact Hrun|]. split; [exact Hd|]. split; [exact Hs|].
  split; [by rewrite Hjs|].
  split; [exact Hj|].
  rewrite Hsum, Hsp, Hti, Hha. repeat split; reflexivity.
Qed.

(** The pro run with the completion provider down. *)
Lemma pro_provider_failures_witness :
  ∃ w' p',
    podcastProcessor env_gpt_down (Some pro) (world_of fresh_project) = (Ok pro, w')
    ∧ db w' = Some p'
    ∧ status p' = completed
    ∧ (jobStatus p' ≫= contentGeneration) = Some phase_completed
    ∧ jobErrors p' = jobErrors fresh_project
    ∧ p_summary p' = Some summary_on_error
    ∧ p_socialPosts p' = Some socialPosts_on_error
    ∧ p_titles p' = Some titles_on_error
    ∧ p_hashtags p' = Some hashtags_on_error.
Proof.
  apply (pro_provider_failures_yield_placeholders env_gpt_down (world_of fresh_project)
           fresh_project response_ok).
  - reflexivity.
  - reflexivity.
  - vm_compute. discriminate.
  - intros name _. eexists. reflexivity.
Defined.

(** ** The Twitter limit *)

Lemma z_string_max_bound n j s : z_string_max n j = Some s → js_length s ≤ n.
Proof.
  unfold z_string_max. destruct (z_string j) as [s'|]; simpl; [|done].
  destruct (js_length s' <=? n)%nat eqn:E; [|done].
  intros [= <-]. by apply Nat.leb_le.
Qed.

Lemma socialPostsSchema_twitter_bound j posts :
  socialPostsSchema_parse j = Some posts → js_length (sp_twitter posts) ≤ 280.
Proof.
  destruct j as [| | | | |props]; simpl; try done.
  unfold z_field.
  destruct (prop "twitter" props ≫= z_string_max 280) as [tw|] eqn:E; simpl; [|done].
  destruct (prop "linkedin" props ≫= z_string); simpl; [|done].
  destruct (prop "instagram" props ≫= z_string); simpl; [|done].
  destruct (prop "tiktok" props ≫= z_string); simpl; [|done].
  destruct (prop "youtube" props ≫= z_string); simpl; [|done].
  destruct (prop "facebook" props ≫= z_string); simpl; [|done].
  intros [= <-]. simpl.
  destruct (prop "twitter" props) as [jt|]; simpl in E; [|done].
  by eapply z_string_max_bound.
Qed.

(** Whatever the provider answers, the safety check never changes the posts
    it is given: a longer post has already been refused by the schema. *)
Lemma twitter_truncation_never_fires content w posts w' :
  parse_or socialPostsSchema_parse socialPosts_fallback content w = (Ok posts, w') →
  enforce_twitter_limit posts = posts.
Proof.
  destruct content as [| |j]; simpl.
  - intros [= <- _]. reflexivity.
  - discriminate.
  - destruct (socialPostsSchema_parse j) as [ps|] eqn:E; [|discriminate].
    intros [= <- _]. apply socialPostsSchema_twitter_bound in E.
    unfold enforce_twitter_limit.
    destruct (280 <? js_length (sp_twitter ps))%nat eqn:E'; [|done].
    apply Nat.ltb_lt in E'. lia.
Qed.

(** C5 (the code departs from it).  For a provider answer whose Twitter post
    has 310 characters, the schema refuses the answer, the task resolves to
    its error placeholder and the stored [twitter] field is the placeholder
    text, not the first 277 characters followed by ["..."]. *)
Theorem twitter_310_is_not_truncated :
  String.length twitter_310 = 310
  ∧ socialPostsSchema_parse social_json_310 = None
  ∧ (generateSocialPosts env_twitter_310 (transcript_of response_ok)
       (world_of fresh_project)).1 = Ok socialPosts_on_error
  ∧ (∃ p', db (podcastProcessor env_twitter_310 (Some pro) (world_of fresh_project)).2 = Some p'
           ∧ (sp_twitter <$> p_socialPosts p') = Some social_error_text
           ∧ (sp_twitter <$> p_socialPosts p') ≠ Some (substring0 277 twitter_310 ++ "...")%string).
Proof.
  split; [reflexivity|]. split; [vm_compute; reflexivity|]. split; [vm_compute; reflexivity|].
  eexists. split; [vm_compute; reflexivity|]. split; [reflexivity|].
  vm_compute. discriminate.
Qed.

(** ** Retry *)

Lemma save_after_quiet {A} (m : M A) (mk : A → GeneratedContent) w p :
  quiet m → db w = Some p →
  (∃ c w', (result <- m ;; saveGeneratedContent (mk result)) w = (Ok tt, w')
           ∧ db w' = Some (patch_content c (clock w) p) ∧ clock w' = clock w)
  ∨ (∃ e w', (result <- m ;; saveGeneratedContent (mk result)) w = (Throw e, w')
             ∧ db w' = Some p ∧ clock w' = clock w).
Proof.
  intros Hq Hdb. unfold bind. destruct (Hq w) as (Hd & Hc & _).
  destruct (m w) as [[a|e] w1]; simpl in *.
  - left. exists (mk a). eexists.
    split; [apply (run_saveGeneratedContent _ w1 p); congruence|].
    simpl. by rewrite Hc.
  - right. exists e, w1. repeat split; congruence.
Qed.

Lemma regenerate_run env t job w p :
  db w = Some p →
  (∃ c w', regenerate env t job w = (Ok tt, w')
           ∧ db w' = Some (patch_content c (clock w) p) ∧ clock w' = clock w)
  ∨ (∃ e w', regenerate env t job w = (Throw e, w')
             ∧ db w' = Some p ∧ clock w' = clock w).
Proof.
  intros Hdb. destruct job; unfold regenerate, step_run.
  - apply (save_after_quiet (generateSocialPosts env t)
             (fun r => {| gc_keyMoments := None; gc_summary := None;
                          gc_socialPosts := Some r; gc_titles := None;
                          gc_hashtags := None; gc_youtubeTimestamps := None |}));
      [apply quiet_generateSocialPosts | done].
  - apply (save_after_quiet (generateTitles env t)
             (fun r => {| gc_keyMoments := None; gc_summary := None;
                          gc_socialPosts := None; gc_titles := Some r;
                          gc_hashtags := None; gc_youtubeTimestamps := None |}));
      [apply quiet_generateTitles | done].
  - apply (save_after_quiet (generateHashtags env t)
             (fun r => {| gc_keyMoments := None; gc_summary := None;
                          gc_socialPosts := None; gc_titles := None;
                          gc_hashtags := Some r; gc_youtubeTimestamps := None |}));
      [apply quiet_generateHashtags | done].
  - apply (save_after_quiet (generateKeyMoments env t)
             (fun r => {| gc_keyMoments := Some r; gc_summary := None;
                          gc_socialPosts := None; gc_titles := None;
                          gc_hashtags := None; gc_youtubeTimestamps := None |}));
      [apply quiet_generateKeyMoments | done].
  - apply (save_after_quiet (generateYouTubeTimestamps env t)
             (fun r => {| gc_keyMoments := None; gc_summary := None;
                          gc_socialPosts := None; gc_titles := None;
                          gc_hashtags := None; gc_youtubeTimestamps := Some r |}));
      [apply quiet_generateYouTubeTimestamps | done].
  - apply (save_after_quiet (generateSummary env t)
             (fun r => {| gc_keyMoments := None; gc_summary := Some r;
                          gc_socialPosts := None; gc_titles := None;
                          gc_hashtags := None; gc_youtubeTimestamps := None |}));
      [apply quiet_generateSummary | done].
Qed.

(** What a retry that passes its preconditions does to [jobErrors] and
    [status]: on success the job's entry is deleted from the errors read at
    the start; on failure the whole map is replaced by the job's entry
    alone.  [status] is never touched. *)
Lemma retry_outcome env job originalPlan currentPlan w p st :
  job ∈ entitledJobs (default free currentPlan) →
  db w = Some p → transcript p = Some st → st_text st ≠ ""%string →
  (job ∈ jobsRequiringChapters → default [] (st_chapters st) ≠ []) →
  ∃ w' p',
    db w' = Some p' ∧ status p' = status p
    ∧ ((retryJobFunction env job originalPlan currentPlan w = (Ok job, w')
        ∧ jobErrors p' = Some (delete job (default ∅ (jobErrors p))))
       ∨ (∃ e, retryJobFunction env job originalPlan currentPlan w = (Throw e, w')
               ∧ jobErrors p' = Some {[ job := message_or "Unknown error" e ]})).
Proof.
  intros Hent Hdb Htr Htext Hch.
  assert (Heq : retryJobFunction env job originalPlan currentPlan w
                = try_catch
                    (regenerate env (as_TranscriptWithExtras st) job ;;;
                     step_run "clear-job-error"
                       (saveJobErrors (delete job (default ∅ (jobErrors p)))) ;;;
                     ret job)
                    (fun error => saveJobErrors {[ job := message_or "Unknown error" error ]} ;;;
                                  throw error) w).
  { unfold retryJobFunction.
    apply entitled_iff_planHasFeature in Hent. rewrite Hent.
    unfold bind at 1, getProject, db_get. rewrite Hdb. simpl. rewrite Htr. simpl.
    rewrite bool_decide_false.
    2:{ destruct (st_text st); [done|]. simpl. lia. }
    assert (Hguard : bool_decide (job ∈ jobsRequiringChapters)
                     && bool_decide (length (default [] (st_chapters st)) = 0) = false).
    { case_bool_decide as Hj; [|done]. simpl. apply bool_decide_false.
      specialize (Hch Hj). by destruct (default [] (st_chapters st)). }
    rewrite Hguard. reflexivity. }
  rewrite Heq. clear Heq.
  destruct (regenerate_run env (as_TranscriptWithExtras st) job w p Hdb)
    as [(c & w1 & Hrun & Hd1 & Hc1)|(e & w1 & Hrun & Hd1 & Hc1)].
  - eexists _, _. split; [|split; [|left; split]].
    3:{ apply try_catch_ok. run_bind Hrun. unfold step_run.
        erewrite bind_ok by (apply run_saveJobErrors; exact Hd1).
        reflexivity. }
    + reflexivity.
    + reflexivity.
    + reflexivity.
  - eexists _, _. split; [|split; [|right; exists e; split]].
    3:{ erewrite try_catch_throw by (rewrite (bind_throw _ _ _ _ _ Hrun); reflexivity).
        erewrite bind_ok by (apply run_saveJobErrors; exact Hd1).
        reflexivity. }
    + reflexivity.
    + reflexivity.
    + reflexivity.
Qed.

(** C6 (the code departs from it).  On a project whose [jobErrors] has an
    entry for [keyMoments] and one for [youtubeTimestamps], a retry of
    [youtubeTimestamps] whose title request times out writes the new
    message for [youtubeTimestamps], leaves [status] alone, and loses the
    entry of [keyMoments]. *)
Theorem retry_failure_drops_other_errors :
  let w := world_of two_errors_project in
  let run := retryJobFunction env_titles_timeout youtubeTimestamps (Some ultra) (Some ultra) w in
  run.1 = Throw (new_Error "Request timed out")
  ∧ jobError_of w keyMoments = Some "key moments failed"%string
  ∧ jobError_of run.2 youtubeTimestamps = Some "Request timed out"%string
  ∧ jobError_of run.2 keyMoments = None
  ∧ status_of run.2 = Some completed.
Proof.
  repeat split; vm_compute; reflexivity.
Qed.

(** C7 as stated does not hold of the code: in the no-chapters scenario the
    retry leaves no [jobErrors] entry for [youtubeTimestamps]. *)
Lemma retry_no_chapters_counterexample :
  ¬ is_Some (jobError_of
               (retryJobFunction env_gpt_down youtubeTimestamps (Some free) (Some ultra)
                  (world_of text_only_project)).2
               youtubeTimestamps).
Proof. vm_compute. intros [x Hx]. discriminate Hx. Qed.

(** C7, amended.  The retry function checks its preconditions in order and
    throws before writing anything, so the world is as it was (in
    particular [jobErrors] and [status]): a job outside the current plan's
    entitlement gets a message asking to upgrade; otherwise a missing
    project or transcript gets "Project or transcript not found";
    otherwise, with a non-empty text, [keyMoments] and [youtubeTimestamps]
    on a transcript without chapters get the no-chapters message. *)
Theorem retry_preconditions env job originalPlan currentPlan w :
  let plan := default free currentPlan in
  let run := retryJobFunction env job originalPlan currentPlan w in
  (¬ (job ∈ entitledJobs plan) →
     run = (Throw (new_Error (not_available_message job)), w)
     ∧ ∃ pre, not_available_message job = (pre ++ "Please upgrade to access it.")%string)
  ∧ (job ∈ entitledJobs plan →
     match db w with Some p => transcript p = None | None => True end →
     run = (Throw (new_Error "Project or transcript not found"), w))
  ∧ (job ∈ entitledJobs plan →
     ∀ p st, db w = Some p → transcript p = Some st → st_text st ≠ ""%string →
       job ∈ [keyMoments; youtubeTimestamps] →
       default [] (st_chapters st) = [] →
       run = (Throw (new_Error (no_chapters_message job)), w)).
Proof.
  intros plan run. subst run. unfold retryJobFunction. fold plan.
  pose proof (entitled_iff_planHasFeature plan job) as Hent.
  destruct (match jobToFeature job with
            | Some feature => negb (planHasFeature plan feature)
            | None => false end) eqn:E.
  - split; [|split].
    + intros _. split; [reflexivity|].
      exists ("This feature (" ++ JobName_str job
              ++ ") is not available on your current plan. ")%string.
      by destruct job.
    + intros H. apply Hent in H. discriminate.
    + intros H. apply Hent in H. discriminate.
  - split; [|split].
    + intros H. exfalso. apply H, Hent. reflexivity.
    + intros _ Hnone. unfold bind, getProject, db_get.
      destruct (db w) as [p|]; simpl; [|reflexivity]. by rewrite Hnone.
    + intros _ p st Hdb Htr Htext Hjob Hch. unfold bind, getProject, db_get.
      rewrite Hdb. simpl. rewrite Htr. simpl.
      rewrite bool_decide_false.
      2:{ destruct (st_text st); [done|]. simpl. lia. }
      rewrite bool_decide_true by exact Hjob.
      rewrite Hch. simpl. reflexivity.
Qed.

(** The no-chapters scenario: the world is left as it was. *)
Lemma retry_preconditions_witness :
  retryJobFunction env_gpt_down youtubeTimestamps (Some free) (Some ultra)
    (world_of text_only_project)
  = (Throw (new_Error (no_chapters_message youtubeTimestamps)), world_of text_only_project).
Proof.
  apply (retry_preconditions env_gpt_down youtubeTimestamps (Some free) (Some ultra)
           (world_of text_only_project)) with (p := text_only_project)
           (st := {| st_text := "hello world"; st_segments := [];
                     st_speakers := Some []; st_chapters := Some [] |}).
  - vm_compute. repeat (first [by apply list_elem_of_here | apply list_elem_of_further]).
  - reflexivity.
  - reflexivity.
  - vm_compute. discriminate.
  - vm_compute. repeat (first [by apply list_elem_of_here | apply list_elem_of_further]).
  - reflexivity.
Defined.

(** ** The bulk retry action *)

Lemma missing_loop_filter p features :
  ∀ missingJobs,
    missing_loop p features missingJobs
    = missingJobs ++ filter (lacks p) (omap FEATURE_TO_JOB_MAP features).
Proof.
  induction features as [|f fs IH]; intros acc; simpl.
  - by rewrite app_nil_r.
  - destruct (FEATURE_TO_JOB_MAP f) as [j|] eqn:E; simpl; [|apply IH].
    rewrite filter_cons. destruct (decide (lacks p j)) as [Hl|Hl]; unfold lacks in Hl.
    + rewrite Hl, IH. by rewrite <- app_assoc.
    + destruct (hasData p j); [apply IH | done].
Qed.

Lemma Promise_all_map_cons {A} (f : A → M unit) x l w :
  Promise_all_map f (x :: l) w
  = match f x w with
    | (Ok _, w') => Promise_all_map f l w'
    | (Throw e, w') => (Throw e, (Promise_all_map f l w').2)
    end.
Proof. reflexivity. Qed.

Lemma Promise_all_map_send (mk : JobName → RetryEvent) jobs :
  ∀ w, ∃ w', Promise_all_map (fun job => inngest_send (mk job)) jobs w = (Ok tt, w')
             ∧ sent w' = sent w ++ (mk <$> jobs) ∧ db w' = db w.
Proof.
  induction jobs as [|j js IH]; intros w.
  - exists w. simpl. by rewrite app_nil_r.
  - rewrite Promise_all_map_cons. unfold inngest_send at 1.
    destruct (IH {| db := db w; clock := clock w; tasksStarted := tasksStarted w;
                    completions := completions w; sent := sent w ++ [mk j] |})
      as (w' & Hrun & Hs & Hd).
    exists w'. rewrite Hrun. simpl in *.
    split; [done|]. by rewrite Hs, <- app_assoc.
Qed.

(** C8.  For a signed-in owner, the action sends exactly one retry event per
    job that the current plan entitles and the project lacks, in the
    plan's order and nothing else; on a pro plan with only the summary
    present these are [socialPosts], [titles] and [hashtags]. *)
Theorem generateMissingFeatures_sends_set_difference a w p uid :
  auth_userId a = Some uid → uid ≠ ""%string →
  db w = Some p → userId p = uid →
  let plan := currentPlan_of a in
  let missing := filter (lacks p) (entitledJobs plan) in
  let run := generateMissingFeatures a w in
  (ev_job <$> sent run.2) = (ev_job <$> sent w) ++ missing
  ∧ length (sent run.2) = length (sent w) + length missing
  ∧ NoDup missing
  ∧ (∀ j, j ∈ missing ↔ j ∈ entitledJobs plan ∧ hasData p j = false)
  ∧ (missing ≠ [] → run.1 = Ok missing)
  ∧ (plan = pro → hasData p summary = true → hasData p socialPosts = false →
     hasData p titles = false → hasData p hashtags = false →
     missing = [socialPosts; titles; hashtags]).
Proof.
  intros Hu Hne Hdb Hown plan missing run.
  assert (Hrun : (missing = [] ∧ run.2 = w ∧ ∃ e, run.1 = Throw e)
                 ∨ (missing ≠ [] ∧ run.1 = Ok missing
                    ∧ (ev_job <$> sent run.2) = (ev_job <$> sent w) ++ missing)).
  { assert (Heq : generateMissingFeatures a w
                  = (if bool_decide (length missing = 0)
                     then throw (new_Error
                       "No missing features to generate. All features for your plan are already available.")
                     else
                       Promise_all_map
                         (fun job => inngest_send
                            {| ev_job := job; ev_userId := uid;
                               ev_originalPlan := inferOriginalPlan p;
                               ev_currentPlan := plan |}) missing ;;;
                       ret missing) w).
    { unfold generateMissingFeatures. rewrite Hu.
      rewrite bool_decide_false by done.
      unfold bind at 1, getProject, db_get. rewrite Hdb.
      rewrite bool_decide_true by done. simpl negb. cbv iota.
      rewrite missing_loop_filter. reflexivity. }
    subst run. rewrite Heq. clear Heq.
    destruct missing as [|j js] eqn:Hm.
    - left. rewrite bool_decide_true by done. simpl. eauto.
    - right. split; [done|]. rewrite bool_decide_false by done.
      edestruct (Promise_all_map_send
                   (fun job => {| ev_job := job; ev_userId := uid;
                                  ev_originalPlan := inferOriginalPlan p;
                                  ev_currentPlan := plan |}) (j :: js) w)
        as (w' & Hsend & Hs & _).
      rewrite (bind_ok _ _ _ _ _ Hsend). simpl. split; [done|].
      rewrite Hs. rewrite fmap_app. f_equal.
      rewrite <- list_fmap_compose. simpl. f_equal.
      change (ev_job ∘ _) with (@id JobName). by rewrite list_fmap_id. }
  split; [|split; [|split; [|split; [|split]]]].
  - destruct Hrun as [(Hm & -> & _)|(_ & _ & Hs)]; [by rewrite Hm, app_nil_r | done].
  - destruct Hrun as [(Hm & -> & _)|(_ & _ & Hs)]; [by rewrite Hm; simpl; lia |].
    apply (f_equal length) in Hs. by rewrite length_app, !length_fmap in Hs.
  - apply NoDup_filter, NoDup_entitledJobs.
  - intros j. unfold missing. rewrite list_elem_of_filter. unfold lacks. tauto.
  - intros Hm. by destruct Hrun as [(? & _)|(_ & ? & _)].
  - intros Hp H1 H2 H3 H4. unfold missing. rewrite Hp.
    change (entitledJobs pro) with [summary; socialPosts; titles; hashtags].
    rewrite !filter_cons, filter_nil.
    rewrite (decide_False (P := lacks p summary)) by (unfold lacks; by rewrite H1).
    by rewrite !decide_True.
Qed.

(** A pro user whose project has only its summary. *)
Lemma generateMissingFeatures_witness :
  (ev_job <$> sent (generateMissingFeatures auth_pro (world_of text_only_project)).2)
  = [socialPosts; titles; hashtags].
Proof.
  pose proof (generateMissingFeatures_sends_set_difference auth_pro
                (world_of text_only_project) text_only_project "user_1"%string) as H.
  destruct H as (Hsent & _ & _ & _ & _ & Hpro).
  - reflexivity.
  - vm_compute. discriminate.
  - reflexivity.
  - reflexivity.
  - rewrite Hsent. simpl. apply Hpro; reflexivity.
Defined.

(** ** YouTube timestamps *)

Lemma describe_no_match aiTitles chapter :
  (∀ t, t ∈ aiTitles → index_matches chapter t = false) →
  describe aiTitles chapter = cd_headline chapter.
Proof.
  intros H. unfold describe.
  destruct (List.find (index_matches chapter) aiTitles) as [t|] eqn:E; [|done].
  apply find_some in E as [Hin Hm]. apply list_elem_of_In in Hin.
  rewrite (H t Hin) in Hm. discriminate.
Qed.

(** On a transcript with at least one chapter, once the title request
    has resolved (whatever its content), the task returns
    [min (number of chapters) 100] entries, one per chapter among the first
    100, in chapter order: entry [i] carries the formatted start of chapter
    [i], and its description is the chapter's headline whenever no returned
    title has index [i].  When the title request itself rejects, the task
    rejects with the same error and returns nothing. *)
Lemma youtube_timestamps_per_chapter env t w chs :
  chapters t = Some chs →
  chs ≠ [] →
  (∀ content, openai_create_titles env = Resolves content →
     ∃ out w',
       generateYouTubeTimestamps env t w = (Ok out, w')
       ∧ length out = Nat.min (length chs) 100
       ∧ ∀ i ch, i < 100 → chs !! i = Some ch →
           ∃ ts, out !! i = Some ts
                 ∧ yt_timestamp ts = formatTimestamp (ch_start ch / 1000)%N false false
                 ∧ ((∀ a, a ∈ aiTitles_of content →
                          Qeq_bool (ai_index a) (inject_Z (Z.of_nat i)) = false) →
                    yt_description ts = ch_headline ch))
  ∧ (∀ e, openai_create_titles env = Rejects e →
       ∃ w', generateYouTubeTimestamps env t w = (Throw e, w')).
Proof.
  intros Hch Hne. split.
  - intros content Hcall.
    unfold generateYouTubeTimestamps, step_ai_wrap_titles. rewrite Hch, Hcall. simpl default.
    rewrite bool_decide_false by (by destruct chs).
    eexists _, _. split.
    { unfold bind, log_task, log_completion, await, ret. reflexivity. }
    split.
    { rewrite !length_fmap, length_imap, length_take. lia. }
    intros i ch Hi Hlook.
    rewrite !list_lookup_fmap, list_lookup_imap, lookup_take_lt by lia.
    rewrite Hlook. simpl. eexists. split; [reflexivity|]. split; [reflexivity|].
    intros Hno. simpl. apply describe_no_match. intros a Ha. by apply Hno.
  - intros e Hcall.
    unfold generateYouTubeTimestamps, step_ai_wrap_titles. rewrite Hch, Hcall. simpl default.
    rewrite bool_decide_false by (by destruct chs).
    eexists. unfold bind, log_task, log_completion, await, throw. reflexivity.
Qed.

(** Two chapters, one title returned: the second entry keeps its headline. *)
Lemma youtube_timestamps_witness :
  (generateYouTubeTimestamps env_titles_partial (transcript_of response_ok)
     (world_of fresh_project)).1
  = Ok [ {| yt_timestamp := "00:00"; yt_description := "Meet the Hosts" |};
         {| yt_timestamp := "01:05"; yt_description := "How the pipeline works" |} ].
Proof.
  destruct (youtube_timestamps_per_chapter env_titles_partial (transcript_of response_ok)
              (world_of fresh_project) [chapter_intro; chapter_deep]) as (Hres & _).
  - reflexivity.
  - discriminate.
  - destruct (Hres (Json {| ans_titles :=
                              Some [ {| ai_index := 0; ai_title := "Meet the Hosts" |} ] |}))
      as (out & w' & Hrun & _).
    + reflexivity.
    + rewrite Hrun. vm_compute in Hrun. injection Hrun as <- _. reflexivity.
Defined.

(** C10 (the code departs from it).  On a transcript with two chapters
    whose title request is rejected (the provider times out), no title is
    available for any chapter, yet the task does not fall back to the
    headlines: the [await] of the request is outside every [try], so the
    task rejects with the provider's error and returns no entry at all.
    Nothing is written, so the project has no timestamps either. *)
Theorem youtube_timestamps_lost_when_titles_fail :
  let t := transcript_of response_ok in
  let w := world_of fresh_project in
  let run := generateYouTubeTimestamps env_titles_timeout t w in
  chapters t = Some [chapter_intro; chapter_deep]
  ∧ openai_create_titles env_titles_timeout = Rejects (new_Error "Request timed out")
  ∧ run.1 = Throw (new_Error "Request timed out")
  ∧ (∀ out, run.1 ≠ Ok out)
  ∧ db run.2 = db w
  ∧ run.1 ≠ Ok [ {| yt_timestamp := "00:00"; yt_description := ch_headline chapter_intro |};
                {| yt_timestamp := "01:05"; yt_description := ch_headline chapter_deep |} ].
Proof.
  repeat split; try (vm_compute; reflexivity); vm_compute; discriminate.
Qed.

(** * Further properties of the code *)

(** ** More on the tier configuration *)

(** X1.  The retry function's map from jobs to features is the inverse of
    [FEATURE_TO_JOB_MAP], and every job has a feature: no job escapes the
    plan check of a retry. *)
Theorem jobToFeature_inverts_FEATURE_TO_JOB_MAP :
  (∀ feature job,
     FEATURE_TO_JOB_MAP feature = Some job ↔ jobToFeature job = Some feature)
  ∧ (∀ job, is_Some (jobToFeature job)).
Proof.
  split.
  - intros feature job. destruct feature, job; vm_compute; split; congruence.
  - intros job. destruct job; by eexists.
Qed.

(** X2.  [getMinimumPlanForFeature] gives the least plan that has the feature:
    a plan has a feature exactly when it is at or above that plan. *)
Theorem minimum_plan_characterises_access (plan : PlanName) (feature : FeatureName) :
  planHasFeature plan feature = true
  ↔ plan_rank (getMinimumPlanForFeature feature) ≤ plan_rank plan.
Proof.
  destruct plan, feature; vm_compute; split; intros H; try done; try lia.
Qed.

(** X3.  The job names the workflow launches for a plan are, up to order, the
    jobs that [FEATURE_TO_JOB_MAP] gives for the features of the plan: the
    hard-coded conditions of the workflow agree with the tier
    configuration. *)
Theorem workflow_launches_the_entitled_jobs (plan : PlanName) :
  jobNames_of plan ≡ₚ entitledJobs plan.
Proof.
  destruct plan.
  - reflexivity.
  - reflexivity.
  - change (jobNames_of ultra)
      with ([summary; socialPosts; titles; hashtags] ++ [keyMoments; youtubeTimestamps]).
    change (entitledJobs ultra)
      with ([summary; socialPosts; titles; hashtags] ++ [youtubeTimestamps; keyMoments]).
    apply Permutation_app_head, perm_swap.
Qed.

(** ** The schemas *)

Lemma z_array_string_between_bound lo hi j l :
  z_array_string_between lo hi j = Some l → lo ≤ length l ≤ hi.
Proof.
  unfold z_array_string_between. destruct (z_array_string j) as [l'|]; simpl; [|done].
  destruct (lo <=? length l')%nat eqn:E1; simpl; [|done].
  destruct (length l' <=? hi)%nat eqn:E2; simpl; [|done].
  intros [= <-]. apply Nat.leb_le in E1, E2. lia.
Qed.

Lemma z_array_string_length_bound n j l :
  z_array_string_length n j = Some l → length l = n.
Proof.
  unfold z_array_string_length. destruct (z_array_string j) as [l'|]; simpl; [|done].
  destruct (length l' =? n)%nat eqn:E; [|done].
  intros [= <-]. by apply Nat.eqb_eq.
Qed.

Lemma z_field_Some {A} key (schema : json → option A) props a :
  z_field key schema props = Some a → ∃ j, prop key props = Some j ∧ schema j = Some a.
Proof.
  unfold z_field. destruct (prop key props) as [j|]; simpl; [|done]. eauto.
Qed.

Ltac field_step H :=
  match type of H with
  | (match ?o with Some _ => _ | None => None end) = Some _ =>
      let E := fresh "E" in destruct o eqn:E; [|discriminate H]
  | (?o ≫= _) = Some _ =>
      let E := fresh "E" in destruct o eqn:E; simpl in H; [|discriminate H]
  end.

(** X4.  A value the schemas accept has the declared sizes: 5 to 7 bullets and
    3 to 5 insights in a summary; 3 short, 3 long and 3 podcast titles and
    5 to 10 keywords; 5 YouTube, 6 to 8 Instagram, 5 to 6 TikTok, 5
    LinkedIn and 5 Twitter hashtags; a Twitter post whose [length], in
    UTF-16 code units as [.max(280)] counts it, is at most 280. *)
Theorem schemas_enforce_declared_bounds :
  (∀ j s, summarySchema_parse j = Some s →
     5 ≤ length (bullets s) ≤ 7 ∧ 3 ≤ length (insights s) ≤ 5)
  ∧ (∀ j t, titlesSchema_parse j = Some t →
       length (youtubeShort t) = 3 ∧ length (youtubeLong t) = 3
       ∧ length (podcastTitles t) = 3 ∧ 5 ≤ length (seoKeywords t) ≤ 10)
  ∧ (∀ j h, hashtagsSchema_parse j = Some h →
       length (ht_youtube h) = 5 ∧ 6 ≤ length (ht_instagram h) ≤ 8
       ∧ 5 ≤ length (ht_tiktok h) ≤ 6 ∧ length (ht_linkedin h) = 5
       ∧ length (ht_twitter h) = 5)
  ∧ (∀ j p, socialPostsSchema_parse j = Some p → js_length (sp_twitter p) ≤ 280).
Proof.
  split; [|split; [|split]].
  - intros j s; destruct j as [| | | | |props]; simpl; try done. intros H.
    repeat field_step H. injection H as <-. simpl.
    apply z_field_Some in E0 as (? & _ & ?), E1 as (? & _ & ?).
    split; by eapply z_array_string_between_bound.
  - intros j t; destruct j as [| | | | |props]; simpl; try done. intros H.
    repeat field_step H. injection H as <-. simpl.
    apply z_field_Some in E as (? & _ & ?), E0 as (? & _ & ?),
      E1 as (? & _ & ?), E2 as (? & _ & ?).
    repeat split;
      first [ by eapply z_array_string_length_bound
            | by eapply z_array_string_between_bound ].
  - intros j h; destruct j as [| | | | |props]; simpl; try done. intros H.
    repeat field_step H. injection H as <-. simpl.
    apply z_field_Some in E as (? & _ & ?), E0 as (? & _ & ?),
      E1 as (? & _ & ?), E2 as (? & _ & ?), E3 as (? & _ & ?).
    repeat split;
      first [ by eapply z_array_string_length_bound
            | by eapply z_array_string_between_bound ].
  - apply socialPostsSchema_twitter_bound.
Qed.

Lemma schemas_enforce_declared_bounds_witness :
  5 ≤ length (bullets summary_sample) ≤ 7 ∧ 3 ≤ length (insights summary_sample) ≤ 5.
Proof.
  destruct schemas_enforce_declared_bounds as (H & _).
  apply (H summary_json_sample). reflexivity.
Defined.

Lemma bind_none_r {A B} (o : option A) : o ≫= (λ _ : A, @None B) = None.
Proof. by destruct o. Qed.

(** X5.  The schemas refuse an answer that is not an object, and an object
    that lacks one of the declared keys (shown for the summary and the
    social posts). *)
Theorem schemas_refuse_malformed_answers :
  (∀ j, (∀ props, j ≠ JObj props) →
     summarySchema_parse j = None ∧ titlesSchema_parse j = None
     ∧ socialPostsSchema_parse j = None ∧ hashtagsSchema_parse j = None)
  ∧ (∀ props key, key ∈ ["full"; "bullets"; "insights"; "tldr"]%string →
       prop key props = None → summarySchema_parse (JObj props) = None)
  ∧ (∀ props key, key ∈ ["twitter"; "linkedin"; "instagram"; "tiktok";
                          "youtube"; "facebook"]%string →
       prop key props = None → socialPostsSchema_parse (JObj props) = None).
Proof.
  split; [|split].
  - intros j H; destruct j as [| | | | |props]; try done. by destruct (H props).
  - intros props key Hkey Hnone. simpl. unfold z_field.
    repeat (apply elem_of_cons in Hkey as [->|Hkey];
            [rewrite Hnone; simpl;
             repeat (rewrite bind_none_r
                     || (match goal with
                         | |- context [(?o ≫= ?f) ≫= _] => destruct (o ≫= f); simpl
                         end));
             reflexivity|]).
    by apply elem_of_nil in Hkey.
  - intros props key Hkey Hnone. simpl. unfold z_field.
    repeat (apply elem_of_cons in Hkey as [->|Hkey];
            [rewrite Hnone; simpl;
             repeat (rewrite bind_none_r
                     || (match goal with
                         | |- context [(?o ≫= ?f) ≫= _] => destruct (o ≫= f); simpl
                         end));
             reflexivity|]).
    by apply elem_of_nil in Hkey.
Qed.

Lemma schemas_refuse_malformed_answers_witness :
  summarySchema_parse (JArr []) = None
  ∧ summarySchema_parse (JObj [("full"%string, JStr "x")]) = None.
Proof.
  destruct schemas_refuse_malformed_answers as (H1 & H2 & _). split.
  - apply H1. intros props. discriminate.
  - apply (H2 _ "tldr"%string); [|reflexivity].
    repeat (first [by apply list_elem_of_here | apply list_elem_of_further]).
Defined.

(** ** The generation tasks *)

Ltac run_task_cases env :=
  match goal with
  | |- context [openai_create env ?name] =>
      destruct (openai_create env name) as [?|[| |?]]; simpl
  end.

(** X6.  The four schema-checked tasks always resolve, whatever the
    completion provider does, and make at most one completion call (the
    summary and the titles make none when building the prompt fails). *)
Theorem schema_tasks_never_reject env t w :
  (∃ v w', generateSummary env t w = (Ok v, w')
           ∧ (completions w' = completions w
              ∨ completions w' = completions w ++ ["generate-summary-with-gpt"%string]))
  ∧ (∃ v w', generateSocialPosts env t w = (Ok v, w')
             ∧ completions w' = completions w ++ ["generate-social-posts-with-gpt"%string])
  ∧ (∃ v w', generateTitles env t w = (Ok v, w')
             ∧ (completions w' = completions w
                ∨ completions w' = completions w ++ ["generate-titles-with-gpt"%string]))
  ∧ (∃ v w', generateHashtags env t w = (Ok v, w')
             ∧ completions w' = completions w ++ ["generate-hashtags-with-gpt"%string]).
Proof.
  destruct w as [d c ts cs sn].
  split; [|split; [|split]].
  - unfold generateSummary, buildSummaryPrompt, chapters_length, step_ai_wrap,
      bind, try_catch, log_task, log_completion, await, parse_or, ret, throw.
    simpl. destruct (chapters t); simpl; [|eauto].
    run_task_cases env; eauto.
    destruct (summarySchema_parse _); simpl; eauto.
  - unfold generateSocialPosts, buildSocialPrompt, step_ai_wrap,
      bind, try_catch, log_task, log_completion, await, parse_or, ret, throw.
    simpl. run_task_cases env; eauto.
    destruct (socialPostsSchema_parse _); simpl; eauto.
  - unfold generateTitles, buildTitlesPrompt, chapters_length, step_ai_wrap,
      bind, try_catch, log_task, log_completion, await, parse_or, ret, throw.
    simpl. destruct (chapters t); simpl; [|eauto].
    run_task_cases env; eauto.
    destruct (titlesSchema_parse _); simpl; eauto.
  - unfold generateHashtags, buildHashtagsPrompt, step_ai_wrap,
      bind, try_catch, log_task, log_completion, await, parse_or, ret, throw.
    simpl. run_task_cases env; eauto.
    destruct (hashtagsSchema_parse _); simpl; eauto.
Qed.

(** X7.  Whatever the completion provider answers, the Twitter post that
    [generateSocialPosts] resolves to has a [length] of at most 280 (UTF-16
    code units): a parsed post by the schema, the fallback and the error
    placeholder by their texts. *)
Theorem social_posts_twitter_within_limit env t w :
  ∃ posts w', generateSocialPosts env t w = (Ok posts, w')
              ∧ js_length (sp_twitter posts) ≤ 280.
Proof.
  destruct w as [d c ts cs sn].
  unfold generateSocialPosts, buildSocialPrompt, step_ai_wrap,
    bind, try_catch, log_task, log_completion, await, parse_or, ret, throw.
  simpl. run_task_cases env.
  - eexists _, _. split; [reflexivity|]. vm_compute. lia.
  - eexists _, _. split; [reflexivity|]. vm_compute. lia.
  - eexists _, _. split; [reflexivity|]. vm_compute. lia.
  - destruct (socialPostsSchema_parse _) as [p|] eqn:E; simpl.
    + eexists _, _. split; [reflexivity|].
      apply socialPostsSchema_twitter_bound in E.
      unfold enforce_twitter_limit.
      destruct (280 <? js_length (sp_twitter p))%nat eqn:E'; [|done].
      apply Nat.ltb_lt in E'. lia.
    + eexists _, _. split; [reflexivity|]. vm_compute. lia.
Qed.

(** X8.  Without chapters [generateYouTubeTimestamps] rejects before its
    completion call, and writes nothing. *)
Theorem youtube_timestamps_needs_chapters env t w :
  default [] (chapters t) = [] →
  ∃ w', generateYouTubeTimestamps env t w
        = (Throw (new_Error
             "No chapters available from AssemblyAI. Cannot generate YouTube timestamps."), w')
        ∧ completions w' = completions w ∧ db w' = db w.
Proof.
  intros H. unfold generateYouTubeTimestamps. rewrite H. simpl.
  eexists. split; [reflexivity|]. by destruct w.
Qed.

Lemma youtube_timestamps_needs_chapters_witness :
  (generateYouTubeTimestamps env_titles_partial
     (as_TranscriptWithExtras
        {| st_text := "hello world"; st_segments := []; st_speakers := None;
           st_chapters := None |}) (world_of text_only_project)).1
  = Throw (new_Error
      "No chapters available from AssemblyAI. Cannot generate YouTube timestamps.").
Proof.
  destruct (youtube_timestamps_needs_chapters env_titles_partial
              (as_TranscriptWithExtras
                 {| st_text := "hello world"; st_segments := []; st_speakers := None;
                    st_chapters := None |}) (world_of text_only_project))
    as (w' & Hrun & _).
  - reflexivity.
  - by rewrite Hrun.
Defined.

(** ** The trace of tasks *)

Lemma starts_nothing_ret {A} (a : A) : starts_nothing (ret a).
Proof. by intros w. Qed.
Lemma starts_nothing_throw {A} e : starts_nothing (@throw A e).
Proof. by intros w. Qed.
Lemma starts_nothing_log_completion n : starts_nothing (log_completion n).
Proof. by intros w. Qed.
Lemma starts_nothing_await {A} (c : Call A) : starts_nothing (await c).
Proof. destruct c; by intros w. Qed.

Lemma starts_nothing_bind {A B} (m : M A) (k : A → M B) :
  starts_nothing m → (∀ a, starts_nothing (k a)) → starts_nothing (bind m k).
Proof.
  intros Hm Hk w. unfold bind. specialize (Hm w).
  destruct (m w) as [[a|e] w1]; simpl in *; [|done].
  by rewrite (Hk a w1).
Qed.

Lemma starts_nothing_try_catch {A} (m : M A) h :
  starts_nothing m → (∀ e, starts_nothing (h e)) → starts_nothing (try_catch m h).
Proof.
  intros Hm Hh w. unfold try_catch. specialize (Hm w).
  destruct (m w) as [[a|e] w1]; simpl in *; [done|].
  by rewrite (Hh e w1).
Qed.

Lemma starts_nothing_parse_or {A} (sp : json → option A) fb c :
  starts_nothing (parse_or sp fb c).
Proof. destruct c as [| |j]; simpl; try by intros w. destruct (sp j); by intros w. Qed.

Lemma starts_nothing_chapters_length t : starts_nothing (chapters_length t).
Proof. unfold chapters_length. destruct (chapters t); by intros w. Qed.

Ltac starts_nothing_step :=
  first [ apply starts_nothing_ret | apply starts_nothing_throw
        | apply starts_nothing_log_completion | apply starts_nothing_await
        | apply starts_nothing_parse_or | apply starts_nothing_chapters_length
        | apply starts_nothing_bind; [|intros ?]
        | apply starts_nothing_try_catch; [|intros ?] ].

Lemma starts_only_log_then {A} j (m : M A) :
  starts_nothing m → starts_only j (log_task j ;;; m).
Proof.
  intros Hm w. unfold bind, log_task. simpl.
  specialize (Hm {| db := db w; clock := clock w; tasksStarted := tasksStarted w ++ [j];
                    completions := completions w; sent := sent w |}).
  destruct (m _) as [[a|e] w1]; simpl in *; done.
Qed.

Lemma starts_only_fmapM {A B} j (f : A → B) (m : M A) :
  starts_only j m → starts_only j (fmapM f m).
Proof.
  intros Hm w. unfold fmapM, bind. specialize (Hm w).
  by destruct (m w) as [[a|e] w1].
Qed.

Lemma task_of_starts_only env t j : starts_only j (task_of env t j).
Proof.
  destruct j; apply starts_only_fmapM; apply starts_only_log_then.
  - unfold buildSocialPrompt, step_ai_wrap. repeat starts_nothing_step.
  - unfold buildTitlesPrompt, step_ai_wrap. repeat starts_nothing_step.
  - unfold buildHashtagsPrompt, step_ai_wrap. repeat starts_nothing_step.
  - destruct (generateKeyMoments_impl env t); starts_nothing_step.
  - cbv zeta. case_bool_decide; unfold step_ai_wrap_titles; repeat starts_nothing_step.
  - unfold buildSummaryPrompt, step_ai_wrap. repeat starts_nothing_step.
Qed.

(** The workflow's jobs are the tasks of its job names. *)
Lemma jobs_of_task_of env t plan : jobs_of env t plan = task_of env t <$> jobNames_of plan.
Proof. by destruct plan. Qed.

Lemma settle_starts_only {A} j (m : M A) w :
  starts_only j m →
  ∃ r w1, settle m w = (Ok r, w1) ∧ tasksStarted w1 = tasksStarted w ++ [j].
Proof.
  intros Hm. unfold settle. specialize (Hm w).
  destruct (m w) as [[a|e] w1]; simpl in *; eauto.
Qed.

Lemma Promise_allSettled_trace env t names :
  ∀ w results w',
    Promise_allSettled (task_of env t <$> names) w = (Ok results, w') →
    tasksStarted w' = tasksStarted w ++ names.
Proof.
  induction names as [|j names IH]; intros w results w' H.
  - injection H as _ <-. by rewrite app_nil_r.
  - rewrite fmap_cons in H.
    change (Promise_allSettled (task_of env t j :: (task_of env t <$> names)) w)
      with ((r <- settle (task_of env t j) ;;
             rs <- Promise_allSettled (task_of env t <$> names) ;;
             ret (r :: rs)) w) in H.
    destruct (settle_starts_only j (task_of env t j) w (task_of_starts_only env t j))
      as (r & w1 & Hr & Ht).
    rewrite (bind_ok _ _ _ _ _ Hr) in H. cbv beta in H.
    unfold bind in H.
    destruct (Promise_allSettled (task_of env t <$> names) w1) as [[rs|e'] w2] eqn:E;
      [|discriminate H].
    injection H as _ <-. rewrite (IH _ _ _ E), Ht, <- app_assoc. done.
Qed.

(** ** The transcription stage *)

Lemma toChapter_id c : toChapter c = c.
Proof. by destruct c. Qed.

Lemma fmap_toChapter (l : list AssemblyAIChapter) : toChapter <$> l = l.
Proof. induction l as [|c l IH]; [done|]. by rewrite fmap_cons, toChapter_id, IH. Qed.

Lemma fs_id_imap_formatSegment (l : list AssemblyAISegment) :
  fs_id <$> imap formatSegment l = seq 0 (length l).
Proof.
  rewrite fmap_imap.
  rewrite (imap_ext _ (λ i _, id i) l) by done.
  rewrite (imap_seq_0 l id). by rewrite list_fmap_id.
Qed.

(** X9.  What the transcription stage stores is what a later retry reads
    back: the stored transcript, cast to the type the tasks take, has the
    text, the segments and the chapters of the transcript the stage
    returns, and no utterances; segment ids count from 0; the stage
    leaves the status alone and starts nothing. *)
Theorem transcription_stage_round_trip env w p r :
  db w = Some p →
  assemblyai_transcribe env = Resolves r →
  ar_status r ≠ "error"%string →
  ∃ t st w',
    transcribeWithAssemblyAI env w = (Ok t, w')
    ∧ (db w' ≫= transcript) = Some st
    ∧ text (as_TranscriptWithExtras st) = text t
    ∧ segments (as_TranscriptWithExtras st) = segments t
    ∧ chapters (as_TranscriptWithExtras st) = chapters t
    ∧ utterances (as_TranscriptWithExtras st) = None
    ∧ fs_id <$> segments t = seq 0 (length (default [] (ar_segments r)))
    ∧ (status <$> db w') = Some (status p)
    ∧ tasksStarted w' = tasksStarted w ∧ completions w' = completions w.
Proof.
  intros Hdb Hcall Hst.
  eexists _, _, _. split.
  { unfold transcribeWithAssemblyAI. apply try_catch_ok.
    rewrite Hcall. unfold await. erewrite bind_ok by reflexivity.
    rewrite bool_decide_false by done.
    erewrite bind_ok by (by apply run_saveTranscript).
    reflexivity. }
  simpl. repeat split.
  - by rewrite fmap_toChapter.
  - apply fs_id_imap_formatSegment.
Qed.

Lemma transcription_stage_round_trip_witness :
  ∃ t st w',
    transcribeWithAssemblyAI env_gpt_down (world_of fresh_project) = (Ok t, w')
    ∧ (db w' ≫= transcript) = Some st
    ∧ chapters (as_TranscriptWithExtras st) = chapters t.
Proof.
  destruct (transcription_stage_round_trip env_gpt_down (world_of fresh_project)
              fresh_project response_ok)
    as (t & st & w' & Hrun & Hdb & _ & _ & Hch & _).
  - reflexivity.
  - reflexivity.
  - vm_compute. discriminate.
  - by exists t, st, w'.
Defined.

(** ** The values the fan-out collects *)

Lemma not_in_fst {V} (ps : list (JobName * V)) n v : n ∉ ps.*1 → (n, v) ∈ ps → False.
Proof. intros Hn H. apply Hn. by apply (list_elem_of_fmap_2 fst) in H. Qed.

Lemma lookup_keep_fulfilled {V} (ps : list (JobName * Settled V)) :
  NoDup ps.*1 →
  ∀ acc j v,
    foldl (fun acc nr => keep_fulfilled nr.1 nr.2 acc) acc ps !! j = Some v
    ↔ (j, Fulfilled v) ∈ ps ∨ (acc !! j = Some v ∧ ∀ v', (j, Fulfilled v') ∉ ps).
Proof.
  induction ps as [|[n r] ps IH]; intros Hnd acc j v; simpl.
  - split; [intros H; right; split; [done|intros ?; apply not_elem_of_nil]
           | intros [H|[H _]]; [by apply elem_of_nil in H | done]].
  - apply NoDup_cons in Hnd as [Hn Hnd]. rewrite (IH Hnd). clear IH.
    pose proof (not_in_fst ps n) as Hn'.
    destruct r as [x|e]; simpl.
    + destruct (decide (j = n)) as [->|Hne].
      * rewrite lookup_insert_eq. split.
        -- intros [H|[[= ->] _]]; [|by left; left]. exfalso; eauto.
        -- intros [[[= ->]|H]%elem_of_cons|[_ H]]; [right; split; [done|]| |].
           ++ intros v' ?. eauto.
           ++ exfalso; eauto.
           ++ exfalso. apply (H x). by left.
      * rewrite lookup_insert_ne by done. split.
        -- intros [H|[H1 H2]]; [by left; right | right; split; [done|]].
           intros v' [[= ? ?]|?]%elem_of_cons; [done|]. by eapply H2.
        -- intros [[[= ? ?]|H]%elem_of_cons|[H1 H2]]; [done | by left | right; split; [done|]].
           intros v' ?. apply (H2 v'). by right.
    + split.
      * intros [H|[H1 H2]]; [by left; right|]. right. split; [done|].
        intros v' [[= ? ?]|?]%elem_of_cons. by eapply H2.
      * intros [[[= ? ?]|H]%elem_of_cons|[H1 H2]]; [by left | right; split; [done|]].
        intros v' ?. apply (H2 v'). by right.
Qed.

Lemma lookup_keep_rejected {V} (ps : list (JobName * Settled V)) :
  NoDup ps.*1 →
  ∀ acc j m,
    foldl (fun acc nr => keep_rejected nr.1 nr.2 acc) acc ps !! j = Some m
    ↔ (∃ e, (j, Rejected e) ∈ ps ∧ m = message_or_String e)
      ∨ (acc !! j = Some m ∧ ∀ e, (j, Rejected e) ∉ ps).
Proof.
  induction ps as [|[n r] ps IH]; intros Hnd acc j m; simpl.
  - split; [intros H; right; split; [done|intros ?; apply not_elem_of_nil]
           | intros [[e [H _]]|[H _]]; [by apply elem_of_nil in H | done]].
  - apply NoDup_cons in Hnd as [Hn Hnd]. rewrite (IH Hnd). clear IH.
    pose proof (not_in_fst ps n) as Hn'.
    destruct r as [x|e]; simpl.
    + split.
      * intros [[e [H ->]]|[H1 H2]]; [left; exists e; split; [by right|done]|].
        right. split; [done|].
        intros e' [[= ? ?]|?]%elem_of_cons. by eapply H2.
      * intros [[e [[[= ? ?]|H]%elem_of_cons ->]]|[H1 H2]];
          [left; by exists e | right; split; [done|]].
        intros e' ?. apply (H2 e'). by right.
    + destruct (decide (j = n)) as [->|Hne].
      * rewrite lookup_insert_eq. split.
        -- intros [[e' [H _]]|[[= <-] _]]; [exfalso; eauto|].
           left. exists e. split; [by left|done].
        -- intros [[e' [[[= ->]|H]%elem_of_cons ->]]|[_ H]].
           ++ right. split; [done|]. intros e0 ?. eauto.
           ++ exfalso; eauto.
           ++ exfalso. apply (H e). by left.
      * rewrite lookup_insert_ne by done. split.
        -- intros [[e' [H ->]]|[H1 H2]]; [left; exists e'; split; [by right|done]|].
           right; split; [done|].
           intros e' [[= ? ?]|?]%elem_of_cons; [done|]. by eapply H2.
        -- intros [[e' [[[= ? ?]|H]%elem_of_cons ->]]|[H1 H2]];
             [done | left; by exists e' | right; split; [done|]].
           intros e' ?. apply (H2 e'). by right.
Qed.

Lemma fst_zip_NoDup {A B} (l : list A) (k : list B) : NoDup l → NoDup (zip l k).*1.
Proof.
  intros Hnd. revert k. induction Hnd as [|a l Ha Hnd IH]; intros [|b k]; simpl;
    try apply NoDup_nil_2.
  apply NoDup_cons. split; [|apply IH].
  intros H. apply list_elem_of_fmap_1 in H as ([a' b'] & -> & H).
  apply elem_of_zip_l in H. done.
Qed.

Lemma collect_content_lookup names results j v :
  NoDup names →
  collect_content names results !! j = Some v ↔ (j, Fulfilled v) ∈ zip names results.
Proof.
  intros Hnd. rewrite collect_content_zip.
  rewrite (lookup_keep_fulfilled _ (fst_zip_NoDup _ _ Hnd)).
  rewrite lookup_empty. split; [intros [H|[H _]]; [done|discriminate H] | by left].
Qed.

Lemma collect_errors_lookup names (results : list (Settled Artifact)) j m :
  NoDup names →
  collect_errors names results !! j = Some m
  ↔ ∃ e, (j, Rejected e) ∈ zip names results ∧ m = message_or_String e.
Proof.
  intros Hnd. rewrite collect_errors_zip.
  rewrite (lookup_keep_rejected _ (fst_zip_NoDup _ _ Hnd)).
  rewrite lookup_empty. split; [intros [H|[H _]]; [done|discriminate H] | by left].
Qed.

(** X10.  The two maps the workflow builds from the settled results hold, for a
    duplicate-free list of job names, exactly the fulfilled value of each
    job and the message of each rejection. *)
Theorem fan_out_values (jobNames : list JobName) (results : list (Settled Artifact)) :
  NoDup jobNames →
  (∀ j v, collect_content jobNames results !! j = Some v
          ↔ (j, Fulfilled v) ∈ zip jobNames results)
  ∧ (∀ j m, collect_errors jobNames results !! j = Some m
            ↔ ∃ e, (j, Rejected e) ∈ zip jobNames results ∧ m = message_or_String e).
Proof.
  intros Hnd. split.
  - intros j v. by apply collect_content_lookup.
  - intros j m. by apply collect_errors_lookup.
Qed.

Lemma fan_out_values_witness :
  collect_errors [summary; keyMoments]
    [Fulfilled (ASummary summary_sample); Rejected (new_Error "no chapters")] !! keyMoments
  = Some "no chapters"%string.
Proof.
  destruct (fan_out_values [summary; keyMoments]
              [Fulfilled (ASummary summary_sample); Rejected (new_Error "no chapters")])
    as (_ & H).
  - compute_done.
  - apply H. exists (new_Error "no chapters"). split; [|reflexivity].
    apply list_elem_of_further, list_elem_of_here.
Defined.

(** ** What the tasks of the fan-out resolve to *)

Lemma text_task_returns env t j w :
  j ∈ text_jobs → ∃ a w', task_of env t j w = (Ok a, w') ∧ job_of_artifact a = j.
Proof.
  intros Hj. destruct w as [d c ts cs sn].
  unfold text_jobs in Hj.
  repeat (apply elem_of_cons in Hj as [->|Hj]); [| | | |by apply elem_of_nil in Hj].
  - unfold task_of, fmapM, generateSummary, buildSummaryPrompt, chapters_length,
      step_ai_wrap, bind, try_catch, log_task, log_completion, await, parse_or, ret, throw.
    simpl. destruct (chapters t); simpl; [|eauto].
    run_task_cases env; eauto.
    destruct (summarySchema_parse _); simpl; eauto.
  - unfold task_of, fmapM, generateSocialPosts, buildSocialPrompt, step_ai_wrap,
      bind, try_catch, log_task, log_completion, await, parse_or, ret, throw.
    simpl. run_task_cases env; eauto.
    destruct (socialPostsSchema_parse _); simpl; eauto.
  - unfold task_of, fmapM, generateTitles, buildTitlesPrompt, chapters_length,
      step_ai_wrap, bind, try_catch, log_task, log_completion, await, parse_or, ret, throw.
    simpl. destruct (chapters t); simpl; [|eauto].
    run_task_cases env; eauto.
    destruct (titlesSchema_parse _); simpl; eauto.
  - unfold task_of, fmapM, generateHashtags, buildHashtagsPrompt, step_ai_wrap,
      bind, try_catch, log_task, log_completion, await, parse_or, ret, throw.
    simpl. run_task_cases env; eauto.
    destruct (hashtagsSchema_parse _); simpl; eauto.
Qed.

Lemma task_of_kind env t j w a w' :
  task_of env t j w = (Ok a, w') → job_of_artifact a = j.
Proof.
  destruct j; unfold task_of, fmapM, bind;
    match goal with |- context [?g env t w] => destruct (g env t w) as [[v|e] w1] end;
    simpl; intros [= <- <-]; reflexivity.
Qed.

Lemma task_of_rejects_only_chapter_jobs env t j w e w' :
  task_of env t j w = (Throw e, w') → j ∈ jobsRequiringChapters.
Proof.
  intros H.
  assert (Hcases : j ∈ text_jobs ∨ j ∈ jobsRequiringChapters).
  { destruct j; [left|left|left|right|right|left]; compute_done. }
  destruct Hcases as [Ht|Hc]; [|done].
  destruct (text_task_returns env t j w Ht) as (a & w1 & Hrun & _). congruence.
Qed.

Lemma Promise_allSettled_outcomes env t names :
  ∀ w results w',
    Promise_allSettled (task_of env t <$> names) w = (Ok results, w') →
    Forall2 outcome_of_job names results.
Proof.
  induction names as [|j names IH]; intros w results w' H.
  - injection H as <- _. constructor.
  - rewrite fmap_cons in H.
    change (Promise_allSettled (task_of env t j :: (task_of env t <$> names)) w)
      with ((r <- settle (task_of env t j) ;;
             rs <- Promise_allSettled (task_of env t <$> names) ;;
             ret (r :: rs)) w) in H.
    unfold bind at 1, settle in H.
    destruct (task_of env t j w) as [[a|e] w1] eqn:Ej; unfold bind in H;
      destruct (Promise_allSettled (task_of env t <$> names) w1) as [[rs|e'] w2] eqn:E;
      try discriminate H; injection H as <- _; constructor; eauto.
    + simpl. by eapply task_of_kind.
    + simpl. by eapply task_of_rejects_only_chapter_jobs.
Qed.

(** ** The whole run of the workflow *)

Lemma run_transcribe_stored env w p r :
  db w = Some p →
  assemblyai_transcribe env = Resolves r →
  ar_status r ≠ "error"%string →
  transcribeWithAssemblyAI env w
  = (Ok (transcript_of r), with_db (Some (patch_transcript (stored_of r) (clock w) p)) w).
Proof.
  intros Hdb Hcall Hst. unfold transcribeWithAssemblyAI.
  apply try_catch_ok.
  rewrite Hcall. unfold await. erewrite bind_ok by reflexivity.
  rewrite bool_decide_false by done.
  erewrite bind_ok by (by apply run_saveTranscript).
  reflexivity.
Qed.

Lemma as_of_lookup (g : gmap JobName Artifact) :
  (∀ j a, g !! j = Some a → job_of_artifact a = j) →
  ∀ p j,
    artifact_of
      {| userId := userId p; status := status p; jobStatus := jobStatus p;
         error := error p; jobErrors := jobErrors p; transcript := transcript p;
         p_keyMoments := from_option Some (p_keyMoments p) (as_keyMoments (g !! keyMoments));
         p_summary := from_option Some (p_summary p) (as_summary (g !! summary));
         p_socialPosts := from_option Some (p_socialPosts p) (as_socialPosts (g !! socialPosts));
         p_titles := from_option Some (p_titles p) (as_titles (g !! titles));
         p_hashtags := from_option Some (p_hashtags p) (as_hashtags (g !! hashtags));
         p_youtubeTimestamps :=
           from_option Some (p_youtubeTimestamps p)
             (as_youtubeTimestamps (g !! youtubeTimestamps));
         updatedAt := updatedAt p; completedAt := completedAt p |} j
    = from_option Some (artifact_of p j) (g !! j).
Proof.
  intros Hk p j. specialize (Hk j).
  destruct j; simpl;
    match goal with |- context [g !! ?k] => destruct (g !! k) as [a|] end;
    try reflexivity; specialize (Hk a eq_refl); by destruct a.
Qed.

Lemma podcastProcessor_run env userPlan w p r :
  db w = Some p →
  assemblyai_transcribe env = Resolves r →
  ar_status r ≠ "error"%string →
  let plan := default free userPlan in
  ∃ results wa wb p',
    Promise_allSettled (task_of env (transcript_of r) <$> jobNames_of plan) wa = (Ok results, wb)
    ∧ tasksStarted wa = tasksStarted w ∧ completions wa = completions w
    ∧ clock wb = clock w ∧ sent wb = sent w
    ∧ podcastProcessor env userPlan w = (Ok plan, with_db (Some p') wb)
    ∧ userId p' = userId p
    ∧ transcript p' = Some (stored_of r)
    ∧ jobErrors p'
      = (if (0 <? size (collect_errors (jobNames_of plan) results))%nat
         then Some (collect_errors (jobNames_of plan) results) else jobErrors p)
    ∧ ∀ j, artifact_of p' j
           = from_option Some (artifact_of p j) (collect_content (jobNames_of plan) results !! j).
Proof.
  intros Hdb Hcall Hst plan.
  pose proof (run_updateProjectStatus processing w p Hdb) as H1.
  set (p1 := patch_status _ _ _ p) in H1. set (w1 := with_db (Some p1) w) in H1.
  pose proof (run_updateJobStatus (Some running) None w1 p1 eq_refl) as H2.
  set (p2 := patch_jobStatus _ _ p1) in H2. set (w2 := with_db (Some p2) w1) in H2.
  pose proof (run_transcribe_stored env w2 p2 r eq_refl Hcall Hst) as H3.
  set (p3 := patch_transcript _ _ p2) in H3. set (w3 := with_db (Some p3) w2) in H3.
  pose proof (run_updateJobStatus (Some phase_completed) None w3 p3 eq_refl) as H4.
  set (p4 := patch_jobStatus _ _ p3) in H4. set (w4 := with_db (Some p4) w3) in H4.
  pose proof (run_updateJobStatus None (Some running) w4 p4 eq_refl) as H5.
  set (p5 := patch_jobStatus _ _ p4) in H5. set (w5 := with_db (Some p5) w4) in H5.
  destruct (Promise_allSettled_run (jobs_of env (transcript_of r) plan)
              (quiet_jobs_of _ _ _) w5) as (results & w6 & H6 & Hlen & Hd6 & Hc6 & Hs6).
  set (errs := collect_errors (jobNames_of plan) results).
  set (generated := collect_content (jobNames_of plan) results).
  assert (H7 : ∃ p7, (if (0 <? size errs)%nat then step_run "save-job-errors" (saveJobErrors errs)
                      else ret tt) w6 = (Ok tt, with_db (Some p7) w6)
                     ∧ p7 = (if (0 <? size errs)%nat then patch_jobErrors errs (clock w) p5 else p5)).
  { destruct (0 <? size errs)%nat.
    - eexists; split; [apply run_saveJobErrors; by rewrite Hd6|]. by rewrite Hc6.
    - exists p5; split; [|done]. unfold ret. f_equal.
      destruct w6; simpl in *. by subst. }
  destruct H7 as (p7 & H7 & Hp7).
  set (w7 := with_db (Some p7) w6) in H7.
  pose proof (run_updateJobStatus None (Some phase_completed) w7 p7 eq_refl) as H8.
  set (p8 := patch_jobStatus _ _ p7) in H8. set (w8 := with_db (Some p8) w7) in H8.
  destruct (run_saveResultsToConvex generated w8 p8 eq_refl)
    as (p9 & H9 & Hst9 & Hca9 & Hjs9 & Hje9 & Her9 & Htr9 & Hs & Hsp & Hti & Hha & Hkm & Hyt).
  assert (Huid : userId p9 = userId p).
  { unfold saveResultsToConvex in H9.
    erewrite bind_ok in H9 by (by apply run_saveGeneratedContent).
    erewrite run_updateProjectStatus in H9 by reflexivity.
    injection H9 as H9. rewrite <- H9.
    simpl. subst p8 p7. by destruct (0 <? size errs)%nat. }
  assert (Hkinds : ∀ j a, generated !! j = Some a → job_of_artifact a = j).
  { intros j a Hja. rewrite jobs_of_task_of in H6.
    apply Promise_allSettled_outcomes in H6.
    unfold generated in Hja. rewrite collect_content_zip in Hja.
    apply (lookup_keep_fulfilled _ (fst_zip_NoDup _ results (NoDup_jobNames_of plan)) ∅) in Hja
      as [Hin|[Hin _]]; [|by rewrite lookup_empty in Hin].
    apply list_elem_of_lookup_1 in Hin as [i Hi].
    apply lookup_zip_Some in Hi as [Hi1 Hi2].
    exact (Forall2_lookup_lr _ _ _ _ _ _ H6 Hi1 Hi2). }
  exists results, w5, w6, p9.
  split; [by rewrite <- jobs_of_task_of|].
  split; [reflexivity|]. split; [reflexivity|].
  split; [exact Hc6|]. split; [exact Hs6|].
  split.
  { unfold podcastProcessor. apply try_catch_ok. unfold step_run.
    run_bind H1. run_bind H2. run_bind H3. run_bind H4. run_bind H5.
    fold plan. run_bind H6. fold errs generated.
    run_bind H7. run_bind H8. run_bind H9. reflexivity. }
  split; [exact Huid|].
  split. { rewrite Htr9. subst p8 p7. by destruct (0 <? size errs)%nat. }
  split. { rewrite Hje9. subst p8 p7. fold errs. by destruct (0 <? size errs)%nat. }
  intros j. fold generated.
  rewrite <- (as_of_lookup generated Hkinds p j).
  destruct j; simpl; rewrite ?Hs, ?Hsp, ?Hti, ?Hha, ?Hkm, ?Hyt; subst p8 p7;
    by destruct (0 <? size errs)%nat.
Qed.

Lemma fan_out_of_tasks env t names w results w' :
  NoDup names →
  Promise_allSettled (task_of env t <$> names) w = (Ok results, w') →
  let generated := collect_content names results in
  let errs := collect_errors names results in
  (∀ j, j ∈ names → j ∈ text_jobs → ∃ a, generated !! j = Some a ∧ job_of_artifact a = j)
  ∧ (∀ j a, generated !! j = Some a → j ∈ names ∧ job_of_artifact a = j)
  ∧ (∀ j m, errs !! j = Some m → j ∈ names ∧ j ∈ jobsRequiringChapters)
  ∧ (∀ j, j ∈ names → is_Some (generated !! j) ∨ is_Some (errs !! j)).
Proof.
  intros Hnd Hrun generated errs.
  pose proof (Promise_allSettled_outcomes _ _ _ _ _ _ Hrun) as Hout.
  assert (Hg : ∀ j v, generated !! j = Some v ↔ (j, Fulfilled v) ∈ zip names results)
    by (intros; by apply collect_content_lookup).
  assert (He : ∀ j m, errs !! j = Some m
                      ↔ ∃ e, (j, Rejected e) ∈ zip names results ∧ m = message_or_String e)
    by (intros; by apply collect_errors_lookup).
  assert (Hzip : ∀ j r, (j, r) ∈ zip names results → outcome_of_job j r).
  { intros j r Hin. apply list_elem_of_lookup_1 in Hin as [i Hi].
    apply lookup_zip_Some in Hi as [Hi1 Hi2].
    exact (Forall2_lookup_lr _ _ _ _ _ _ Hout Hi1 Hi2). }
  assert (Hcov : ∀ j, j ∈ names → ∃ r, (j, r) ∈ zip names results).
  { intros j Hj. apply zip_covers; [|done]. symmetry. by eapply Forall2_length. }
  split; [|split; [|split]].
  - intros j Hj Htext. destruct (Hcov j Hj) as [[a|e] Hr].
    + exists a. split; [by apply Hg | exact (Hzip _ _ Hr)].
    + exfalso. pose proof (Hzip _ _ Hr) as Hc. simpl in Hc.
      unfold text_jobs in Htext. unfold jobsRequiringChapters in Hc.
      repeat (apply elem_of_cons in Htext as [->|Htext]);
        try (by apply elem_of_nil in Htext);
        repeat (apply elem_of_cons in Hc as [Hc|Hc]; [discriminate Hc|]);
        by apply elem_of_nil in Hc.
  - intros j a Hja. apply Hg in Hja. split; [by eapply elem_of_zip_l | exact (Hzip _ _ Hja)].
  - intros j m Hjm. apply He in Hjm as (e & Hin & _).
    split; [by eapply elem_of_zip_l | exact (Hzip _ _ Hin)].
  - intros j Hj. destruct (Hcov j Hj) as [[a|e] Hr].
    + left. exists a. by apply Hg.
    + right. eexists. apply He. by exists e.
Qed.

Lemma quiet_task_of env t j : quiet (task_of env t j).
Proof.
  destruct j; apply quiet_fmapM;
    first [ apply quiet_generateSummary | apply quiet_generateSocialPosts
          | apply quiet_generateTitles | apply quiet_generateHashtags
          | apply quiet_generateKeyMoments | apply quiet_generateYouTubeTimestamps ].
Qed.



Lemma hasData_artifact_of p j : hasData p j = true ↔ is_Some (artifact_of p j).
Proof.
  destruct j; simpl; rewrite bool_decide_eq_true, fmap_is_Some; reflexivity.
Qed.

Lemma chapter_jobs_need_ultra plan j :
  j ∈ jobNames_of plan → j ∈ jobsRequiringChapters → plan = ultra.
Proof.
  intros Hj Hc. destruct plan; [exfalso|exfalso|reflexivity];
    unfold jobsRequiringChapters in Hc;
    repeat (apply elem_of_cons in Hc as [->|Hc]); try (by apply elem_of_nil in Hc);
    vm_compute in Hj;
    repeat (apply elem_of_cons in Hj as [Hj|Hj]; [discriminate Hj|]);
    by apply elem_of_nil in Hj.
Qed.

(** X11.  The workflow starts each job of the plan once, in the order of
    [jobNames], and sends no event. *)
Theorem workflow_starts_the_jobs_of_the_plan env userPlan w p r :
  db w = Some p →
  assemblyai_transcribe env = Resolves r →
  ar_status r ≠ "error"%string →
  let plan := default free userPlan in
  ∃ w', podcastProcessor env userPlan w = (Ok plan, w')
        ∧ tasksStarted w' = tasksStarted w ++ jobNames_of plan
        ∧ sent w' = sent w
        ∧ (db w' ≫= transcript) = Some (stored_of r)
        ∧ (userId <$> db w') = Some (userId p).
Proof.
  intros Hdb Hcall Hst plan.
  destruct (podcastProcessor_run env userPlan w p r Hdb Hcall Hst)
    as (results & wa & wb & p' & Hfan & Hta & _ & _ & Hs & Hrun & Hu & Htr & _).
  fold plan in Hfan, Hrun.
  eexists. split; [exact Hrun|]. simpl.
  apply Promise_allSettled_trace in Hfan.
  rewrite Hfan, Hta, Htr, Hu. done.
Qed.

Lemma workflow_starts_the_jobs_of_the_plan_witness :
  ∃ w', podcastProcessor env_gpt_down (Some pro) (world_of fresh_project) = (Ok pro, w')
        ∧ tasksStarted w' = [summary; socialPosts; titles; hashtags].
Proof.
  destruct (workflow_starts_the_jobs_of_the_plan env_gpt_down (Some pro)
              (world_of fresh_project) fresh_project response_ok)
    as (w' & Hrun & Ht & _).
  - reflexivity.
  - reflexivity.
  - vm_compute. discriminate.
  - exists w'. split; [exact Hrun | exact Ht].
Defined.

(** X12.  What a completed run leaves in the project: every schema-checked
    job of the plan has its artifact, of the job's kind; a job of the plan
    that needs chapters has its artifact or an entry in [jobErrors]; the
    artifacts of jobs outside the plan are as they were; an entry of
    [jobErrors] is an old one or belongs to a job that needs chapters on
    the ultra plan, so below ultra [jobErrors] is never written. *)
Theorem workflow_saves_what_the_tasks_return env userPlan w p r :
  db w = Some p →
  assemblyai_transcribe env = Resolves r →
  ar_status r ≠ "error"%string →
  let plan := default free userPlan in
  ∃ w' p',
    podcastProcessor env userPlan w = (Ok plan, w') ∧ db w' = Some p'
    ∧ (∀ j, j ∈ jobNames_of plan → j ∈ text_jobs →
            ∃ a, artifact_of p' j = Some a ∧ job_of_artifact a = j)
    ∧ (∀ j, j ∈ jobNames_of plan → j ∈ jobsRequiringChapters →
            hasData p' j = true ∨ is_Some (jobErrors p' ≫= (.!! j)))
    ∧ (∀ j, j ∉ jobNames_of plan → artifact_of p' j = artifact_of p j)
    ∧ (∀ j m, jobErrors p' ≫= (.!! j) = Some m →
              jobErrors p ≫= (.!! j) = Some m
              ∨ (plan = ultra ∧ j ∈ jobsRequiringChapters))
    ∧ (plan ≠ ultra → jobErrors p' = jobErrors p).
Proof.
  intros Hdb Hcall Hst plan.
  destruct (podcastProcessor_run env userPlan w p r Hdb Hcall Hst)
    as (results & wa & wb & p' & Hfan & _ & _ & _ & _ & Hrun & _ & _ & Hje & Hart).
  fold plan in Hfan, Hrun, Hje, Hart.
  destruct (fan_out_of_tasks _ _ _ _ _ _ (NoDup_jobNames_of plan) Hfan)
    as (Htext & Hgen & Herr & Hcov).
  set (generated := collect_content (jobNames_of plan) results) in *.
  set (errs := collect_errors (jobNames_of plan) results) in *.
  assert (Hsize : (0 <? size errs)%nat = false → errs = ∅).
  { intros H. apply Nat.ltb_ge in H. apply map_size_empty_iff. lia. }
  exists (with_db (Some p') wb), p'. split; [exact Hrun|]. split; [reflexivity|].
  split; [|split; [|split; [|split]]].
  - intros j Hj Ht. destruct (Htext j Hj Ht) as (a & Ha & Hk).
    exists a. by rewrite Hart, Ha.
  - intros j Hj Hc. destruct (Hcov j Hj) as [[a Ha]|[m Hm]].
    + left. apply hasData_artifact_of. rewrite Hart, Ha. by eexists.
    + right. rewrite Hje. destruct (0 <? size errs)%nat eqn:E.
      * simpl. by eexists.
      * rewrite (Hsize eq_refl) in Hm. by rewrite lookup_empty in Hm.
  - intros j Hj. rewrite Hart. destruct (generated !! j) as [a|] eqn:E; [|done].
    exfalso. apply Hj. by destruct (Hgen j a E).
  - intros j m. rewrite Hje. destruct (0 <? size errs)%nat; [|by left].
    simpl. intros Hm. right. destruct (Herr j m Hm) as [Hj Hc].
    split; [by eapply chapter_jobs_need_ultra | done].
  - intros Hplan. rewrite Hje. destruct (0 <? size errs)%nat eqn:E; [|done].
    exfalso. apply Nat.ltb_lt in E.
    destruct (map_choose errs) as (j & m & Hjm).
    { intros ->. rewrite map_size_empty in E. lia. }
    destruct (Herr j m Hjm) as [Hj Hc].
    apply Hplan. by eapply chapter_jobs_need_ultra.
Qed.

Lemma workflow_saves_what_the_tasks_return_witness :
  ∃ w' p',
    podcastProcessor env_gpt_down (Some pro) (world_of fresh_project) = (Ok pro, w')
    ∧ db w' = Some p'
    ∧ is_Some (artifact_of p' hashtags)
    ∧ artifact_of p' keyMoments = None
    ∧ jobErrors p' = None.
Proof.
  destruct (workflow_saves_what_the_tasks_return env_gpt_down (Some pro)
              (world_of fresh_project) fresh_project response_ok)
    as (w' & p' & Hrun & Hdb & Htext & _ & Hout & _ & Hje).
  - reflexivity.
  - reflexivity.
  - vm_compute. discriminate.
  - exists w', p'. split; [exact Hrun|]. split; [exact Hdb|]. split; [|split].
    + destruct (Htext hashtags) as (a & Ha & _); [compute_done | compute_done |].
      by exists a.
    + rewrite Hout; [reflexivity | compute_done].
    + rewrite Hje; [reflexivity | discriminate].
Defined.

(** X13.  The plan the bulk retry action infers from a project that the
    workflow has just completed, starting from no artifact: never above
    the plan of the run, the plan itself for free and pro, and below ultra
    only when both tasks that need chapters were rejected. *)
Theorem inferred_plan_after_a_run env userPlan w p r :
  db w = Some p →
  assemblyai_transcribe env = Resolves r →
  ar_status r ≠ "error"%string →
  no_artifacts p →
  let plan := default free userPlan in
  ∃ w' p',
    podcastProcessor env userPlan w = (Ok plan, w') ∧ db w' = Some p'
    ∧ plan_rank (inferOriginalPlan p') ≤ plan_rank plan
    ∧ (plan ≠ ultra → inferOriginalPlan p' = plan)
    ∧ (plan = ultra → inferOriginalPlan p' ≠ ultra →
       inferOriginalPlan p' = pro
       ∧ is_Some (jobErrors p' ≫= (.!! keyMoments))
       ∧ is_Some (jobErrors p' ≫= (.!! youtubeTimestamps))).
Proof.
  intros Hdb Hcall Hst Hfresh plan.
  destruct (podcastProcessor_run env userPlan w p r Hdb Hcall Hst)
    as (results & wa & wb & p' & Hfan & _ & _ & _ & _ & Hrun & _ & _ & Hje & Hart).
  fold plan in Hfan, Hrun, Hje, Hart.
  destruct (fan_out_of_tasks _ _ _ _ _ _ (NoDup_jobNames_of plan) Hfan)
    as (Htext & Hgen & Herr & Hcov).
  set (generated := collect_content (jobNames_of plan) results) in *.
  set (errs := collect_errors (jobNames_of plan) results) in *.
  assert (Hin : ∀ j, j ∈ jobNames_of plan → j ∈ text_jobs → hasData p' j = true).
  { intros j Hj Ht. destruct (Htext j Hj Ht) as (a & Ha & _).
    apply hasData_artifact_of. rewrite Hart, Ha. by eexists. }
  assert (Hout : ∀ j, j ∉ jobNames_of plan → hasData p' j = false).
  { intros j Hj. apply not_true_is_false. rewrite hasData_artifact_of, Hart.
    destruct (generated !! j) as [a|] eqn:E.
    - exfalso. apply Hj. by destruct (Hgen j a E).
    - simpl. rewrite <- hasData_artifact_of. by rewrite Hfresh. }
  assert (Hch : ∀ j, j ∈ jobNames_of plan → hasData p' j = false →
                     is_Some (jobErrors p' ≫= (.!! j))).
  { intros j Hj Hno. destruct (Hcov j Hj) as [[a Ha]|[m Hm]].
    - exfalso. apply not_true_iff_false in Hno. apply Hno.
      apply hasData_artifact_of. rewrite Hart, Ha. by eexists.
    - rewrite Hje. destruct (0 <? size errs)%nat eqn:E; [simpl; by eexists|].
      apply Nat.ltb_ge in E. assert (errs = ∅) as Hempty by (apply map_size_empty_iff; lia).
      rewrite Hempty in Hm. by rewrite lookup_empty in Hm. }
  exists (with_db (Some p') wb), p'. split; [exact Hrun|]. split; [reflexivity|].
  unfold inferOriginalPlan. clearbody plan. clear Hrun Hfan.
  destruct plan.
  - rewrite !Hout by compute_done. simpl. repeat split; done.
  - rewrite (Hout keyMoments), (Hout youtubeTimestamps) by compute_done.
    rewrite (Hin socialPosts) by compute_done. simpl. repeat split; done.
  - rewrite (Hin socialPosts) by compute_done.
    destruct (hasData p' keyMoments) eqn:Ek, (hasData p' youtubeTimestamps) eqn:Ey;
      simpl; try (repeat split; first [done | congruence]).
    split; [lia|]. split; [done|]. intros _ _.
    split; [done|]. split; apply Hch; first [compute_done | done].
Qed.

Lemma inferred_plan_after_a_run_witness :
  ∃ w' p',
    podcastProcessor env_gpt_down (Some pro) (world_of fresh_project) = (Ok pro, w')
    ∧ db w' = Some p' ∧ inferOriginalPlan p' = pro.
Proof.
  destruct (inferred_plan_after_a_run env_gpt_down (Some pro)
              (world_of fresh_project) fresh_project response_ok)
    as (w' & p' & Hrun & Hdb & _ & Hplan & _).
  - reflexivity.
  - reflexivity.
  - vm_compute. discriminate.
  - intros j. by destruct j.
  - exists w', p'. split; [exact Hrun|]. split; [exact Hdb|]. by apply Hplan.
Defined.

(** X14.  The workflow on a project document that does not exist: the first
    patch is refused, the cleanup's own record is refused too, and the
    world is left as it was. *)
Theorem workflow_on_a_missing_project env userPlan w :
  db w = None →
  ∃ e, podcastProcessor env userPlan w = (Throw e, w).
Proof.
  intros Hdb. destruct w as [d c ts cs sn]. simpl in Hdb. subst d.
  eexists. reflexivity.
Qed.

Lemma workflow_on_a_missing_project_witness :
  ∃ e, podcastProcessor env_gpt_down (Some ultra)
         {| db := None; clock := 5; tasksStarted := []; completions := []; sent := [] |}
       = (Throw e, {| db := None; clock := 5; tasksStarted := []; completions := [];
                      sent := [] |}).
Proof.
  apply (workflow_on_a_missing_project env_gpt_down (Some ultra)
           {| db := None; clock := 5; tasksStarted := []; completions := []; sent := [] |}).
  reflexivity.
Defined.

(** ** More on the retry function *)

Lemma regenerate_as_task env t job w :
  regenerate env t job w
  = (a <- task_of env t job ;; saveGeneratedContent (content_of a)) w.
Proof.
  destruct job; unfold regenerate, task_of, fmapM, step_run, bind;
    match goal with |- context [?g env t w] => destruct (g env t w) as [[v|e] w1] end;
    reflexivity.
Qed.

Lemma artifact_of_patch_content a now p :
  artifact_of (patch_content (content_of a) now p) (job_of_artifact a) = Some a
  ∧ ∀ j, j ≠ job_of_artifact a →
         artifact_of (patch_content (content_of a) now p) j = artifact_of p j.
Proof.
  split; [by destruct a|]. intros j Hj. destruct a, j; done.
Qed.

(** The run of a retry that passes its preconditions. *)
Lemma retry_run env job originalPlan currentPlan w p st :
  job ∈ entitledJobs (default free currentPlan) →
  db w = Some p → transcript p = Some st → st_text st ≠ ""%string →
  (job ∈ jobsRequiringChapters → default [] (st_chapters st) ≠ []) →
  ∃ w1,
    tasksStarted w1 = tasksStarted w ++ [job] ∧ sent w1 = sent w
    ∧ ((∃ a, task_of env (as_TranscriptWithExtras st) job w = (Ok a, w1)
             ∧ job_of_artifact a = job
             ∧ retryJobFunction env job originalPlan currentPlan w
               = (Ok job,
                  with_db (Some (patch_jobErrors (delete job (default ∅ (jobErrors p)))
                                   (clock w)
                                   (patch_content (content_of a) (clock w) p))) w1))
       ∨ (∃ e, task_of env (as_TranscriptWithExtras st) job w = (Throw e, w1)
               ∧ job ∈ jobsRequiringChapters
               ∧ retryJobFunction env job originalPlan currentPlan w
                 = (Throw e,
                    with_db (Some (patch_jobErrors {[ job := message_or "Unknown error" e ]}
                                     (clock w) p)) w1))).
Proof.
  intros Hent Hdb Htr Htext Hch.
  assert (Heq : retryJobFunction env job originalPlan currentPlan w
                = try_catch
                    (regenerate env (as_TranscriptWithExtras st) job ;;;
                     step_run "clear-job-error"
                       (saveJobErrors (delete job (default ∅ (jobErrors p)))) ;;;
                     ret job)
                    (fun error => saveJobErrors {[ job := message_or "Unknown error" error ]} ;;;
                                  throw error) w).
  { unfold retryJobFunction.
    apply entitled_iff_planHasFeature in Hent. rewrite Hent.
    unfold bind at 1, getProject, db_get. rewrite Hdb. simpl. rewrite Htr. simpl.
    rewrite bool_decide_false.
    2:{ destruct (st_text st); [done|]. simpl. lia. }
    assert (Hguard : bool_decide (job ∈ jobsRequiringChapters)
                     && bool_decide (length (default [] (st_chapters st)) = 0) = false).
    { case_bool_decide as Hj; [|done]. simpl. apply bool_decide_false.
      specialize (Hch Hj). by destruct (default [] (st_chapters st)). }
    rewrite Hguard. reflexivity. }
  rewrite Heq. clear Heq.
  set (t := as_TranscriptWithExtras st).
  pose proof (task_of_starts_only env t job w) as Hts.
  destruct (quiet_task_of env t job w) as (Hd & Hc & Hs).
  destruct (task_of env t job w) as [[a|e] w1] eqn:Etask; simpl in Hts, Hd, Hc, Hs;
    exists w1; (split; [exact Hts|]); (split; [exact Hs|]).
  - left. exists a. split; [reflexivity|].
    pose proof (task_of_kind _ _ _ _ _ _ Etask) as Hk. split; [exact Hk|].
    assert (Hreg : regenerate env t job w
                   = (Ok tt, with_db (Some (patch_content (content_of a) (clock w) p)) w1)).
    { rewrite regenerate_as_task. rewrite (bind_ok _ _ _ _ _ Etask).
      rewrite (run_saveGeneratedContent _ w1 p) by (by rewrite Hd). by rewrite Hc. }
    apply try_catch_ok. run_bind Hreg. unfold step_run.
    erewrite bind_ok by (apply run_saveJobErrors; reflexivity).
    simpl. by rewrite Hc.
  - right. exists e. split; [reflexivity|].
    split; [by eapply task_of_rejects_only_chapter_jobs|].
    assert (Hreg : regenerate env t job w = (Throw e, w1)).
    { rewrite regenerate_as_task. by rewrite (bind_throw _ _ _ _ _ Etask). }
    erewrite try_catch_throw by (rewrite (bind_throw _ _ _ _ _ Hreg); reflexivity).
    erewrite bind_ok by (apply run_saveJobErrors; by rewrite Hd).
    simpl. by rewrite Hc.
Qed.

(** X15.  A retry that passes its preconditions starts its task once and
    rewrites the artifact of its own job at most: every other artifact,
    the transcript, the status, the project-level error and the owner are
    as they were, and no event is sent.  It fails only for a job that
    needs chapters, and then leaves its own artifact alone too. *)
Theorem retry_rewrites_only_its_own_artifact env job originalPlan currentPlan w p st :
  job ∈ entitledJobs (default free currentPlan) →
  db w = Some p → transcript p = Some st → st_text st ≠ ""%string →
  (job ∈ jobsRequiringChapters → default [] (st_chapters st) ≠ []) →
  let run := retryJobFunction env job originalPlan currentPlan w in
  ∃ p',
    db run.2 = Some p'
    ∧ (∀ j, j ≠ job → artifact_of p' j = artifact_of p j)
    ∧ transcript p' = transcript p ∧ status p' = status p
    ∧ error p' = error p ∧ userId p' = userId p ∧ completedAt p' = completedAt p
    ∧ tasksStarted run.2 = tasksStarted w ++ [job]
    ∧ sent run.2 = sent w
    ∧ match run.1 with
      | Ok job' =>
          job' = job ∧ ∃ a, artifact_of p' job = Some a ∧ job_of_artifact a = job
      | Throw e =>
          job ∈ jobsRequiringChapters ∧ artifact_of p' job = artifact_of p job
      end.
Proof.
  intros Hent Hdb Htr Htext Hch run.
  destruct (retry_run env job originalPlan currentPlan w p st Hent Hdb Htr Htext Hch)
    as (w1 & Hts & Hs & [(a & _ & Hk & Hrun)|(e & _ & Hc & Hrun)]);
    subst run; rewrite Hrun; simpl.
  - eexists. split; [reflexivity|]. simpl.
    destruct (artifact_of_patch_content a (clock w) p) as [Hown Hother].
    rewrite Hk in Hown, Hother.
    split; [|do 7 (split; [done|]); split; [done|]].
    + intros j Hj. rewrite <- (Hother j Hj). by destruct j.
    + exists a. split; [|done]. rewrite <- Hown. by destruct job.
  - eexists. split; [reflexivity|]. simpl.
    split; [|do 7 (split; [done|]); split; [done|]].
    + intros j Hj. by destruct j.
    + by destruct job.
Qed.

Lemma retry_rewrites_only_its_own_artifact_witness :
  ∃ p',
    db (retryJobFunction env_gpt_down socialPosts (Some free) (Some pro)
          (world_of text_only_project)).2 = Some p'
    ∧ artifact_of p' summary = artifact_of text_only_project summary
    ∧ status p' = status text_only_project.
Proof.
  destruct (retry_rewrites_only_its_own_artifact env_gpt_down socialPosts (Some free)
              (Some pro) (world_of text_only_project) text_only_project
              {| st_text := "hello world"; st_segments := [];
                 st_speakers := Some []; st_chapters := Some [] |})
    as (p' & Hdb & Hother & _ & Hst & _).
  - vm_compute. repeat (first [by apply list_elem_of_here | apply list_elem_of_further]).
  - reflexivity.
  - reflexivity.
  - vm_compute. discriminate.
  - vm_compute. intros H.
    repeat (apply elem_of_cons in H as [H|H]; [discriminate H|]).
    by apply elem_of_nil in H.
  - exists p'. split; [exact Hdb|]. split; [|exact Hst].
    apply Hother. discriminate.
Defined.



(** X17.  A stored transcript whose text is empty is refused before anything
    is generated or written, for every job and plan that pass the
    plan check. *)
Theorem retry_refuses_an_empty_transcript env job originalPlan currentPlan w p st :
  job ∈ entitledJobs (default free currentPlan) →
  db w = Some p → transcript p = Some st → st_text st = ""%string →
  retryJobFunction env job originalPlan currentPlan w
  = (Throw (new_Error
       "Cannot generate content: transcript text is empty. Please re-upload the file."), w).
Proof.
  intros Hent Hdb Htr Htext. unfold retryJobFunction.
  apply entitled_iff_planHasFeature in Hent. rewrite Hent.
  unfold bind, getProject, db_get. rewrite Hdb. simpl. rewrite Htr. simpl.
  rewrite Htext. reflexivity.
Qed.

Lemma retry_refuses_an_empty_transcript_witness :
  retryJobFunction env_gpt_down summary (Some free) (Some free) (world_of empty_text_project)
  = (Throw (new_Error
       "Cannot generate content: transcript text is empty. Please re-upload the file."),
     world_of empty_text_project).
Proof.
  apply (retry_refuses_an_empty_transcript env_gpt_down summary (Some free) (Some free)
           (world_of empty_text_project) empty_text_project
           {| st_text := ""; st_segments := [];
              st_speakers := Some []; st_chapters := Some [] |}).
  - vm_compute. repeat (first [by apply list_elem_of_here | apply list_elem_of_further]).
  - reflexivity.
  - reflexivity.
  - reflexivity.
Defined.

(** ** More on the bulk retry action *)

(** X18.  The guards of the action: without a signed-in user, on a missing
    project, or on a project of another user, it throws and the world is
    as it was, so nothing is sent. *)
Theorem generateMissingFeatures_guards a w :
  let run := generateMissingFeatures a w in
  (auth_userId a = None ∨ auth_userId a = Some ""%string →
   run = (Throw (new_Error "Unauthorized"), w))
  ∧ (∀ uid, auth_userId a = Some uid → uid ≠ ""%string → db w = None →
       run = (Throw (new_Error "Project not found"), w))
  ∧ (∀ uid p, auth_userId a = Some uid → uid ≠ ""%string →
       db w = Some p → userId p ≠ uid →
       run = (Throw (new_Error "Unauthorized - not your project"), w)).
Proof.
  intros run. subst run. unfold generateMissingFeatures. split; [|split].
  - intros [->| ->]; reflexivity.
  - intros uid -> Hne Hdb. rewrite bool_decide_false by done.
    unfold bind, getProject, db_get. by rewrite Hdb.
  - intros uid p -> Hne Hdb Hown. rewrite bool_decide_false by done.
    unfold bind, getProject, db_get. rewrite Hdb.
    by rewrite bool_decide_false by done.
Qed.

Lemma generateMissingFeatures_guards_witness :
  generateMissingFeatures auth_other (world_of text_only_project)
  = (Throw (new_Error "Unauthorized - not your project"), world_of text_only_project).
Proof.
  destruct (generateMissingFeatures_guards auth_other (world_of text_only_project))
    as (_ & _ & H).
  apply (H "user_2"%string text_only_project).
  - reflexivity.
  - vm_compute. discriminate.
  - reflexivity.
  - vm_compute. discriminate.
Defined.

(** X19.  Every event the action sends is one the retry function accepts at
    its plan check: its job is entitled by the current plan it carries;
    it is for an artifact the project lacks, and carries the caller's id,
    the caller's current plan and the plan inferred from the project. *)
Theorem bulk_retry_events_pass_the_plan_check a w p uid :
  auth_userId a = Some uid → uid ≠ ""%string →
  db w = Some p → userId p = uid →
  ∃ events,
    sent (generateMissingFeatures a w).2 = sent w ++ events
    ∧ ∀ ev, ev ∈ events →
        ev_job ev ∈ entitledJobs (ev_currentPlan ev)
        ∧ match jobToFeature (ev_job ev) with
          | Some feature => negb (planHasFeature (ev_currentPlan ev) feature)
          | None => false
          end = false
        ∧ hasData p (ev_job ev) = false
        ∧ ev_userId ev = uid
        ∧ ev_currentPlan ev = currentPlan_of a
        ∧ ev_originalPlan ev = inferOriginalPlan p.
Proof.
  intros Hu Hne Hdb Hown.
  set (plan := currentPlan_of a).
  set (missing := filter (lacks p) (entitledJobs plan)).
  set (mk := fun job => {| ev_job := job; ev_userId := uid;
                           ev_originalPlan := inferOriginalPlan p;
                           ev_currentPlan := plan |}).
  assert (Heq : generateMissingFeatures a w
                = (if bool_decide (length missing = 0)
                   then throw (new_Error
                     "No missing features to generate. All features for your plan are already available.")
                   else
                     Promise_all_map (fun job => inngest_send (mk job)) missing ;;;
                     ret missing) w).
  { unfold generateMissingFeatures. rewrite Hu.
    rewrite bool_decide_false by done.
    unfold bind at 1, getProject, db_get. rewrite Hdb.
    rewrite bool_decide_true by done. simpl negb. cbv iota.
    rewrite missing_loop_filter. reflexivity. }
  rewrite Heq. clear Heq.
  assert (Hev : ∀ ev, ev ∈ mk <$> missing →
                ev_job ev ∈ entitledJobs (ev_currentPlan ev)
                ∧ match jobToFeature (ev_job ev) with
                  | Some feature => negb (planHasFeature (ev_currentPlan ev) feature)
                  | None => false
                  end = false
                ∧ hasData p (ev_job ev) = false
                ∧ ev_userId ev = uid
                ∧ ev_currentPlan ev = plan
                ∧ ev_originalPlan ev = inferOriginalPlan p).
  { intros ev Hin. apply list_elem_of_fmap_1 in Hin as (j & -> & Hj). simpl.
    unfold missing in Hj. apply list_elem_of_filter in Hj as [Hl He].
    split; [done|]. split; [by apply entitled_iff_planHasFeature|]. done. }
  case_bool_decide as Hm.
  - exists []. split; [by rewrite app_nil_r|]. intros ev H. by apply elem_of_nil in H.
  - exists (mk <$> missing). split; [|exact Hev].
    destruct (Promise_all_map_send mk missing w) as (w' & Hsend & Hs & _).
    rewrite (bind_ok _ _ _ _ _ Hsend). simpl. exact Hs.
Qed.

Lemma bulk_retry_events_pass_the_plan_check_witness :
  ∃ events,
    sent (generateMissingFeatures auth_pro (world_of text_only_project)).2
    = sent (world_of text_only_project) ++ events
    ∧ ∀ ev, ev ∈ events → ev_job ev ∈ entitledJobs (ev_currentPlan ev).
Proof.
  destruct (bulk_retry_events_pass_the_plan_check auth_pro
              (world_of text_only_project) text_only_project "user_1"%string)
    as (events & Hs & Hev).
  - reflexivity.
  - vm_compute. discriminate.
  - reflexivity.
  - reflexivity.
  - exists events. split; [exact Hs|]. intros ev H. by destruct (Hev ev H).
Defined.

(** ** Upload limits *)

Lemma plan_of_has_cases has :
  plan_of_has has = free ∨ plan_of_has has = pro ∨ plan_of_has has = ultra.
Proof. destruct (plan_of_has has); auto. Qed.

Lemma active_count_le_total table u :
  getUserProjectCount table u false ≤ getUserProjectCount table u true.
Proof. unfold getUserProjectCount. apply length_filter. Qed.

(** When the check lets an upload through. *)
Lemma checkUploadLimits_allowed has table u fileSize dur :
  let plan := plan_of_has has in
  uv_allowed (checkUploadLimits has table u fileSize dur) = true
  ↔ (fileSize <= maxFileSize (PLAN_LIMITS plan))%N
    ∧ duration_exceeds dur (maxDuration (PLAN_LIMITS plan)) = false
    ∧ match maxProjects (PLAN_LIMITS plan) with
      | Some maxp =>
          (N.of_nat (getUserProjectCount table u (bool_decide (plan = free))) < maxp)%N
      | None => True
      end.
Proof.
  intros plan. unfold checkUploadLimits. fold plan.
  destruct (maxFileSize (PLAN_LIMITS plan) <? fileSize)%N eqn:Ef; simpl.
  { apply N.ltb_lt in Ef. split; [done | intros [H _]; lia]. }
  apply N.ltb_ge in Ef.
  destruct (duration_exceeds dur (maxDuration (PLAN_LIMITS plan))) eqn:Ed; simpl.
  { split; [done | intros (_ & H & _); done]. }
  destruct (maxProjects (PLAN_LIMITS plan)) as [maxp|]; [|done].
  destruct (maxp <=? _)%N eqn:Ep; simpl.
  - apply N.leb_le in Ep. split; [done | intros (_ & _ & H); lia].
  - apply N.leb_gt in Ep. done.
Qed.

Lemma duration_exceeds_mono dur m1 m2 :
  match m1, m2 with
  | Some a, Some b => (0 < a <= b)%N
  | _, None => True
  | None, Some _ => False
  end →
  duration_exceeds dur m1 = false → duration_exceeds dur m2 = false.
Proof.
  unfold duration_exceeds. destruct dur as [d|], m1 as [a|], m2 as [b|]; try done.
  intros Hab. destruct (d =? 0)%N eqn:E0; simpl; [done|].
  destruct (a =? 0)%N eqn:Ea, (b =? 0)%N eqn:Eb; simpl; try done.
  - apply N.eqb_eq in Ea. lia.
  - rewrite !N.ltb_ge. lia.
Qed.

(** X20.  An upload the check allows on a plan is allowed on every higher
    plan, for the same table, file and duration: the size and duration
    limits grow with the plan, and the project count a higher plan looks
    at (active projects) is never above the one a free plan looks at
    (all projects). *)
Theorem upload_limits_monotone_in_plan has1 has2 table u fileSize dur :
  plan_rank (plan_of_has has1) ≤ plan_rank (plan_of_has has2) →
  uv_allowed (checkUploadLimits has1 table u fileSize dur) = true →
  uv_allowed (checkUploadLimits has2 table u fileSize dur) = true.
Proof.
  intros Hrank. rewrite !checkUploadLimits_allowed.
  pose proof (active_count_le_total table u) as Hcount.
  intros (Hf & Hd & Hp).
  destruct (plan_of_has has1), (plan_of_has has2); simpl in *; try lia;
    (split; [lia|]); (split; [by eapply duration_exceeds_mono; [|exact Hd]|]);
    try done; lia.
Qed.

Lemma upload_limits_monotone_in_plan_witness :
  uv_allowed (checkUploadLimits (Some (fun _ => true)) [] "user_1" (5 * MB)%N (Some 300%N))
  = true.
Proof.
  apply (upload_limits_monotone_in_plan None (Some (fun _ => true))).
  - vm_compute. lia.
  - reflexivity.
Defined.

Ltac upload_cases :=
  repeat split; intros; unfold upload_allowed in *; simpl in *;
  repeat match goal with
         | H : _ ∧ _ |- _ => destruct H
         | H : ∃ _, _ |- _ => destruct H
         | H : is_Some None |- _ => destruct H as [? H]; discriminate H
         end;
  simplify_eq; try done; try lia; try (by eexists); try (by eexists _, _).

(** X21.  A refusal names its cause and carries a message, the causes are tried
    in the order size, duration, project count, and the count and the
    limit are reported exactly for the last one, where the count has
    reached the limit of the plan. *)
Theorem upload_refusal_is_explained has table u fileSize dur :
  let plan := plan_of_has has in
  let result := checkUploadLimits has table u fileSize dur in
  (uv_allowed result = false ↔ is_Some (uv_reason result))
  ∧ (is_Some (uv_reason result) ↔ is_Some (uv_message result))
  ∧ (uv_reason result = Some file_size ↔ (maxFileSize (PLAN_LIMITS plan) < fileSize)%N)
  ∧ (uv_reason result = Some duration ↔
       (fileSize <= maxFileSize (PLAN_LIMITS plan))%N
       ∧ duration_exceeds dur (maxDuration (PLAN_LIMITS plan)) = true)
  ∧ (uv_reason result = Some project_limit ↔
       ∃ count maxp, uv_currentCount result = Some count ∧ uv_limit result = Some maxp)
  ∧ (∀ count maxp, uv_currentCount result = Some count → uv_limit result = Some maxp →
       maxProjects (PLAN_LIMITS plan) = Some maxp
       ∧ count = getUserProjectCount table u (bool_decide (plan = free))
       ∧ (maxp <= N.of_nat count)%N).
Proof.
  intros plan result. subst result. unfold checkUploadLimits. fold plan.
  destruct (maxFileSize (PLAN_LIMITS plan) <? fileSize)%N eqn:Ef; simpl.
  { apply N.ltb_lt in Ef. upload_cases. }
  apply N.ltb_ge in Ef.
  destruct (duration_exceeds dur (maxDuration (PLAN_LIMITS plan))) eqn:Ed; simpl.
  { upload_cases. }
  destruct (maxProjects (PLAN_LIMITS plan)) as [maxp|] eqn:Em; [|upload_cases].
  destruct (maxp <=? _)%N eqn:Ep; simpl; [|upload_cases].
  apply N.leb_le in Ep. upload_cases.
Qed.

(** X22.  On the ultra plan only the file size can refuse an upload. *)
Theorem ultra_is_refused_only_for_file_size has table u fileSize dur :
  plan_of_has has = ultra →
  (uv_allowed (checkUploadLimits has table u fileSize dur) = true
   ↔ (fileSize <= 3 * 1024 * MB)%N)
  ∧ (uv_allowed (checkUploadLimits has table u fileSize dur) = false →
     uv_reason (checkUploadLimits has table u fileSize dur) = Some file_size).
Proof.
  intros Hplan. split.
  - rewrite checkUploadLimits_allowed. rewrite Hplan. simpl.
    unfold duration_exceeds. destruct dur; split; try done; by intros (? & _).
  - unfold checkUploadLimits. rewrite Hplan. simpl.
    destruct (_ <? fileSize)%N; [done|].
    unfold duration_exceeds. by destruct dur.
Qed.

Lemma ultra_is_refused_only_for_file_size_witness :
  uv_allowed (checkUploadLimits (Some (fun _ => true)) [] "user_1" (2048 * MB)%N
                (Some 100000%N)) = true.
Proof.
  apply (ultra_is_refused_only_for_file_size (Some (fun _ => true)) [] "user_1"
           (2048 * MB)%N (Some 100000%N)).
  - reflexivity.
  - vm_compute. discriminate.
Defined.

(** ** Deleting a project and the project counts *)

Lemma deleteProject_table now projectId u table url table' :
  deleteProject now projectId u table = (Ok url, table') →
  ∃ project,
    table !! projectId = Some project ∧ userId (doc project) = u
    ∧ url = inputUrl project
    ∧ table = take projectId table ++ project :: drop (S projectId) table
    ∧ table' = take projectId table
               ++ {| doc := patch_updatedAt now (doc project);
                     inputUrl := inputUrl project; deletedAt := Some now |}
               :: drop (S projectId) table.
Proof.
  unfold deleteProject. destruct (table !! projectId) as [project|] eqn:E; [|done].
  case_bool_decide as Hu; simpl; [|done].
  intros [= <- <-]. exists project. repeat split; try done.
  - by rewrite take_drop_middle.
  - apply insert_take_drop. by eapply lookup_lt_Some.
Qed.

(** X23.  A soft delete never lowers the count a free plan is checked against,
    so it cannot turn a refused upload of a free user into an allowed one;
    the count of active projects, which a pro plan is checked against,
    drops by one when an active project is deleted. *)
Theorem soft_delete_and_the_project_counts now projectId u table url table' :
  deleteProject now projectId u table = (Ok url, table') →
  (∀ v, getUserProjectCount table' v true = getUserProjectCount table v true)
  ∧ (∀ has fileSize dur,
       plan_of_has has = free →
       checkUploadLimits has table' u fileSize dur
       = checkUploadLimits has table u fileSize dur)
  ∧ (∀ v, v ≠ u →
       getUserProjectCount table' v false = getUserProjectCount table v false)
  ∧ (∀ project, table !! projectId = Some project →
       not_deleted project = true → now ≠ 0%Z →
       S (getUserProjectCount table' u false) = getUserProjectCount table u false).
Proof.
  intros Hdel.
  destruct (deleteProject_table _ _ _ _ _ _ Hdel)
    as (project & Hlook & Hown & _ & Htable & ->).
  set (project' := {| doc := patch_updatedAt now (doc project);
                      inputUrl := inputUrl project; deletedAt := Some now |}).
  assert (Htotal : ∀ v, getUserProjectCount
                          (take projectId table ++ project' :: drop (S projectId) table) v true
                        = getUserProjectCount table v true).
  { intros v. rewrite Htable at 3. unfold getUserProjectCount.
    rewrite !filter_app, !filter_cons, !length_app. simpl.
    destruct (decide (userId (doc project) = v)); reflexivity. }
  split; [exact Htotal|]. split; [|split].
  - intros has fileSize dur Hplan. unfold checkUploadLimits. rewrite Hplan. cbv zeta.
    rewrite !(bool_decide_true (free = free)) by done.
    by rewrite Htotal.
  - intros v Hv. rewrite Htable at 3. unfold getUserProjectCount.
    rewrite !filter_app, !filter_cons. simpl.
    rewrite !decide_False by congruence. reflexivity.
  - intros project0 Hlook0 Hactive Hnow.
    assert (project0 = project) as -> by congruence.
    rewrite Htable at 3. unfold getUserProjectCount.
    rewrite !filter_app, !filter_cons. simpl.
    rewrite !decide_True by done.
    rewrite ?filter_app, ?filter_cons, ?length_app.
    rewrite (decide_True (P := not_deleted project = true)) by done.
    rewrite (decide_False (P := not_deleted project' = true)).
    2:{ unfold not_deleted. simpl. by rewrite bool_decide_false. }
    simpl. lia.
Qed.

Lemma soft_delete_and_the_project_counts_witness :
  getUserProjectCount (deleteProject 3000 0 "user_1" sample_table).2 "user_1" true = 4
  ∧ S (getUserProjectCount (deleteProject 3000 0 "user_1" sample_table).2 "user_1" false)
    = getUserProjectCount sample_table "user_1" false.
Proof.
  destruct (soft_delete_and_the_project_counts 3000 0 "user_1" sample_table
              "https://blob/a.mp3" (deleteProject 3000 0 "user_1" sample_table).2)
    as (Htotal & _ & _ & Hactive).
  - reflexivity.
  - split.
    + rewrite Htotal. reflexivity.
    + apply (Hactive {| doc := text_only_project; inputUrl := "https://blob/a.mp3";
                        deletedAt := None |}).
      * reflexivity.
      * reflexivity.
      * lia.
Defined.

(** ** The upload validation action *)

Lemma refusal_has_message has table u fileSize dur :
  uv_allowed (checkUploadLimits has table u fileSize dur) = false →
  is_Some (uv_message (checkUploadLimits has table u fileSize dur)).
Proof.
  unfold checkUploadLimits.
  destruct (_ <? fileSize)%N; simpl; [by eexists|].
  destruct (duration_exceeds _ _); simpl; [by eexists|].
  destruct (maxProjects _) as [maxp|]; [|done].
  destruct (maxp <=? _)%N; simpl; [by eexists | done].
Qed.

(** X24.  The action succeeds exactly for a signed-in user whose upload the
    limit check allows; every failure carries an error message, and a
    refusal of the check is reported with the check's own message. *)
Theorem validateUploadAction_reports_the_check a table fileSize dur :
  let result := validateUploadAction a table fileSize dur in
  (result.1 = false ↔ is_Some result.2)
  ∧ (result.1 = true ↔
       ∃ uid, auth_userId a = Some uid ∧ uid ≠ ""%string
              ∧ uv_allowed (checkUploadLimits (auth_has a) table uid fileSize dur) = true)
  ∧ (∀ uid, auth_userId a = Some uid → uid ≠ ""%string →
       uv_allowed (checkUploadLimits (auth_has a) table uid fileSize dur) = false →
       result.2 = uv_message (checkUploadLimits (auth_has a) table uid fileSize dur)).
Proof.
  intros result. subst result. unfold validateUploadAction.
  destruct (auth_userId a) as [uid|]; simpl.
  2:{ split; [|split]; [split; [by eexists | done] | | done].
      split; [done | by intros (? & ? & _)]. }
  case_bool_decide as Hu; simpl.
  { split; [|split]; [split; [by eexists | done] | |].
    - split; [done|]. intros (uid' & [= <-] & Hne & _). done.
    - intros uid' [= <-] Hne. done. }
  destruct (uv_allowed (checkUploadLimits (auth_has a) table uid fileSize dur)) eqn:E; simpl.
  - split; [|split]; [split; [done | by intros [? ?]] | |].
    + split; [by exists uid | done].
    + intros uid' [= <-] _. rewrite E. done.
  - split; [|split]; [split; [intros _; by apply refusal_has_message | done] | |].
    + split; [done|]. intros (uid' & [= <-] & _ & H). congruence.
    + by intros uid' [= <-] _ _.
Qed.

Lemma validateUploadAction_reports_the_check_witness :
  (validateUploadAction auth_pro sample_table (5 * MB)%N None).1 = true.
Proof.
  destruct (validateUploadAction_reports_the_check auth_pro sample_table (5 * MB)%N None)
    as (_ & H & _).
  apply H. exists "user_1"%string. split; [reflexivity|]. split; [|reflexivity].
  vm_compute. discriminate.
Defined.

Lemma upload_refusal_is_explained_witness :
  uv_reason (checkUploadLimits None sample_table "user_1" (5 * MB)%N None)
  = Some project_limit.
Proof.
  destruct (upload_refusal_is_explained None sample_table "user_1" (5 * MB)%N None)
    as (_ & _ & _ & _ & H & _).
  apply H. exists 4, 3%N. split; reflexivity.
Defined.

(** ** Timestamps and durations *)

Lemma string_length_app (s1 s2 : string) :
  String.length (s1 ++ s2) = String.length s1 + String.length s2.
Proof. induction s1 as [|c s1 IH]; simpl; [done|]. by rewrite IH. Qed.

Lemma below_100_cases (P : N → Prop) :
  (∀ k, k ∈ seq 0 100 → P (N.of_nat k)) → ∀ n, (n < 100)%N → P n.
Proof.
  intros H n Hn. rewrite <- (N2Nat.id n). apply H.
  apply elem_of_seq. lia.
Qed.

Lemma padStart2_length n : (n < 100)%N → String.length (padStart2 (String_of_N n)) = 2.
Proof.
  revert n. apply below_100_cases. intros k Hk.
  assert (Hall : forallb (fun k => String.length (padStart2 (String_of_N (N.of_nat k))) =? 2)
                   (seq 0 100) = true) by (vm_compute; reflexivity).
  rewrite forallb_forall in Hall. apply Nat.eqb_eq, Hall.
  by apply list_elem_of_In.
Qed.

Lemma padStart2_one_digit n :
  (n < 10)%N → padStart2 (String_of_N n) = ("0" ++ String_of_N n)%string.
Proof.
  intros Hn. revert n Hn. 
  assert (Hall : forallb (fun k => String.eqb (padStart2 (String_of_N (N.of_nat k)))
                                     ("0" ++ String_of_N (N.of_nat k))%string)
                   (seq 0 10) = true) by (vm_compute; reflexivity).
  rewrite forallb_forall in Hall.
  intros n Hn. rewrite <- (N2Nat.id n). apply String.eqb_eq, Hall.
  apply list_elem_of_In, elem_of_seq. lia.
Qed.

Lemma padStart2_two_digits n :
  (10 <= n < 100)%N → padStart2 (String_of_N n) = String_of_N n.
Proof.
  intros Hn.
  assert (Hall : forallb (fun k => String.eqb (padStart2 (String_of_N (N.of_nat k)))
                                     (String_of_N (N.of_nat k)))
                   (seq 10 90) = true) by (vm_compute; reflexivity).
  rewrite forallb_forall in Hall.
  rewrite <- (N2Nat.id n). apply String.eqb_eq, Hall.
  apply list_elem_of_In, elem_of_seq. lia.
Qed.

Lemma minutes_seconds_bounds (seconds : N) :
  ((seconds mod 3600) / 60 < 60)%N ∧ (seconds mod 60 < 60)%N.
Proof.
  split; [|apply N.mod_lt; lia].
  apply N.Div0.div_lt_upper_bound. pose proof (N.mod_lt seconds 3600). lia.
Qed.

(** X25.  The minutes and seconds fields always have two digits: a timestamp
    below one hour without forced hours is five characters long whatever
    [padHours] says, and one below a hundred hours with padded, forced
    hours is eight characters long. *)
Theorem formatTimestamp_shape (seconds : N) (padHours : bool) :
  ((seconds < 3600)%N → String.length (formatTimestamp seconds padHours false) = 5)
  ∧ ((seconds < 360000)%N → String.length (formatTimestamp seconds true true) = 8)
  ∧ ((seconds < 3600)%N →
     formatTimestamp seconds padHours false = formatTimestamp seconds true false).
Proof.
  destruct (minutes_seconds_bounds seconds) as [Hm Hs].
  assert (Hsmall : (seconds < 3600)%N → (0 <? seconds / 3600)%N = false).
  { intros H. apply N.ltb_ge. rewrite N.div_small by done. lia. }
  split; [|split].
  - intros H. unfold formatTimestamp. rewrite (Hsmall H). simpl.
    rewrite !string_length_app, !padStart2_length by lia. reflexivity.
  - intros H. unfold formatTimestamp. rewrite orb_true_r.
    rewrite !string_length_app, !padStart2_length; [reflexivity|lia|lia|].
    apply N.Div0.div_lt_upper_bound. lia.
  - intros H. unfold formatTimestamp. by rewrite (Hsmall H).
Qed.

Lemma formatTimestamp_shape_witness :
  String.length (formatTimestamp 65 false false) = 5.
Proof.
  destruct (formatTimestamp_shape 65 false) as (H & _).
  apply H. lia.
Defined.

(** X26.  [formatDuration] against [formatTimestamp] without padded or forced
    hours: the two agree from ten minutes on, and below ten minutes the
    timestamp is the duration with a leading zero. *)
Theorem formatDuration_against_formatTimestamp (seconds : N) :
  ((600 <= seconds)%N → formatDuration seconds = formatTimestamp seconds false false)
  ∧ ((seconds < 600)%N →
     formatTimestamp seconds false false = ("0" ++ formatDuration seconds)%string).
Proof.
  destruct (minutes_seconds_bounds seconds) as [Hm Hs].
  unfold formatDuration, formatTimestamp. rewrite orb_false_r. split.
  - intros H. destruct (0 <? seconds / 3600)%N eqn:E; [reflexivity|].
    apply N.ltb_ge in E. assert (seconds / 3600 = 0)%N as E0 by (by apply N.le_0_r).
    apply N.div_small_iff in E0; [|lia].
    rewrite (padStart2_two_digits ((seconds mod 3600) / 60)); [reflexivity|].
    rewrite N.mod_small by done. split.
    + apply N.div_le_lower_bound; lia.
    + apply N.Div0.div_lt_upper_bound. lia.
  - intros H. assert ((0 <? seconds / 3600)%N = false) as ->.
    { apply N.ltb_ge. rewrite N.div_small by lia. lia. }
    rewrite (padStart2_one_digit ((seconds mod 3600) / 60)); [reflexivity|].
    rewrite N.mod_small by lia. apply N.Div0.div_lt_upper_bound. lia.
Qed.

Lemma formatDuration_against_formatTimestamp_witness :
  formatDuration 3665 = formatTimestamp 3665 false false.
Proof.
  destruct (formatDuration_against_formatTimestamp 3665) as (H & _).
  apply H. lia.
Defined.

(** ** Creating a project *)

Lemma createProjectAction_checks_Ok a fileUrl fileName fileSize fileDuration table uid :
  createProjectAction_checks a fileUrl fileName fileSize fileDuration table = Ok uid
  ↔ auth_userId a = Some uid ∧ uid ≠ ""%string
    ∧ fileUrl ≠ ""%string ∧ fileName ≠ ""%string
    ∧ uv_allowed (checkUploadLimits (auth_has a) table uid fileSize fileDuration) = true.
Proof.
  unfold createProjectAction_checks.
  destruct (auth_userId a) as [uid'|] eqn:Eu.
  2:{ split; [done | by intros (? & _)]. }
  case_bool_decide as Hu.
  { split; [done|]. intros ([= <-] & ? & _). done. }
  case_bool_decide as Hurl; simpl.
  { split; [done|]. intros (_ & _ & ? & _). done. }
  case_bool_decide as Hname; simpl.
  { split; [done|]. intros (_ & _ & _ & ? & _). done. }
  destruct (uv_allowed (checkUploadLimits (auth_has a) table uid' fileSize fileDuration))
    eqn:E; simpl.
  - split; [by intros [= <-] | by intros ([= <-] & _)].
  - split; [done|]. intros ([= <-] & _ & _ & _ & H). congruence.
Qed.

Lemma createProjectAction_checks_validated a fileUrl fileName fileSize fileDuration table :
  (∃ uid, createProjectAction_checks a fileUrl fileName fileSize fileDuration table = Ok uid)
  ↔ (validateUploadAction a table fileSize fileDuration).1 = true
    ∧ fileUrl ≠ ""%string ∧ fileName ≠ ""%string.
Proof.
  split.
  - intros [uid (Hu & Hne & Hurl & Hname & Hok)%createProjectAction_checks_Ok].
    split; [|done]. unfold validateUploadAction. rewrite Hu.
    rewrite bool_decide_false by done. by rewrite Hok.
  - intros (Hv & Hurl & Hname). unfold validateUploadAction in Hv.
    destruct (auth_userId a) as [uid|] eqn:Eu; [|done].
    case_bool_decide; [done|]. exists uid.
    apply createProjectAction_checks_Ok. rewrite Eu.
    destruct (uv_allowed _) eqn:E; done.
Qed.

(** The run of the action, by the outcome of its checks and of its send. *)
Lemma createProjectAction_run a now send fileUrl fileName fileSize fileDuration table :
  let run := createProjectAction a now send fileUrl fileName fileSize fileDuration table in
  match createProjectAction_checks a fileUrl fileName fileSize fileDuration table with
  | Throw e => run = (Throw e, table)
  | Ok uid =>
      let table' := table ++ [{| doc := new_project uid now; inputUrl := fileUrl;
                                 deletedAt := None |}] in
      match send with
      | Rejects e => run = (Throw e, table')
      | Resolves _ =>
          run = (Ok {| up_projectId := length table; up_userId := uid;
                       up_plan := plan_of_has (auth_has a); up_fileUrl := fileUrl |},
                 table')
      end
  end.
Proof.
  intros run. subst run. unfold createProjectAction.
  destruct (createProjectAction_checks _ _ _ _ _ _) as [uid|e]; [|reflexivity].
  simpl. by destruct send.
Qed.

Lemma snoc_not_same {A} (l : list A) x : l ++ [x] ≠ l.
Proof. intros H. apply (f_equal length) in H. rewrite length_app in H. simpl in H. lia. Qed.

(** X27.  The action inserts a project exactly when the caller is signed
    in, names the file and its URL, and passes the limit check that
    [validateUploadAction] reports: the project is new, belongs to the
    caller, has status [uploaded] and no artifact.  It succeeds exactly
    when, after that, the send resolves; the event then carries the id
    of the project and the plan the check was made for.  A failure that
    leaves a project behind is a rejected send, rethrown as it is. *)
Theorem createProjectAction_creates_what_validation_allows
    a now send fileUrl fileName fileSize fileDuration table :
  let run := createProjectAction a now send fileUrl fileName fileSize fileDuration table in
  let validated := (validateUploadAction a table fileSize fileDuration).1 = true
                   ∧ fileUrl ≠ ""%string ∧ fileName ≠ ""%string in
  (run.2 = table ↔ ¬ validated)
  ∧ ((∃ ev, run.1 = Ok ev) ↔ validated ∧ ∃ x, send = Resolves x)
  ∧ (∀ e, run.1 = Throw e → run.2 ≠ table → send = Rejects e)
  ∧ (validated →
     ∃ project,
       run.2 = table ++ [project]
       ∧ auth_userId a = Some (userId (doc project))
       ∧ inputUrl project = fileUrl
       ∧ status (doc project) = uploaded
       ∧ no_artifacts (doc project)
       ∧ not_deleted project = true
       ∧ ∀ ev, run.1 = Ok ev →
           run.2 !! up_projectId ev = Some project
           ∧ up_userId ev = userId (doc project)
           ∧ up_plan ev = currentPlan_of a
           ∧ up_fileUrl ev = fileUrl).
Proof.
  intros run validated.
  pose proof (createProjectAction_run a now send fileUrl fileName fileSize fileDuration table)
    as Hrun.
  pose proof (createProjectAction_checks_validated a fileUrl fileName fileSize fileDuration
                table) as Hval.
  fold validated in Hval. cbv zeta in Hrun. fold run in Hrun.
  destruct (createProjectAction_checks a fileUrl fileName fileSize fileDuration table)
    as [uid|e] eqn:Hchecks.
  - assert (Hv : validated) by (apply Hval; by exists uid).
    apply createProjectAction_checks_Ok in Hchecks as (Hu & _).
    destruct send as [e|x]; rewrite Hrun; simpl.
    + split; [|split; [|split]].
      * split; [intros H; by apply snoc_not_same in H | done].
      * split; [by intros [? ?] | by intros (_ & ? & ?)].
      * by intros e' [= <-] _.
      * intros _. eexists. split; [reflexivity|]. simpl.
        split; [done|]. split; [done|]. split; [done|].
        split; [intros j; by destruct j|]. split; [done|].
        intros ev H. discriminate H.
    + split; [|split; [|split]].
      * split; [intros H; by apply snoc_not_same in H | done].
      * split; [intros _; split; [done | by exists x] | by eexists].
      * done.
      * intros _. eexists. split; [reflexivity|]. simpl.
        split; [done|]. split; [done|]. split; [done|].
        split; [intros j; by destruct j|]. split; [done|].
        intros ev [= <-]. simpl. split; [|done].
        by rewrite lookup_app_r, Nat.sub_diag.
  - assert (Hv : ¬ validated).
    { intros [uid Huid]%Hval. congruence. }
    rewrite Hrun. simpl. split; [|split; [|split]].
    + done.
    + split; [by intros [? ?] | by intros (? & _)].
    + done.
    + done.
Qed.

Lemma createProjectAction_creates_what_validation_allows_witness :
  (createProjectAction auth_pro 3000 (Rejects (new_Error "Inngest is down"))
     "https://blob/e.mp3" "e.mp3" (5 * MB)%N None sample_table).2
  = sample_table ++ [{| doc := new_project "user_1" 3000; inputUrl := "https://blob/e.mp3";
                        deletedAt := None |}].
Proof.
  destruct (createProjectAction_creates_what_validation_allows auth_pro 3000
              (Rejects (new_Error "Inngest is down"))
              "https://blob/e.mp3" "e.mp3" (5 * MB)%N None sample_table)
    as (_ & _ & _ & H).
  destruct H as (project & Htable & _).
  - split; [reflexivity|]. split; vm_compute; discriminate.
  - reflexivity.
Defined.

(** X28.  From the upload to the tasks: when the action creates a project and
    the workflow then runs on that document with the plan of the event,
    a transcription that succeeds is followed by exactly the tasks the
    uploader's plan entitles, each started once. *)
Theorem upload_to_tasks a now send fileUrl fileName fileSize fileDuration table ev env w r :
  (createProjectAction a now send fileUrl fileName fileSize fileDuration table).1 = Ok ev →
  db w = doc <$> (createProjectAction a now send fileUrl fileName fileSize fileDuration
                    table).2 !! up_projectId ev →
  tasksStarted w = [] →
  assemblyai_transcribe env = Resolves r →
  ar_status r ≠ "error"%string →
  ∃ w', podcastProcessor env (Some (up_plan ev)) w = (Ok (currentPlan_of a), w')
        ∧ tasksStarted w' ≡ₚ entitledJobs (currentPlan_of a)
        ∧ NoDup (tasksStarted w')
        ∧ (status <$> db w') = Some completed
        ∧ (userId <$> db w') = auth_userId a.
Proof.
  intros Hev Hdb Hts Hcall Hst.
  pose proof (createProjectAction_run a now send fileUrl fileName fileSize fileDuration table)
    as Hrun. cbv zeta in Hrun.
  destruct (createProjectAction_checks a fileUrl fileName fileSize fileDuration table)
    as [uid|e] eqn:Hchecks; [|by rewrite Hrun in Hev].
  apply createProjectAction_checks_Ok in Hchecks as (Hu & _).
  destruct send as [e|x]; rewrite Hrun in Hev, Hdb; simpl in Hev, Hdb; [done|].
  injection Hev as <-. simpl in *.
  rewrite lookup_app_r, Nat.sub_diag in Hdb by done. simpl in Hdb.
  destruct (podcastProcessor_run env (Some (plan_of_has (auth_has a))) w _ r Hdb Hcall Hst)
    as (results & wa & wb & p' & Hfan & Hta & _ & _ & _ & Hwf & Huid & _).
  change (default free (Some (plan_of_has (auth_has a))))
    with (plan_of_has (auth_has a)) in Hfan, Hwf.
  destruct (podcastProcessor_after_transcription env (Some (plan_of_has (auth_has a)))
              w _ r Hdb Hcall Hst)
    as (results2 & wa2 & wb2 & w2 & p2 & _ & _ & Hwf2 & Hdb2 & Hst2 & _).
  change (default free (Some (plan_of_has (auth_has a))))
    with (plan_of_has (auth_has a)) in Hwf2.
  rewrite Hwf in Hwf2. injection Hwf2 as <-. simpl in Hdb2.
  injection Hdb2 as <-.
  change (currentPlan_of a) with (plan_of_has (auth_has a)).
  eexists. split; [exact Hwf|]. simpl.
  apply Promise_allSettled_trace in Hfan. rewrite Hfan, Hta, Hts, app_nil_l.
  split; [|split; [|split]].
  - destruct (plan_of_has (auth_has a)).
    + reflexivity.
    + reflexivity.
    + change (jobNames_of ultra)
        with ([summary; socialPosts; titles; hashtags] ++ [keyMoments; youtubeTimestamps]).
      change (entitledJobs ultra)
        with ([summary; socialPosts; titles; hashtags] ++ [youtubeTimestamps; keyMoments]).
      apply Permutation_app_head, perm_swap.
  - apply NoDup_jobNames_of.
  - by rewrite Hst2.
  - by rewrite Huid, Hu.
Qed.

Lemma upload_to_tasks_witness :
  ∃ w', podcastProcessor env_gpt_down (Some pro) (world_of (new_project "user_1" 3000))
        = (Ok pro, w')
        ∧ tasksStarted w' ≡ₚ entitledJobs pro.
Proof.
  destruct (upload_to_tasks auth_pro 3000 (Resolves tt) "https://blob/e.mp3" "e.mp3"
              (5 * MB)%N None sample_table
              {| up_projectId := 4; up_userId := "user_1"; up_plan := pro;
                 up_fileUrl := "https://blob/e.mp3" |}
              env_gpt_down (world_of (new_project "user_1" 3000)) response_ok)
    as (w' & Hrun & Hperm & _).
  - reflexivity.
  - reflexivity.
  - reflexivity.
  - reflexivity.
  - vm_compute. discriminate.
  - exists w'. split; [exact Hrun | exact Hperm].
Defined.

(** ** The quota of the free plan *)

Lemma deleteProject_total_count now projectId v table u :
  getUserProjectCount (deleteProject now projectId v table).2 u true
  = getUserProjectCount table u true.
Proof.
  destruct (deleteProject now projectId v table) as [[url|e] table'] eqn:E.
  - destruct (deleteProject_table _ _ _ _ _ _ E)
      as (project & _ & _ & _ & Htable & ->).
    simpl. rewrite Htable at 3. unfold getUserProjectCount.
    rewrite !filter_app, !filter_cons, !length_app. simpl.
    destruct (decide (userId (doc project) = u)); reflexivity.
  - unfold deleteProject in E. destruct (table !! projectId); [|by injection E as _ <-].
    destruct (negb _); [by injection E as _ <-|done].
Qed.

Lemma total_count_snoc table project u :
  getUserProjectCount (table ++ [project]) u true
  = getUserProjectCount table u true
    + (if bool_decide (userId (doc project) = u) then 1 else 0).
Proof.
  unfold getUserProjectCount. rewrite filter_app, length_app. f_equal.
  rewrite filter_cons, filter_nil. case_bool_decide.
  - by rewrite decide_True.
  - by rewrite decide_False.
Qed.

Lemma pending_count_snoc (l : list PendingUpload) x u :
  length (filter (fun y => pu_userId y = u) (l ++ [x]))
  = length (filter (fun y => pu_userId y = u) l)
    + (if bool_decide (pu_userId x = u) then 1 else 0).
Proof.
  rewrite filter_app, length_app. f_equal.
  rewrite filter_cons, filter_nil. case_bool_decide.
  - by rewrite decide_True.
  - by rewrite decide_False.
Qed.

Lemma pending_count_delete (l : list PendingUpload) i x u :
  l !! i = Some x →
  length (filter (fun y => pu_userId y = u) (delete i l))
  + (if bool_decide (pu_userId x = u) then 1 else 0)
  = length (filter (fun y => pu_userId y = u) l).
Proof.
  intros Hi. rewrite <- (take_drop_middle l i x Hi) at 2.
  rewrite delete_take_drop.
  rewrite !filter_app, filter_cons, !length_app. case_bool_decide.
  - rewrite decide_True by done. simpl. lia.
  - rewrite decide_False by done. lia.
Qed.

Lemma pending_count_none (l : list PendingUpload) u :
  Forall (fun x => pu_userId x ≠ u) l → length (filter (fun y => pu_userId y = u) l) = 0.
Proof.
  induction 1 as [|x l Hx _ IH]; [done|].
  rewrite filter_cons, decide_False by done. exact IH.
Qed.

(** In any interleaving the documents of a user never become fewer. *)
Lemma server_step_total u serial s s' :
  server_step u serial s s' → total_of u s ≤ total_of u s'.
Proof.
  destruct 1 as [a fileUrl fileName fileSize fileDuration uid Hchecks Hfree Hserial
                |now i x Hi
                |now projectId v]; unfold total_of; cbn [projects].
  - done.
  - unfold createProject. cbn [snd]. rewrite total_count_snoc. lia.
  - by rewrite deleteProject_total_count.
Qed.

(** When the uploads of [u] do not overlap, the documents of [u] and the
    upload of [u] under way stay within the three of the free plan. *)
Lemma server_step_quota u s s' :
  server_step u true s s' →
  total_of u s + pending_of u s ≤ 3 → total_of u s' + pending_of u s' ≤ 3.
Proof.
  destruct 1 as [a fileUrl fileName fileSize fileDuration uid Hchecks Hfree Hserial
                |now i x Hi
                |now projectId v]; unfold total_of, pending_of; cbn [projects pending].
  - rewrite pending_count_snoc. cbn [pu_userId]. case_bool_decide as Hu; [|lia].
    apply createProjectAction_checks_Ok in Hchecks as (_ & _ & _ & _ & Hok).
    apply checkUploadLimits_allowed in Hok as (_ & _ & Hcount).
    rewrite (Hfree Hu) in Hcount. cbn [PLAN_LIMITS maxProjects] in Hcount.
    rewrite (bool_decide_true (free = free)) in Hcount by done.
    rewrite (pending_count_none _ _ (Hserial eq_refl Hu)). subst uid. lia.
  - unfold createProject. cbn [snd]. rewrite total_count_snoc.
    cbn [doc new_project userId].
    pose proof (pending_count_delete (pending s) i x u Hi). lia.
  - rewrite deleteProject_total_count. lia.
Qed.

(** X29.  The three-project limit of the free plan and uploads that
    overlap.  Deleting never gives a slot back: in any interleaving the
    documents of a user, deleted ones included, never become fewer.  As
    long as the user starts an upload only when none of their own is
    between its checks and its insert, the documents and the upload under
    way stay within three.  The checks and the insert being separate
    calls, with nothing checked again at the insert, uploads that overlap
    get past the limit: four of them, started on an empty table before any
    has inserted, leave four documents. *)
Theorem free_quota_and_overlapping_uploads u :
  (∀ serial s s', server_steps u serial s s' → total_of u s ≤ total_of u s')
  ∧ (∀ s s', server_steps u true s s' →
       total_of u s + pending_of u s ≤ 3 →
       total_of u s' + pending_of u s' ≤ 3)
  ∧ (u ≠ ""%string →
     ∃ s', server_steps u false {| projects := []; pending := [] |} s'
           ∧ pending s' = [] ∧ total_of u s' = 4).
Proof.
  split; [|split].
  - intros serial s s'. induction 1 as [s|s1 s2 s3 Hstep _ IH]; [done|].
    pose proof (server_step_total _ _ _ _ Hstep). lia.
  - intros s s'. induction 1 as [s|s1 s2 s3 Hstep _ IH]; [done|].
    intros Hle. apply IH. by eapply server_step_quota.
  - intros Hne.
    set (a := {| auth_userId := Some u; auth_has := None |}).
    assert (Hchecks : ∀ pend,
              createProjectAction_checks a "https://blob/x.mp3" "x.mp3" 1 None
                (projects {| projects := []; pending := pend |}) = Ok u).
    { intros pend. apply createProjectAction_checks_Ok.
      split; [reflexivity|]. split; [exact Hne|]. split; [discriminate|].
      split; [discriminate | reflexivity]. }
    eexists. split.
    { do 4 (eapply steps_step;
            [apply (step_checks u false _ a "https://blob/x.mp3" "x.mp3" 1%N None u);
             [apply Hchecks | reflexivity | discriminate]|]; cbn [projects pending app]).
      do 4 (eapply steps_step;
            [apply (step_insert u false _ 1000 0); reflexivity|]; cbn [projects pending]).
      apply steps_refl. }
    split; [reflexivity|].
    unfold total_of, getUserProjectCount. simpl.
    rewrite !filter_cons, filter_nil. simpl.
    by rewrite !decide_True.
Qed.

Lemma free_quota_and_overlapping_uploads_witness :
  ∃ s', server_steps "user_9" false {| projects := []; pending := [] |} s'
        ∧ total_of "user_9" s' = 4.
Proof.
  destruct (free_quota_and_overlapping_uploads "user_9") as (_ & _ & H).
  destruct H as (s' & Hsteps & _ & Htotal).
  - discriminate.
  - exists s'. split; [exact Hsteps | exact Htotal].
Defined.

(** ** The single retry action *)

(** X30.  For a signed-in caller and an existing project, whoever owns it and
    whatever the job, the action sends exactly one event, with the job,
    the caller's id, the caller's current plan and the plan inferred from
    the project, and writes nothing.  The plan is checked only by the
    retry function: run on that event, a job the caller's plan does not
    entitle is refused there, and the project is left as it was. *)
Theorem retryJob_leaves_the_plan_check_to_the_function a job w p uid :
  auth_userId a = Some uid → uid ≠ ""%string → db w = Some p →
  ∃ ev w',
    retryJob a job w = (Ok tt, w')
    ∧ sent w' = sent w ++ [ev] ∧ db w' = db w
    ∧ tasksStarted w' = tasksStarted w
    ∧ ev_job ev = job ∧ ev_userId ev = uid
    ∧ ev_currentPlan ev = currentPlan_of a
    ∧ ev_originalPlan ev = inferOriginalPlan p
    ∧ ∀ env, job ∉ entitledJobs (currentPlan_of a) →
        retryJobFunction env (ev_job ev) (Some (ev_originalPlan ev))
          (Some (ev_currentPlan ev)) w'
        = (Throw (new_Error (not_available_message job)), w').
Proof.
  intros Hu Hne Hdb. eexists _, _. split.
  { unfold retryJob. rewrite Hu. rewrite bool_decide_false by done.
    unfold bind at 1, getProject, db_get. rewrite Hdb. reflexivity. }
  simpl. repeat split.
  intros env Hno. unfold retryJobFunction. simpl.
  pose proof (entitled_iff_planHasFeature (currentPlan_of a) job) as Hent.
  destruct (match jobToFeature job with
            | Some feature => negb (planHasFeature (currentPlan_of a) feature)
            | None => false end); [reflexivity|].
  exfalso. apply Hno, Hent. reflexivity.
Qed.

Lemma retryJob_leaves_the_plan_check_to_the_function_witness :
  ∃ ev w',
    retryJob auth_other keyMoments (world_of text_only_project) = (Ok tt, w')
    ∧ sent w' = [ev] ∧ ev_currentPlan ev = free.
Proof.
  destruct (retryJob_leaves_the_plan_check_to_the_function auth_other keyMoments
              (world_of text_only_project) text_only_project "user_2"%string)
    as (ev & w' & Hrun & Hs & _ & _ & _ & _ & Hplan & _).
  - reflexivity.
  - vm_compute. discriminate.
  - reflexivity.
  - exists ev, w'. split; [exact Hrun|]. split; [exact Hs | exact Hplan].
Defined.
